(** * homework6/decision_tree.py: a decision-tree learner over continuous attributes

    A shallow embedding of [DecisionTree.entropy], [DecisionTree.learn_tree],
    [DecisionNode.classify], [LeafNode.classify] and the two node constructors.

    Conventions of the embedding.
    - In the learner and in the trees a Python [float] is a real number:
      arithmetic is exact, and rounding, NaN and infinities are not
      represented.  A Python [int] is a [Z]; where the source mixes the two
      the integer is injected with [IZR], and [float_of_int] says which
      integers have a float.
    - Where a property depends on the rounding, the code is embedded with the
      binary64 numbers of the source (the primitive floats of Rocq, IEEE 754
      with rounding to nearest even): the scan of the thresholds in
      [Binary64], and the size of the test set in [train_test_split].
    - A Python exception is a value of [exn] carried by [result]; every
      subscript, division and logarithm of the source that can raise is a
      step of the [result] monad.
    - An example (a [dict] produced by [csv.DictReader]) is an association list
      in insertion order, because [for key in examples[0]] walks the keys in
      that order and the order decides which split is met first.
    - The recursion of [learn_tree] is on a list that is built by filtering, so
      the function takes a fuel argument; [None] means the fuel ran out. *)

From Stdlib Require Import Floats.
From Stdlib Require Import Reals Lra Lia ZArith List String Bool Permutation.
Import ListNotations.

Local Open Scope string_scope.
Local Open Scope Z_scope.
Local Open Scope R_scope.

(** ** Exceptions *)

Inductive exn : Type :=
| KeyError
| IndexError
| ZeroDivisionError
| ValueError
| TypeError
| OverflowError.

Inductive result (A : Type) : Type :=
| Ok (a : A)
| Raise (e : exn).

Arguments Ok {A} a.
Arguments Raise {A} e.

Definition bind {A B : Type} (c : result A) (k : A -> result B) : result B :=
  match c with
  | Ok a => k a
  | Raise e => Raise e
  end.

Notation "x <- c ;; k" := (bind c (fun x => k))
  (at level 61, c at next level, right associativity).
Notation "' p <- c ;; k" := (bind c (fun x => let p := x in k))
  (at level 61, p pattern, c at next level, right associativity).

(** A [for] loop whose body may raise. *)
Fixpoint foldM {A B : Type} (body : A -> B -> result A) (l : list B) (a : A)
  : result A :=
  match l with
  | [] => Ok a
  | x :: l' => a' <- body a x ;; foldM body l' a'
  end.

(** ** Numbers *)

Definition Rltb (x y : R) : bool := if Rlt_dec x y then true else false.
Definition Rgeb (x y : R) : bool := if Rge_dec x y then true else false.
Definition Rneqb (x y : R) : bool := if Req_dec_T x y then false else true.

(** [max(a, b)] and [min(a, b)] keep their first argument unless the second
    is strictly larger (smaller). *)
Definition py_max (a b : R) : R := if Rltb a b then b else a.
Definition py_min (a b : R) : R := if Rltb b a then b else a.

(** [a / b] *)
Definition py_div (a b : R) : result R :=
  if Req_dec_T b 0 then Raise ZeroDivisionError else Ok (a / b).

(** [math.log(x, base)]: the quotient of two natural logarithms. *)
Definition math_log (x base : R) : result R :=
  if Rle_dec x 0 then Raise ValueError
  else if Rle_dec base 0 then Raise ValueError
  else py_div (ln x) (ln base).

(** ** Attribute values and examples *)

Inductive value : Type :=
| VFloat (f : R)
| VStr (s : string)
| VNone.

Definition example : Type := list (string * value).

Fixpoint lookup (k : string) (d : example) : option value :=
  match d with
  | [] => None
  | (k', v) :: d' => if String.eqb k k' then Some v else lookup k d'
  end.

(** [d[k]] *)
Definition getitem (d : example) (k : string) : result value :=
  match lookup k d with
  | Some v => Ok v
  | None => Raise KeyError
  end.

(** [type(v) == float] *)
Definition type_is_float (v : value) : bool :=
  match v with
  | VFloat _ => true
  | _ => false
  end.

(** [type(v) is None]: [type] returns a class object, which is never the
    object [None], whatever [v] is. *)
Definition type_is_None (v : value) : bool := false.

(** [examples[0]] *)
Definition first (examples : list example) : result example :=
  match examples with
  | [] => Raise IndexError
  | d :: _ => Ok d
  end.

(** ** Class counts: the dictionaries [parent], [l] and [r] *)

Record counts : Type := mkCounts {
  red : Z;
  light_blue : Z;
  medium_blue : Z;
  wicked_blue : Z
}.

Definition zero_counts : counts := mkCounts 0 0 0 0.

Definition known_class (s : string) : bool :=
  String.eqb s "red" || String.eqb s "light blue" ||
  String.eqb s "medium blue" || String.eqb s "wicked blue".

(** [c[k]] *)
Definition counts_get (c : counts) (k : value) : result Z :=
  match k with
  | VStr s =>
      if String.eqb s "red" then Ok (red c)
      else if String.eqb s "light blue" then Ok (light_blue c)
      else if String.eqb s "medium blue" then Ok (medium_blue c)
      else if String.eqb s "wicked blue" then Ok (wicked_blue c)
      else Raise KeyError
  | _ => Raise KeyError
  end.

(** [c[k] += 1] *)
Definition counts_incr (c : counts) (k : value) : result counts :=
  match k with
  | VStr s =>
      if String.eqb s "red" then
        Ok (mkCounts (red c + 1) (light_blue c) (medium_blue c) (wicked_blue c))
      else if String.eqb s "light blue" then
        Ok (mkCounts (red c) (light_blue c + 1) (medium_blue c) (wicked_blue c))
      else if String.eqb s "medium blue" then
        Ok (mkCounts (red c) (light_blue c) (medium_blue c + 1) (wicked_blue c))
      else if String.eqb s "wicked blue" then
        Ok (mkCounts (red c) (light_blue c) (medium_blue c) (wicked_blue c + 1))
      else Raise KeyError
  | _ => Raise KeyError
  end.

(** ** [DecisionTree.entropy] *)

Definition eps : R := 1 / 1000000000000000.

(** One summand: [dict[c] / total * math.log((dict[c] + 1e-15) / total, 2)],
    with [total] already smoothed. *)
Definition entropy_term (n : Z) (total : R) : result R :=
  q <- py_div (IZR n) total ;;
  a <- py_div (IZR n + eps) total ;;
  lg <- math_log a 2 ;;
  Ok (q * lg).

(** The body of [entropy] on integers that have a float, as the counts of a
    list of examples have: [learn_tree] passes counts that are at most
    [len(examples)]. *)
Definition entropy (dict : counts) (total : Z) : result R :=
  let total := IZR total + eps in
  t_red <- entropy_term (red dict) total ;;
  t_light <- entropy_term (light_blue dict) total ;;
  t_medium <- entropy_term (medium_blue dict) total ;;
  t_wicked <- entropy_term (wicked_blue dict) total ;;
  Ok (- (t_red + t_light + t_medium + t_wicked)).

(** The conversion of an [int] that meets a [float] in [+] or [/]: an
    integer that rounds to [2^1024] or beyond has no float, and the
    operation raises [OverflowError] (int too large to convert to float).
    The largest float is [2^1024 - 2^971]. *)
Definition float_of_int (n : Z) : result R :=
  if (Z.abs n <? 2 ^ 1024 - 2 ^ 970)%Z then Ok (IZR n)
  else Raise OverflowError.

(** [DecisionTree.entropy(dict, total)] on any integers: [total += 1e-15]
    converts [total], and each summand converts its count at
    [dict[c] / total], before the logarithm is taken. *)
Definition DecisionTree_entropy (dict : counts) (total : Z) : result R :=
  total' <- float_of_int total ;;
  let total' := total' + eps in
  t_red <- (_ <- float_of_int (red dict) ;; entropy_term (red dict) total') ;;
  t_light <-
    (_ <- float_of_int (light_blue dict) ;;
     entropy_term (light_blue dict) total') ;;
  t_medium <-
    (_ <- float_of_int (medium_blue dict) ;;
     entropy_term (medium_blue dict) total') ;;
  t_wicked <-
    (_ <- float_of_int (wicked_blue dict) ;;
     entropy_term (wicked_blue dict) total') ;;
  Ok (- (t_red + t_light + t_medium + t_wicked)).

(** ** Tree nodes *)

Inductive TreeNode : Type :=
| DecisionNode (test_attr_name : string) (test_attr_threshold : R)
    (child_lt child_ge child_miss : TreeNode)
| LeafNode (pred_class : value) (pred_class_count total_count : Z) (prob : R).

(** [LeafNode.__init__]: the probability is computed when the leaf is built. *)
Definition LeafNode_init (pred_class : value) (pred_class_count total_count : Z)
  : result TreeNode :=
  prob <- py_div (IZR pred_class_count) (IZR total_count) ;;
  Ok (LeafNode pred_class pred_class_count total_count prob).

(** [DecisionNode.classify] and [LeafNode.classify].  Comparing a string with
    the threshold raises [TypeError]. *)
Fixpoint classify (node : TreeNode) (ex : example) : result (value * R) :=
  match node with
  | LeafNode pred_class _ _ prob => Ok (pred_class, prob)
  | DecisionNode test_attr_name test_attr_threshold child_lt child_ge child_miss =>
      test_val <- getitem ex test_attr_name ;;
      match test_val with
      | VNone => classify child_miss ex
      | VFloat f =>
          if Rltb f test_attr_threshold then classify child_lt ex
          else classify child_ge ex
      | VStr _ => Raise TypeError
      end
  end.

(** ** [DecisionTree.learn_tree] *)

(** State of the first loop: [parent], [pred_class_count], [majority],
    [total]. *)
Record tally : Type := mkTally {
  parent : counts;
  pred_class_count : Z;
  majority : value;
  total : Z
}.

(** State of the search: [IG], [IG_thres], [IG_attr], [minimum_l],
    [minimum_r]. *)
Record best : Type := mkBest {
  IG : R;
  IG_thres : R;
  IG_attr : string;
  minimum_l : Z;
  minimum_r : Z
}.

(** State of the counting loop of one threshold: [p_l], [p_r], [l], [r]. *)
Record sides : Type := mkSides {
  p_l : Z;
  p_r : Z;
  l : counts;
  r : counts
}.

Definition tally0 : tally := mkTally zero_counts 0 (VStr "red") 0.
Definition best0 : best := mkBest 0 0 "town" 0 0.
Definition sides0 : sides := mkSides 0 0 zero_counts zero_counts.

Section Learner.

Variables (id_name class_name : string) (min_leaf_count : Z).

(** Body of [for dict in examples] at the top of [learn_tree]. *)
Definition tally_step (t : tally) (dict : example) : result tally :=
  label <- getitem dict class_name ;;
  parent' <- counts_incr (parent t) label ;;
  let check_count := pred_class_count t in
  n <- counts_get parent' label ;;
  let pred_class_count' := Z.max (pred_class_count t) n in
  let majority' :=
    if negb (Z.eqb check_count pred_class_count') then label else majority t in
  Ok (mkTally parent' pred_class_count' majority' (total t + 1)).

(** Body of the loop that finds [bottom] and [top] for [key]. *)
Definition range_step (key : string) (bt : R * R) (dict : example)
  : result (R * R) :=
  v <- getitem dict key ;;
  match v with
  | VFloat f => Ok (py_min f (fst bt), py_max f (snd bt))
  | _ => Ok bt
  end.

(** Body of the loop that counts both sides of [thres] for [key]. *)
Definition sides_step (key : string) (thres : R) (s : sides) (dict : example)
  : result sides :=
  v <- getitem dict key ;;
  match v with
  | VFloat f =>
      if Rgeb f thres then
        label <- getitem dict class_name ;;
        r' <- counts_incr (r s) label ;;
        Ok (mkSides (p_l s) (p_r s + 1) (l s) r')
      else
        label <- getitem dict class_name ;;
        l' <- counts_incr (l s) label ;;
        Ok (mkSides (p_l s + 1) (p_r s) l' (r s))
  | _ => Ok s
  end.

(** The information gain of a candidate whose two sides are counted in [s]:
    [entropy_parent - (p_l / (p_l + p_r) * entropy_l + p_r / (p_l + p_r) * entropy_r)]. *)
Definition gain (entropy_parent : R) (s : sides) : result R :=
  entropy_l <- entropy (l s) (p_l s) ;;
  entropy_r <- entropy (r s) (p_r s) ;;
  w_l <- py_div (IZR (p_l s)) (IZR (p_l s + p_r s)) ;;
  w_r <- py_div (IZR (p_r s)) (IZR (p_l s + p_r s)) ;;
  Ok (entropy_parent - (w_l * entropy_l + w_r * entropy_r)).

(** What follows the counting loop, from [if p_r != 0 and p_l != 0]. *)
Definition consider (entropy_parent : R) (key : string) (thres : R)
  (s : sides) (b : best) : result best :=
  if negb (Z.eqb (p_r s) 0) && negb (Z.eqb (p_l s) 0) then
    g <- gain entropy_parent s ;;
    let check := IG b in
    let IG' := py_max (IG b) g in
    if Rneqb IG' check &&
       (Z.gtb (p_l s) min_leaf_count && Z.gtb (p_r s) min_leaf_count)
    then Ok (mkBest IG' thres key (p_l s) (p_r s))
    else Ok (mkBest IG' (IG_thres b) (IG_attr b) (minimum_l b) (minimum_r b))
  else Ok b.

(** [for i in range(25)], with [thres] carried from one round to the next. *)
Fixpoint thres_loop (examples : list example) (entropy_parent : R)
  (key : string) (seg : R) (n : nat) (thres : R) (b : best) : result best :=
  match n with
  | O => Ok b
  | S n' =>
      let thres := thres + seg in
      s <- foldM (sides_step key thres) examples sides0 ;;
      b' <- consider entropy_parent key thres s b ;;
      thres_loop examples entropy_parent key seg n' thres b'
  end.

(** The test that guards the body of [for key in examples[0]]. *)
Definition eligible (v0 : value) (key : string) : bool :=
  (type_is_float v0 || type_is_None v0) && negb (String.eqb key id_name).

(** Body of [for key in examples[0]]. *)
Definition attr_step (examples : list example) (entropy_parent : R)
  (b : best) (key : string) : result best :=
  d0 <- first examples ;;
  v0 <- getitem d0 key ;;
  if eligible v0 key then
    bt <- foldM (range_step key) examples (9999, -9999) ;;
    let bottom := fst bt in
    let top := snd bt in
    let seg := (top - bottom) / 25 in
    thres_loop examples entropy_parent key seg 25 (bottom - seg) b
  else Ok b.

(** Everything of [learn_tree] before the stopping test. *)
Definition find_split (examples : list example) : result (tally * best) :=
  t <- foldM tally_step examples tally0 ;;
  entropy_parent <- entropy (parent t) (total t) ;;
  d0 <- first examples ;;
  b <- foldM (attr_step examples entropy_parent) (map fst d0) best0 ;;
  Ok (t, b).

(** Body of the loop that fills [examples_l] and [examples_r]. *)
Definition split_step (attr : string) (thres : R)
  (lr : list example * list example) (dict : example)
  : result (list example * list example) :=
  v <- getitem dict attr ;;
  match v with
  | VFloat f =>
      if Rgeb f thres then Ok (fst lr, (snd lr ++ [dict])%list)
      else Ok ((fst lr ++ [dict])%list, snd lr)
  | _ => Ok lr
  end.

Definition split (examples : list example) (attr : string) (thres : R)
  : result (list example * list example) :=
  foldM (split_step attr thres) examples ([], []).

(** The stopping test [IG_attr == 'town' or total <= self.min_leaf_count]. *)
Definition stop (t : tally) (b : best) : bool :=
  String.eqb (IG_attr b) "town" || Z.leb (total t) min_leaf_count.

Definition len (xs : list example) : Z := Z.of_nat (List.length xs).

Fixpoint learn_tree (fuel : nat) (examples : list example)
  : option (result TreeNode) :=
  match fuel with
  | O => None
  | S fuel' =>
      match find_split examples with
      | Raise e => Some (Raise e)
      | Ok (t, b) =>
          if stop t b then
            Some (LeafNode_init (majority t) (pred_class_count t) (total t))
          else
            match split examples (IG_attr b) (IG_thres b) with
            | Raise e => Some (Raise e)
            | Ok (examples_l, examples_r) =>
                match learn_tree fuel' examples_l with
                | None => None
                | Some (Raise e) => Some (Raise e)
                | Some (Ok child_lt) =>
                    match learn_tree fuel' examples_r with
                    | None => None
                    | Some (Raise e) => Some (Raise e)
                    | Some (Ok child_ge) =>
                        let node :=
                          child_miss <- LeafNode_init (majority t)
                                          (pred_class_count t) (total t) ;;
                          Ok (DecisionNode (IG_attr b) (IG_thres b)
                                child_lt child_ge child_miss) in
                        if Z.gtb (len examples_r) (len examples_l)
                        then Some node else Some node
                    end
                end
            end
      end
  end.

(** [DecisionTree.__init__]: the model is the configuration and the root. *)
Record DecisionTree : Type := mkDecisionTree {
  dt_id_name : string;
  dt_class_name : string;
  dt_min_leaf_count : Z;
  root : TreeNode
}.

(** The recursion of [learn_tree] is given one unit of fuel more than there
    are examples, which always suffices (see [learn_tree_fuel_enough]). *)
Definition DecisionTree_init (examples : list example)
  : option (result DecisionTree) :=
  match learn_tree (S (List.length examples)) examples with
  | None => None
  | Some (Raise e) => Some (Raise e)
  | Some (Ok node) =>
      Some (Ok (mkDecisionTree id_name class_name min_leaf_count node))
  end.

End Learner.

(** [DecisionTree.classify] *)
Definition DecisionTree_classify (tree : DecisionTree) (ex : example)
  : result (value * R) :=
  classify (root tree) ex.

(** ** The thresholds of an attribute, read off the loop *)

(** The values that [thres] takes in the [n] rounds of [for i in range(25)]:
    [thres += seg] comes first in each round. *)
Fixpoint thres_trace (seg : R) (n : nat) (thres : R) : list R :=
  match n with
  | O => []
  | S n' => (thres + seg) :: thres_trace seg n' (thres + seg)
  end.

(** The thresholds at which the attribute [key] is evaluated: [bottom],
    [top], [seg] and the start [bottom - seg] are computed as in
    [attr_step]. *)
Definition candidate_thresholds (examples : list example) (key : string)
  : result (list R) :=
  bt <- foldM (range_step key) examples (9999, -9999) ;;
  let bottom := fst bt in
  let top := snd bt in
  let seg := (top - bottom) / 25 in
  Ok (thres_trace seg 25 (bottom - seg)).

(** One round of the loop at threshold [thres]: count the sides and consider
    the candidate. *)
Definition visit (class_name : string) (min_leaf_count : Z)
  (examples : list example) (entropy_parent : R) (key : string)
  (b : best) (thres : R) : result best :=
  s <- foldM (sides_step class_name key thres) examples sides0 ;;
  consider min_leaf_count entropy_parent key thres s b.

(** * Vocabulary of the statements *)

(** ** Values of the entropy and of the gain *)

(** The value of one summand of [entropy] and of the whole sum, when nothing
    raises. *)
Definition term_val (n : Z) (T : R) : R :=
  IZR n / T * (ln ((IZR n + eps) / T) / ln 2).

Definition entropy_val (c : counts) (total : Z) : R :=
  let T := IZR total + eps in
  - (term_val (red c) T + term_val (light_blue c) T +
     term_val (medium_blue c) T + term_val (wicked_blue c) T).

(** The value of [gain], when nothing raises. *)
Definition gain_val (entropy_parent : R) (s : sides) : R :=
  entropy_parent -
  (IZR (p_l s) / IZR (p_l s + p_r s) * entropy_val (l s) (p_l s) +
   IZR (p_r s) / IZR (p_l s + p_r s) * entropy_val (r s) (p_r s)).

(** ** Class counts *)

Definition counts_nonneg (c : counts) : Prop :=
  (0 <= red c)%Z /\ (0 <= light_blue c)%Z /\
  (0 <= medium_blue c)%Z /\ (0 <= wicked_blue c)%Z.

Definition counts_sum (c : counts) : Z :=
  (red c + light_blue c + medium_blue c + wicked_blue c)%Z.

Definition max4 (c : counts) : Z :=
  Z.max (red c) (Z.max (light_blue c) (Z.max (medium_blue c) (wicked_blue c))).

Definition counts_add (c1 c2 : counts) : counts :=
  mkCounts (red c1 + red c2) (light_blue c1 + light_blue c2)
           (medium_blue c1 + medium_blue c2) (wicked_blue c1 + wicked_blue c2).

(** The class label of [d] is [c]. *)
Definition has_label (class_name c : string) (d : example) : bool :=
  match lookup class_name d with
  | Some (VStr s) => String.eqb s c
  | _ => false
  end.

(** How many examples have the label [c], and the four counts of a list. *)
Definition count_class (class_name c : string) (examples : list example) : Z :=
  len (filter (has_label class_name c) examples).

Definition class_counts (class_name : string) (examples : list example) : counts :=
  mkCounts (count_class class_name "red" examples)
           (count_class class_name "light blue" examples)
           (count_class class_name "medium blue" examples)
           (count_class class_name "wicked blue" examples).

(** The label of [d] is one of the four classes. *)
Definition label_known (class_name : string) (d : example) : Prop :=
  exists s, getitem d class_name = Ok (VStr s) /\ known_class s = true.

(** The example has the key. *)
Definition has_key (key : string) (d : example) : Prop := lookup key d <> None.

(** The invariant of the first loop of [learn_tree]. *)
Definition tally_inv (t : tally) : Prop :=
  counts_nonneg (parent t) /\
  pred_class_count t = max4 (parent t) /\
  counts_get (parent t) (majority t) = Ok (pred_class_count t) /\
  total t = counts_sum (parent t).

(** ** The two sides of a threshold *)

(** The examples that the split loop appends to [examples_l], and those it
    appends to [examples_r]. *)
Definition goes_left (attr : string) (thres : R) (d : example) : bool :=
  match lookup attr d with
  | Some (VFloat f) => Rltb f thres
  | _ => false
  end.

Definition goes_right (attr : string) (thres : R) (d : example) : bool :=
  match lookup attr d with
  | Some (VFloat f) => Rgeb f thres
  | _ => false
  end.

(** What the counting loop of a threshold returns when nothing raises. *)
Definition sides_of (class_name key : string) (thres : R)
  (examples : list example) : sides :=
  mkSides (len (filter (goes_left key thres) examples))
          (len (filter (goes_right key thres) examples))
          (class_counts class_name (filter (goes_left key thres) examples))
          (class_counts class_name (filter (goes_right key thres) examples)).

(** Both sides hold an example, and no count is negative. *)
Definition sides_ok (s : sides) : Prop :=
  counts_nonneg (l s) /\ counts_nonneg (r s) /\
  (0 < p_l s)%Z /\ (0 < p_r s)%Z.

(** The state holds a split that was met by the search: its two sides over
    [examples] are not empty and larger than [min_leaf_count]. *)
Definition recorded (class_name : string) (min_leaf_count : Z)
  (examples : list example) (b : best) : Prop :=
  exists s,
    foldM (sides_step class_name (IG_attr b) (IG_thres b)) examples sides0 = Ok s /\
    p_l s <> 0%Z /\ p_r s <> 0%Z /\
    (p_l s > min_leaf_count)%Z /\ (p_r s > min_leaf_count)%Z /\
    minimum_l b = p_l s /\ minimum_r b = p_r s.

(** The invariant of the search. *)
Definition best_inv (class_name : string) (min_leaf_count : Z)
  (examples : list example) (b : best) : Prop :=
  IG_attr b = "town" \/ recorded class_name min_leaf_count examples b.

(** ** Numeric values of an attribute *)

(** The numeric values of [key] in the examples, in order. *)
Definition defined_values (key : string) (examples : list example) : list R :=
  flat_map (fun d => match lookup key d with
                     | Some (VFloat f) => [f]
                     | _ => []
                     end) examples.

Definition is_min (m : R) (vals : list R) : Prop :=
  In m vals /\ forall v, In v vals -> m <= v.

Definition is_max (m : R) (vals : list R) : Prop :=
  In m vals /\ forall v, In v vals -> v <= m.

(** The thresholds as the specification words them: [min + seg * i] for
    [i = 1 .. 25], with [seg = (max - min) / 25]. *)
Definition claimed_thresholds (mn mx : R) : list R :=
  map (fun i => mn + (mx - mn) / 25 * INR i) (seq 1 25).

(** ** Trees *)

(** The statistics of every leaf are consistent. *)
Fixpoint leaves_ok (node : TreeNode) : Prop :=
  match node with
  | LeafNode _ n tot p =>
      (0 < n <= tot)%Z /\ p = IZR n / IZR tot /\ 0 < p <= 1
  | DecisionNode _ _ child_lt child_ge child_miss =>
      leaves_ok child_lt /\ leaves_ok child_ge /\ leaves_ok child_miss
  end.

(** Some decision node of the tree tests [attr]. *)
Fixpoint tests (attr : string) (node : TreeNode) : Prop :=
  match node with
  | LeafNode _ _ _ _ => False
  | DecisionNode a _ child_lt child_ge child_miss =>
      a = attr \/ tests attr child_lt \/ tests attr child_ge \/
      tests attr child_miss
  end.

(** * Training sets

    Every set has the identifier attribute ['name'] and the class attribute
    ['label']; [min_leaf_count] is 1 on all of them. *)

Definition row (name : string) (attr : string) (v : value) (label : string)
  : example :=
  [("name", VStr name); (attr, v); ("label", VStr label)].

(** Four examples and one numeric attribute [x] that separates the two
    classes: the set is split once. *)
Definition ex_x_lt : list example :=
  [row "a" "x" (VFloat 0) "red"; row "b" "x" (VFloat 0) "red"].

Definition ex_x_ge : list example :=
  [row "c" "x" (VFloat 1) "light blue"; row "d" "x" (VFloat 1) "light blue"].

Definition ex_x : list example := (ex_x_lt ++ ex_x_ge)%list.

(** The class counts of [ex_x], and the sides of its split. *)
Definition P_x : counts := mkCounts 2 2 0 0.

Definition s_x : sides := mkSides 2 2 (mkCounts 2 0 0 0) (mkCounts 0 2 0 0).

Definition tree_x : TreeNode :=
  DecisionNode "x" (1 / 25)
    (LeafNode (VStr "red") 2 2 (2 / 2))
    (LeafNode (VStr "light blue") 2 2 (2 / 2))
    (LeafNode (VStr "red") 2 4 (2 / 4)).

(** The same four examples, with the attribute named ['town']. *)
Definition ex_town : list example :=
  [row "a" "town" (VFloat 0) "red"; row "b" "town" (VFloat 0) "red";
   row "c" "town" (VFloat 1) "light blue"; row "d" "town" (VFloat 1) "light blue"].

(** Five examples and three numeric attributes [w], [x], [y], some values
    missing.  [w] separates the examples two and two, with both classes on
    its left side; [x] has a value in two examples only, one of each class;
    [y] has a value in four examples and separates the classes two and
    two. *)
Definition row3 (name : string) (w x y : value) (label : string) : example :=
  [("name", VStr name); ("w", w); ("x", x); ("y", y); ("label", VStr label)].

Definition ex_c1_lt : list example :=
  [row3 "a" (VFloat 0) (VFloat 0) (VFloat 0) "red";
   row3 "b" (VFloat 0) (VFloat 1) (VFloat 1) "light blue"].

Definition ex_c1_ge : list example :=
  [row3 "c" (VFloat 1) VNone (VFloat 0) "red";
   row3 "d" (VFloat 1) VNone VNone "red"].

Definition ex_c1 : list example :=
  (ex_c1_lt ++ ex_c1_ge ++ [row3 "e" VNone VNone (VFloat 1) "light blue"])%list.

(** The class counts of [ex_c1] and of [ex_c1_lt]. *)
Definition P_c1 : counts := mkCounts 3 2 0 0.

Definition P_11 : counts := mkCounts 1 1 0 0.

(** The sides of the candidates of [w] and of [x]; those of [y] are [s_x]. *)
Definition s_w : sides := mkSides 2 2 P_11 (mkCounts 2 0 0 0).

Definition s_11 : sides := mkSides 1 1 (mkCounts 1 0 0 0) (mkCounts 0 1 0 0).

Definition tree_c1 : TreeNode :=
  DecisionNode "w" (1 / 25)
    (LeafNode (VStr "red") 1 2 (1 / 2))
    (LeafNode (VStr "red") 2 2 (2 / 2))
    (LeafNode (VStr "red") 3 5 (3 / 5)).

(** Five examples and one numeric attribute [x] that separates the classes,
    but the first example has no value for it. *)
Definition ex_c3 : list example :=
  [row "a" "x" VNone "red";
   row "b" "x" (VFloat 0) "red"; row "c" "x" (VFloat 0) "red";
   row "d" "x" (VFloat 1) "light blue"; row "e" "x" (VFloat 1) "light blue"].

(** ** What the search has chosen *)

(** The state holds a split of an attribute that is numeric in the first
    example and is not the identifier; its sides are above
    [min_leaf_count] and its gain is positive and at most [IG]. *)
Definition chosen (id_name class_name : string) (min_leaf_count : Z)
  (examples : list example) (entropy_parent : R) (b : best) : Prop :=
  exists d0 f s g,
    first examples = Ok d0 /\
    getitem d0 (IG_attr b) = Ok (VFloat f) /\
    IG_attr b <> id_name /\
    foldM (sides_step class_name (IG_attr b) (IG_thres b)) examples sides0 = Ok s /\
    (p_l s > min_leaf_count)%Z /\ (p_r s > min_leaf_count)%Z /\
    gain entropy_parent s = Ok g /\ 0 < g /\ g <= IG b.

Definition search_inv (id_name class_name : string) (min_leaf_count : Z)
  (examples : list example) (entropy_parent : R) (b : best) : Prop :=
  0 <= IG b /\
  (IG_attr b = "town" \/
   chosen id_name class_name min_leaf_count examples entropy_parent b).

(** The counts of the two sides are sound. *)
Definition sides_sound (s : sides) : Prop :=
  counts_nonneg (l s) /\ counts_nonneg (r s) /\
  (0 <= p_l s)%Z /\ (0 <= p_r s)%Z.

(** The computation raises nothing but [KeyError]. *)
Definition only_KeyError {A : Type} (c : result A) : Prop :=
  forall e, c = Raise e -> e = KeyError.

(** The [total_count] of the leaves that are reached through [child_lt] and
    [child_ge] only, from left to right. *)
Fixpoint branch_totals (node : TreeNode) : list Z :=
  match node with
  | LeafNode _ _ tot _ => [tot]
  | DecisionNode _ _ child_lt child_ge _ =>
      (branch_totals child_lt ++ branch_totals child_ge)%list
  end.

(** All leaves of the tree, those of the missing-value branches included, as
    pairs of a label and a probability. *)
Fixpoint leaves (node : TreeNode) : list (value * R) :=
  match node with
  | LeafNode c _ _ p => [(c, p)]
  | DecisionNode _ _ child_lt child_ge child_miss =>
      (leaves child_lt ++ leaves child_ge ++ leaves child_miss)%list
  end.

(** Every example has the keys of every other one, in the same order: the
    list is a table. *)
Definition same_keys (examples : list example) : Prop :=
  forall d d', In d examples -> In d' examples -> map fst d = map fst d'.

(** Two examples, the second of which has no key [x]. *)
Definition ex_ragged : list example :=
  [row "a" "x" (VFloat 0) "red"; [("name", VStr "b"); ("label", VStr "red")]].

Definition sumZ (l : list Z) : Z := fold_right Z.add 0%Z l.

(** Every example has the class label [c]. *)
Definition all_labelled (class_name c : string) (examples : list example) : Prop :=
  Forall (fun d => getitem d class_name = Ok (VStr c)) examples.

(** * The threshold scan in binary64

    [learn_tree], lines 180-193: the scan of one attribute, with the
    arithmetic of the source.  A [float] is a binary64 number, and [+], [-],
    [/] and [<] are the operations of IEEE 754, rounded to nearest even.
    What a round of [for i in range(25)] does with the threshold (it counts
    the two sides and compares a gain) changes neither [thres] nor [seg];
    it is a parameter here. *)

Module Binary64.

Local Open Scope float_scope.

Inductive value : Type :=
| VFloat (f : float)
| VStr (s : string)
| VNone.

Definition example : Type := list (string * value).

Fixpoint lookup (k : string) (d : example) : option value :=
  match d with
  | [] => None
  | (k', v) :: d' => if String.eqb k k' then Some v else lookup k d'
  end.

(** [d[k]] *)
Definition getitem (d : example) (k : string) : result value :=
  match lookup k d with
  | Some v => Ok v
  | None => Raise KeyError
  end.

(** [max(a, b)] and [min(a, b)] keep their first argument unless the second
    is strictly larger (smaller); a comparison with NaN is false. *)
Definition py_max (a b : float) : float := if a <? b then b else a.
Definition py_min (a b : float) : float := if b <? a then b else a.

(** Body of the loop that computes [bottom] and [top].  The two start as
    the integers 9999 and -9999, which are floats exactly. *)
Definition range_step (key : string) (bt : float * float) (dict : example)
  : result (float * float) :=
  v <- getitem dict key ;;
  match v with
  | VFloat f => Ok (py_min f (fst bt), py_max f (snd bt))
  | _ => Ok bt
  end.

Section Rounds.

(** The state that the rounds update, and a round at a threshold. *)
Variable State : Type.
Variable round : float -> State -> result State.

(** [for i in range(25)], with [thres] carried from one round to the next. *)
Fixpoint thres_loop (seg : float) (n : nat) (thres : float) (st : State)
  : result State :=
  match n with
  | O => Ok st
  | S n' =>
      let thres := thres + seg in
      st' <- round thres st ;;
      thres_loop seg n' thres st'
  end.

(** The scan of the attribute [key]. *)
Definition scan (examples : list example) (key : string) (st : State)
  : result State :=
  bt <- foldM (range_step key) examples (9999, -9999) ;;
  let bottom := fst bt in
  let top := snd bt in
  let seg := (top - bottom) / 25 in
  thres_loop seg 25 (bottom - seg) st.

End Rounds.

(** The values that [thres] takes in [n] rounds. *)
Fixpoint thres_trace (seg : float) (n : nat) (thres : float) : list float :=
  match n with
  | O => []
  | S n' => (thres + seg) :: thres_trace seg n' (thres + seg)
  end.

(** The thresholds of the attribute [key], in the order of the rounds. *)
Definition candidate_thresholds (examples : list example) (key : string)
  : result (list float) :=
  bt <- foldM (range_step key) examples (9999, -9999) ;;
  let bottom := fst bt in
  let top := snd bt in
  let seg := (top - bottom) / 25 in
  Ok (thres_trace seg 25 (bottom - seg)).

(** The numeric values of the attribute, in the order of the examples. *)
Definition defined_values (key : string) (examples : list example)
  : list float :=
  flat_map (fun d => match lookup key d with
                     | Some (VFloat f) => [f]
                     | _ => []
                     end) examples.

Definition is_min (m : float) (vals : list float) : Prop :=
  In m vals /\ forall v, In v vals -> (m <=? v) = true.

Definition is_max (m : float) (vals : list float) : Prop :=
  In m vals /\ forall v, In v vals -> (v <=? m) = true.

(** The thresholds of the specification: [mn + seg * i] for [i = 1..25]. *)
Definition claimed_thresholds (mn mx : float) : list float :=
  map (fun i => mn + (mx - mn) / 25 * of_uint63 (Uint63.of_Z (Z.of_nat i)))
    (seq 1 25).

(** Four examples whose attribute [x] is 0, 0, 1 and 1. *)
Definition row (name : string) (attr : string) (v : value) (label : string)
  : example :=
  [("name", VStr name); (attr, v); ("label", VStr label)].

Definition ex_x : list example :=
  [row "a" "x" (VFloat 0) "red"; row "b" "x" (VFloat 0) "red";
   row "c" "x" (VFloat 1) "light blue"; row "d" "x" (VFloat 1) "light blue"].

End Binary64.

(** * [train_test_split] *)

(** The conversion of an [int] to a binary64 number, where the source
    multiplies an [int] by a [float]: the integer is rounded to nearest
    even, and one that rounds to [2^1024] has no float. *)
Definition binary64_of_int (n : Z) : result float :=
  if (Z.abs n <? 2 ^ 1024 - 2 ^ 970)%Z
  then Ok (SF2Prim (binary_normalize prec emax n 0 false))
  else Raise OverflowError.

(** [m * 2^e] rounded to the nearest integer, and to the even one of the
    two when it lies half way between two integers. *)
Definition round_half_even (m e : Z) : Z :=
  if (0 <=? e)%Z then (m * 2 ^ e)%Z
  else
    let d := (2 ^ (- e))%Z in
    let q := (m / d)%Z in
    let r := (m mod d)%Z in
    if (2 * r <? d)%Z then q
    else if (d <? 2 * r)%Z then (q + 1)%Z
    else if Z.even q then q else (q + 1)%Z.

(** [round(x)] of a float: an [int]; NaN and the infinities have none. *)
Definition py_round (x : float) : result Z :=
  match Prim2SF x with
  | S754_nan => Raise ValueError
  | S754_infinity _ => Raise OverflowError
  | S754_zero _ => Ok 0%Z
  | S754_finite s m e =>
      let q := round_half_even (Zpos m) e in
      Ok (if s then (- q)%Z else q)
  end.

(** The position that the bound [n] of a slice stands for in a list of
    length [len]: a negative bound counts from the end and stops at the
    front. *)
Definition slice_bound (n : Z) (len : nat) : nat :=
  if (n <? 0)%Z then Z.to_nat (Z.max (Z.of_nat len + n) 0) else Z.to_nat n.

(** [l[n:]] and [l[:n]] *)
Definition slice_from {A : Type} (l : list A) (n : Z) : list A :=
  skipn (slice_bound n (List.length l)) l.

Definition slice_to {A : Type} (l : list A) (n : Z) : list A :=
  firstn (slice_bound n (List.length l)) l.

(** [train_test_split(examples, test_perc)], where [shuffled] is what
    [random.sample(examples, len(examples))] has returned.  The product
    [test_perc * len(examples)] is a binary64 product, and it is this float
    that [round] takes.  The result is the pair (training set, test
    set). *)
Definition train_test_split (shuffled : list example) (examples : list example)
  (test_perc : float) : result (list example * list example) :=
  n <- binary64_of_int (len examples) ;;
  test_size <- py_round (test_perc * n)%float ;;
  Ok (slice_from shuffled test_size, slice_to shuffled test_size).

(** The lengths of [l[:n]] for a list of [len] elements. *)
Definition slice_to_length (n len : Z) : Z :=
  if (n <? 0)%Z then Z.max (len + n) 0 else Z.min n len.

(** * [confusion4x4] *)

(** A dictionary whose keys are pairs of labels, in insertion order. *)
Definition pair_dict : Type := list ((string * string) * Z).

Definition pair_eqb (k k' : string * string) : bool :=
  String.eqb (fst k) (fst k') && String.eqb (snd k) (snd k').

(** [d.get(k, default)] *)
Fixpoint dict_get (d : pair_dict) (k : string * string) (default : Z) : Z :=
  match d with
  | [] => default
  | (k', v) :: d' => if pair_eqb k k' then v else dict_get d' k default
  end.

(** [d[k] = v] *)
Fixpoint dict_set (d : pair_dict) (k : string * string) (v : Z) : pair_dict :=
  match d with
  | [] => [(k, v)]
  | (k', v') :: d' =>
      if pair_eqb k k' then (k', v) :: d' else (k', v') :: dict_set d' k v
  end.

(** [sum([v for v in vals.values()])] *)
Definition dict_values_sum (vals : pair_dict) : Z :=
  fold_right (fun kv acc => (snd kv + acc)%Z) 0%Z vals.

(** A list comprehension whose element may raise. *)
Fixpoint mapM {A B : Type} (f : A -> result B) (xs : list A) : result (list B) :=
  match xs with
  | [] => Ok []
  | x :: xs' => y <- f x ;; ys <- mapM f xs' ;; Ok (y :: ys)
  end.

(** The list [row] for the label [labp], and what the format string of the
    line makes of it: its four number fields take the first four cells, and
    a row with fewer cells leaves a field without an argument. *)
Definition confusion_row (labels : list string) (vals : pair_dict) (n : Z)
  (labp : string) : result (list R) :=
  cells <- mapM (fun laba => py_div (IZR (dict_get vals (labp, laba) 0)) (IZR n))
             labels ;;
  if (List.length cells <? 4)%nat then Raise IndexError else Ok (firstn 4 cells).

(** [confusion4x4(labels, vals)]: the quotients of the table that is
    returned, one list for each printed line, before they are rounded and
    written with two decimals; the text around them is not modelled.  The
    line of abbreviations at the foot has four fields as well. *)
Definition confusion4x4 (labels : list string) (vals : pair_dict)
  : result (list (list R)) :=
  let n := dict_values_sum vals in
  rows <- mapM (confusion_row labels vals n) labels ;;
  if (List.length labels <? 4)%nat then Raise IndexError else Ok rows.

(** * The script: the evaluation of the tree on the test set *)

(** [ordering], which is also the list of labels given to [confusion4x4]. *)
Definition ordering : list string :=
  ["red"; "light blue"; "medium blue"; "wicked blue"].

Fixpoint index_of (x : string) (xs : list string) : option nat :=
  match xs with
  | [] => None
  | y :: xs' =>
      if String.eqb x y then Some O
      else match index_of x xs' with
           | Some i => Some (S i)
           | None => None
           end
  end.

(** [xs.index(x)] *)
Definition list_index (xs : list string) (x : value) : result Z :=
  match x with
  | VStr s =>
      match index_of s xs with
      | Some i => Ok (Z.of_nat i)
      | None => Raise ValueError
      end
  | _ => Raise ValueError
  end.

(** An operand of [+] whose other operand is a string. *)
Definition str_operand (v : value) : result string :=
  match v with
  | VStr s => Ok s
  | _ => Raise TypeError
  end.

(** [correct], [almost] and [test_act_pred]. *)
Record tested : Type := mkTested {
  correct : Z;
  almost : Z;
  test_act_pred : pair_dict
}.

Definition tested0 : tested := mkTested 0 0 [].

(** Body of [for example in test_examples]; what [print] writes is left out,
    the exceptions of its arguments are kept, in the order in which the
    arguments are evaluated. *)
Definition test_step (tree : DecisionTree) (class_attr_name id_attr_name : string)
  (st : tested) (ex : example) : result tested :=
  actual <- getitem ex class_attr_name ;;
  pp <- DecisionTree_classify tree ex ;;
  let pred := fst pp in
  id <- getitem ex id_attr_name ;;
  _ <- str_operand id ;;
  pred_s <- str_operand pred ;;
  actual_s <- str_operand actual ;;
  let correct' :=
    if String.eqb pred_s actual_s then (correct st + 1)%Z else correct st in
  i <- list_index ordering pred ;;
  j <- list_index ordering actual ;;
  let almost' :=
    if (Z.abs (i - j) <? 2)%Z then (almost st + 1)%Z else almost st in
  let key := (actual_s, pred_s) in
  Ok (mkTested correct' almost'
        (dict_set (test_act_pred st) key
           (dict_get (test_act_pred st) key 0 + 1)%Z)).

Definition test_tree (tree : DecisionTree) (class_attr_name id_attr_name : string)
  (test_examples : list example) : result tested :=
  foldM (test_step tree class_attr_name id_attr_name) test_examples tested0.

(** The three things that are printed after the loop: the accuracy, the
    share of the predictions within one level of the answer, and the
    confusion matrix. *)
Definition report (st : tested) (test_examples : list example)
  : result (R * R * list (list R)) :=
  accuracy <- py_div (IZR (correct st)) (IZR (len test_examples)) ;;
  within_one <- py_div (IZR (almost st)) (IZR (len test_examples)) ;;
  rows <- confusion4x4 ordering (test_act_pred st) ;;
  Ok (accuracy, within_one, rows).

(** ** Vocabulary *)

(** The keys of the dictionary are distinct pairs of labels of [labels]. *)
Definition keys_in (labels : list string) (vals : pair_dict) : Prop :=
  NoDup (map fst vals) /\
  forall k, In k (map fst vals) -> In (fst k) labels /\ In (snd k) labels.

(** The actual and the predicted label of a test example, when both are
    strings. *)
Definition outcome (tree : DecisionTree) (class_attr_name : string)
  (ex : example) : option (string * string) :=
  match getitem ex class_attr_name, DecisionTree_classify tree ex with
  | Ok (VStr a), Ok (VStr p, _) => Some (a, p)
  | _, _ => None
  end.

Definition countb {A : Type} (f : A -> bool) (xs : list A) : Z :=
  Z.of_nat (List.length (filter f xs)).

Definition is_pair (tree : DecisionTree) (class_attr_name : string)
  (k : string * string) (ex : example) : bool :=
  match outcome tree class_attr_name ex with
  | Some k' => pair_eqb k k'
  | None => false
  end.

Definition is_correct (tree : DecisionTree) (class_attr_name : string)
  (ex : example) : bool :=
  match outcome tree class_attr_name ex with
  | Some (a, p) => String.eqb p a
  | None => false
  end.

(** The two labels are the same or neighbours in [ordering]. *)
Definition is_almost (tree : DecisionTree) (class_attr_name : string)
  (ex : example) : bool :=
  match outcome tree class_attr_name ex with
  | Some (a, p) =>
      match index_of p ordering, index_of a ordering with
      | Some i, Some j => (Z.abs (Z.of_nat i - Z.of_nat j) <? 2)%Z
      | _, _ => false
      end
  | None => false
  end.

(** The example can be run through the loop with the tree [node]: its label
    is one of the classes, its identifier is a string, and it has a number
    or [None] for every attribute that the tree tests. *)
Definition testable (id_name class_name : string) (node : TreeNode)
  (ex : example) : Prop :=
  label_known class_name ex /\
  (exists s, getitem ex id_name = Ok (VStr s)) /\
  forall attr, tests attr node ->
    exists v, getitem ex attr = Ok v /\ forall s, v <> VStr s.

(** A tree and a test set for it. *)
Definition dt_x : DecisionTree := mkDecisionTree "name" "label" 1 tree_x.

Definition test_x : list example :=
  [row "q" "x" (VFloat 0) "red"; row "r" "x" VNone "light blue";
   row "s" "x" (VFloat 1) "light blue"].

(** The number of entries of the dictionary on the diagonal of the table. *)
Definition diag_count (labels : list string) (vals : pair_dict) : Z :=
  sumZ (map (fun p => dict_get vals (p, p) 0%Z) labels).

(** The state of the loop after [n] examples. *)
Definition tested_inv (n : Z) (st : tested) : Prop :=
  (0 <= correct st <= almost st)%Z /\ (almost st <= n)%Z /\
  dict_values_sum (test_act_pred st) = n /\
  keys_in ordering (test_act_pred st) /\
  correct st = diag_count ordering (test_act_pred st).

(** * [DecisionTree.__str__] and [_ascii_tree] *)

(** The two corner characters, U+250C and U+2514, in UTF-8. *)
Definition corner_down : string :=
  String (Ascii.ascii_of_nat 226)
    (String (Ascii.ascii_of_nat 148) (String (Ascii.ascii_of_nat 140) "")).

Definition corner_up : string :=
  String (Ascii.ascii_of_nat 226)
    (String (Ascii.ascii_of_nat 148) (String (Ascii.ascii_of_nat 148) "")).

Definition newline : string := String (Ascii.ascii_of_nat 10) "".

(** [" " * n] *)
Fixpoint spaces (n : nat) : string :=
  match n with
  | O => ""
  | S n' => " " ++ spaces n'
  end.

Definition indent : nat := 7.

Section Printing.

(** The conversions that [format] applies to a label, to an integer, to a
    float, and to a float under [:.2f]. *)
Variables (fmt_value : value -> string) (fmt_int : Z -> string)
  (fmt_float fmt_2f : R -> string).

(** [_ascii_tree(node)]: the lines above the line of the node, this line,
    and the lines below it. *)
Fixpoint _ascii_tree (node : TreeNode) : list string * string * list string :=
  match node with
  | LeafNode pred_class pred_count total_count prob =>
      ([""],
       "leaf " ++ fmt_value pred_class ++ " " ++ fmt_int pred_count ++ "/"
         ++ fmt_int total_count ++ "=" ++ fmt_2f prob,
       [""])
  | DecisionNode test_attr_name test_attr_threshold child_lt child_ge _ =>
      let '(ge_bef, ge_ln, ge_aft) := _ascii_tree child_ge in
      let lines_before :=
        (map (fun line => (spaces (indent * 2) ++ " " ++ spaces indent ++ line)%string)
           ge_bef
         ++ [(spaces (indent * 2) ++ corner_down ++ " >="
                ++ fmt_float test_attr_threshold ++ "----" ++ ge_ln)%string]
         ++ map (fun line => (spaces (indent * 2) ++ "|" ++ spaces indent ++ line)%string)
              ge_aft)%list in
      let line_mid := test_attr_name in
      let '(lt_bef, lt_ln, lt_aft) := _ascii_tree child_lt in
      let lines_after :=
        (map (fun line => (spaces (indent * 2) ++ "|" ++ spaces indent ++ line)%string)
           lt_bef
         ++ [(spaces (indent * 2) ++ corner_up ++ "- <"
                ++ fmt_float test_attr_threshold ++ "----" ++ lt_ln)%string]
         ++ map (fun line => (spaces (indent * 2) ++ " " ++ spaces indent ++ line)%string)
              lt_aft)%list in
      (lines_before, line_mid, lines_after)
  end.

(** The lines that [__str__] joins. *)
Definition tree_lines (node : TreeNode) : list string :=
  let '(ln_bef, ln, ln_aft) := _ascii_tree node in
  (ln_bef ++ [ln] ++ ln_aft)%list.

(** [DecisionTree.__str__] *)
Definition DecisionTree_str (tree : DecisionTree) : string :=
  String.concat newline (tree_lines (root tree)).

End Printing.

(** The tree without its branches for missing values. *)
Fixpoint drawn (node : TreeNode) : TreeNode :=
  match node with
  | LeafNode _ _ _ _ => node
  | DecisionNode a th child_lt child_ge _ =>
      DecisionNode a th (drawn child_lt) (drawn child_ge) (LeafNode VNone 0 0 0)
  end.

(** The number of leaves below the two branches of the comparisons. *)
Definition drawn_leaves (node : TreeNode) : nat :=
  List.length (branch_totals node).

(** * Properties *)

(** ** The comparisons *)

Lemma Rltb_true (x y : R) : Rltb x y = true <-> x < y.
Proof. unfold Rltb; destruct (Rlt_dec x y); split; intros; congruence || assumption. Qed.

Lemma Rltb_false (x y : R) : Rltb x y = false <-> y <= x.
Proof.
  unfold Rltb; destruct (Rlt_dec x y); split; intros; try congruence; lra.
Qed.

Lemma Rgeb_true (x y : R) : Rgeb x y = true <-> y <= x.
Proof.
  unfold Rgeb; destruct (Rge_dec x y); split; intros; try congruence; lra.
Qed.

Lemma Rgeb_false (x y : R) : Rgeb x y = false <-> x < y.
Proof.
  unfold Rgeb; destruct (Rge_dec x y); split; intros; try congruence; lra.
Qed.

Lemma Rneqb_true (x y : R) : Rneqb x y = true <-> x <> y.
Proof.
  unfold Rneqb; destruct (Req_dec_T x y); split; intros; congruence.
Qed.

Lemma Rneqb_false (x y : R) : Rneqb x y = false <-> x = y.
Proof.
  unfold Rneqb; destruct (Req_dec_T x y); split; intros; congruence.
Qed.

Lemma Rgeb_negb_Rltb (x y : R) : Rgeb x y = negb (Rltb x y).
Proof.
  destruct (Rltb x y) eqn:E; simpl.
  - apply Rgeb_false, Rltb_true, E.
  - apply Rgeb_true, Rltb_false, E.
Qed.

Lemma py_max_le (a b : R) : a <= py_max a b /\ b <= py_max a b.
Proof.
  unfold py_max; destruct (Rltb a b) eqn:E.
  - apply Rltb_true in E; lra.
  - apply Rltb_false in E; lra.
Qed.

Lemma py_max_cases (a b : R) :
  (a < b /\ py_max a b = b) \/ (b <= a /\ py_max a b = a).
Proof.
  unfold py_max; destruct (Rltb a b) eqn:E.
  - left; split; [apply Rltb_true, E | reflexivity].
  - right; split; [apply Rltb_false, E | reflexivity].
Qed.

Lemma py_min_cases (a b : R) :
  (b < a /\ py_min a b = b) \/ (a <= b /\ py_min a b = a).
Proof.
  unfold py_min; destruct (Rltb b a) eqn:E.
  - left; split; [apply Rltb_true, E | reflexivity].
  - right; split; [apply Rltb_false, E | reflexivity].
Qed.

Lemma py_div_ok (a b : R) : b <> 0 -> py_div a b = Ok (a / b).
Proof. intros H; unfold py_div; destruct (Req_dec_T b 0); congruence. Qed.

Lemma py_div_zero (a : R) : py_div a 0 = Raise ZeroDivisionError.
Proof. unfold py_div; destruct (Req_dec_T 0 0); congruence. Qed.

(** ** The logarithm *)

Lemma eps_pos : 0 < eps.
Proof. unfold eps; lra. Qed.

Lemma ln_2_pos : 0 < ln 2.
Proof. pose proof ln_lt_2; lra. Qed.

Lemma ln_le_minus_1 (y : R) : 0 < y -> ln y <= y - 1.
Proof.
  intros Hy.
  destruct (Rle_dec (ln y) (y - 1)) as [H | H]; [exact H | exfalso].
  apply Rnot_le_lt in H.
  apply exp_increasing in H.
  rewrite (exp_ln y Hy) in H.
  pose proof (exp_ineq1_le (y - 1)); lra.
Qed.

Lemma ln_nonpos (x : R) : 0 < x -> x <= 1 -> ln x <= 0.
Proof.
  intros H0 H1; pose proof (ln_le_minus_1 x H0); lra.
Qed.

Lemma ln_neg (x : R) : 0 < x -> x < 1 -> ln x < 0.
Proof.
  intros H0 H1; rewrite <- ln_1; apply ln_increasing; assumption.
Qed.


Lemma math_log_2_ok (x : R) : 0 < x -> math_log x 2 = Ok (ln x / ln 2).
Proof.
  intros Hx; unfold math_log.
  destruct (Rle_dec x 0); [lra |].
  destruct (Rle_dec 2 0); [lra |].
  apply py_div_ok; pose proof ln_2_pos; lra.
Qed.

(** ** Entropy *)

Lemma entropy_term_ok (n : Z) (T : R) :
  (0 <= n)%Z -> 0 < T -> entropy_term n T = Ok (term_val n T).
Proof.
  intros Hn HT; unfold entropy_term, term_val.
  apply IZR_le in Hn.
  rewrite !py_div_ok by lra; simpl.
  rewrite math_log_2_ok; [reflexivity |].
  apply Rdiv_lt_0_compat; [pose proof eps_pos; lra | exact HT].
Qed.

Lemma entropy_ok (c : counts) (total : Z) :
  counts_nonneg c -> (0 <= total)%Z ->
  entropy c total = Ok (entropy_val c total).
Proof.
  intros (H1 & H2 & H3 & H4) Ht; unfold entropy, entropy_val.
  apply IZR_le in Ht.
  assert (HT : 0 < IZR total + eps) by (pose proof eps_pos; lra).
  cbv zeta.
  rewrite !entropy_term_ok by assumption.
  reflexivity.
Qed.

Lemma Rdiv_nonneg (a b : R) : 0 <= a -> 0 < b -> 0 <= a / b.
Proof.
  intros Ha Hb; unfold Rdiv.
  apply Rmult_le_pos; [exact Ha | left; apply Rinv_0_lt_compat; exact Hb].
Qed.

Lemma Rdiv_le_1 (a b : R) : 0 < b -> a <= b -> a / b <= 1.
Proof.
  intros Hb Hab.
  apply (Rmult_le_reg_r b); [exact Hb |].
  unfold Rdiv; rewrite Rmult_assoc, Rinv_l by lra; lra.
Qed.

Lemma term_val_nonpos (n : Z) (T : R) :
  (0 <= n)%Z -> IZR n + eps <= T -> term_val n T <= 0.
Proof.
  intros Hn HT; apply IZR_le in Hn; pose proof eps_pos as He.
  unfold term_val.
  assert (Hq : 0 <= IZR n / T) by (apply Rdiv_nonneg; lra).
  assert (Ha : 0 < (IZR n + eps) / T) by (apply Rdiv_lt_0_compat; lra).
  assert (Ha1 : (IZR n + eps) / T <= 1) by (apply Rdiv_le_1; lra).
  pose proof (ln_nonpos _ Ha Ha1) as Hl.
  pose proof ln_2_pos as H2.
  assert (Hl2 : ln ((IZR n + eps) / T) / ln 2 <= 0).
  { unfold Rdiv at 1.
    replace 0 with (0 * / ln 2) by lra.
    apply Rmult_le_compat_r; [| exact Hl].
    left; apply Rinv_0_lt_compat; exact H2. }
  nra.
Qed.





(** ** The [result] monad *)

Lemma bind_Ok_inv {A B : Type} (c : result A) (k : A -> result B) (b : B) :
  bind c k = Ok b -> exists a, c = Ok a /\ k a = Ok b.
Proof.
  destruct c as [a | e]; simpl; intros H; [exists a; auto | discriminate].
Qed.

Lemma foldM_app {A B : Type} (body : A -> B -> result A) (l1 l2 : list B) (a : A) :
  foldM body (l1 ++ l2) a = bind (foldM body l1 a) (foldM body l2).
Proof.
  revert a; induction l1 as [| x l1 IH]; intros a; simpl; [reflexivity |].
  destruct (body a x); simpl; [apply IH | reflexivity].
Qed.

(** An invariant of the loop body is an invariant of the loop. *)
Lemma foldM_invariant {A B : Type} (P : A -> Prop) (body : A -> B -> result A) :
  (forall a x a', P a -> body a x = Ok a' -> P a') ->
  forall l a a', P a -> foldM body l a = Ok a' -> P a'.
Proof.
  intros Hstep l; induction l as [| x l IH]; simpl; intros a a' Pa H.
  - injection H as <-; exact Pa.
  - apply bind_Ok_inv in H as (a1 & H1 & H2).
    eapply IH; [eapply Hstep; eassumption | exact H2].
Qed.

Ltac inv_bind H :=
  let a := fresh "a" in
  let H1 := fresh H in
  apply bind_Ok_inv in H as (a & H1 & H).

Ltac inv_Ok H := injection H as H; try subst.

(** ** The first loop: class counts and the majority class *)

Ltac string_cases s :=
  let E := fresh "E" in
  destruct (String.eqb s "red") eqn:E;
  [apply String.eqb_eq in E; subst s |
   clear E; destruct (String.eqb s "light blue") eqn:E;
   [apply String.eqb_eq in E; subst s |
    clear E; destruct (String.eqb s "medium blue") eqn:E;
    [apply String.eqb_eq in E; subst s |
     clear E; destruct (String.eqb s "wicked blue") eqn:E;
     [apply String.eqb_eq in E; subst s | clear E]]]].

Lemma counts_incr_Ok (c c' : counts) (k : value) :
  counts_incr c k = Ok c' ->
  exists s, k = VStr s /\ known_class s = true /\
    c' = counts_add c (mkCounts (if String.eqb s "red" then 1 else 0)
                                (if String.eqb s "light blue" then 1 else 0)
                                (if String.eqb s "medium blue" then 1 else 0)
                                (if String.eqb s "wicked blue" then 1 else 0)).
Proof.
  destruct k as [f | s |]; simpl; try discriminate.
  intros H; exists s; split; [reflexivity |].
  unfold known_class, counts_add.
  string_cases s; simpl in *; try discriminate;
    injection H as <-; (split; [reflexivity | f_equal; simpl; lia]).
Qed.

Lemma counts_incr_known (c : counts) (s : string) :
  known_class s = true -> exists c', counts_incr c (VStr s) = Ok c'.
Proof.
  unfold known_class; simpl.
  string_cases s; simpl; try discriminate; intros _; eexists; reflexivity.
Qed.

Lemma counts_incr_unknown (c : counts) (k : value) :
  (forall s, k = VStr s -> known_class s = false) ->
  counts_incr c k = Raise KeyError.
Proof.
  destruct k as [f | s |]; simpl; try reflexivity.
  intros H; specialize (H s eq_refl); unfold known_class in H.
  string_cases s; simpl in H; try discriminate; reflexivity.
Qed.

Lemma counts_incr_nonneg (c c' : counts) (k : value) :
  counts_incr c k = Ok c' -> counts_nonneg c -> counts_nonneg c'.
Proof.
  intros H (H1 & H2 & H3 & H4).
  apply counts_incr_Ok in H as (s & -> & _ & ->).
  unfold counts_nonneg, counts_add; simpl.
  repeat split; destruct (String.eqb s _); lia.
Qed.

Lemma counts_incr_sum (c c' : counts) (k : value) :
  counts_incr c k = Ok c' -> counts_sum c' = (counts_sum c + 1)%Z.
Proof.
  destruct k as [f | s |]; simpl; try discriminate.
  unfold counts_sum.
  string_cases s; simpl; try discriminate; intros H; injection H as <-;
    simpl; lia.
Qed.

Section FirstLoop.

Variable class_name : string.

Lemma tally_step_inv (t t' : tally) (d : example) :
  tally_inv t -> tally_step class_name t d = Ok t' -> tally_inv t'.
Proof.
  intros (Hnn & Hmax & Hmaj & Htot) H.
  unfold tally_step in H.
  inv_bind H. inv_bind H. inv_bind H. inv_Ok H.
  rename a into label, a0 into parent', a1 into n.
  pose proof (counts_incr_nonneg _ _ _ H1 Hnn) as Hnn'.
  pose proof (counts_incr_sum _ _ _ H1) as Hsum'.
  unfold tally_inv; simpl.
  split; [exact Hnn' |].
  split; [| split; [| lia]].
  - (* the running maximum *)
    destruct label as [f | s |]; simpl in H1; try discriminate.
    unfold max4 in *; simpl in H2.
    string_cases s; simpl in *; try discriminate;
      injection H1 as <-; injection H2 as <-; simpl; lia.
  - (* the majority label holds the running maximum *)
    destruct label as [f | s |]; simpl in H1; try discriminate.
    destruct (majority t) as [f | m |] eqn:Em; simpl in Hmaj; try discriminate.
    unfold max4 in Hmax.
    destruct Hnn as (N1 & N2 & N3 & N4).
    string_cases s; simpl in *; try discriminate;
      injection H1 as <-; injection H2 as <-;
      match goal with
      | |- context [Z.eqb ?x ?y] => destruct (Z.eqb_spec x y) as [Heq | Hne]
      end; simpl;
      try (f_equal; lia);
      string_cases m; simpl in *; try discriminate;
      injection Hmaj as Hmaj; f_equal; lia.
Qed.

Lemma tally0_inv : tally_inv tally0.
Proof.
  unfold tally_inv, tally0, counts_nonneg, max4, counts_sum; simpl.
  repeat split; lia.
Qed.

Lemma tally_inv_fold (examples : list example) (t : tally) :
  foldM (tally_step class_name) examples tally0 = Ok t -> tally_inv t.
Proof.
  apply (foldM_invariant tally_inv); [| exact tally0_inv].
  intros a x a' Ha Hs; eapply tally_step_inv; eassumption.
Qed.

End FirstLoop.

Section FirstLoopCounts.

Variable class_name : string.

Lemma getitem_lookup (d : example) (k : string) (v : value) :
  getitem d k = Ok v <-> lookup k d = Some v.
Proof.
  unfold getitem; destruct (lookup k d); split; intros H; congruence.
Qed.

Lemma count_class_cons (c : string) (d : example) (examples : list example) :
  count_class class_name c (d :: examples) =
  ((if has_label class_name c d then 1 else 0) +
   count_class class_name c examples)%Z.
Proof.
  unfold count_class, len; simpl.
  destruct (has_label class_name c d); simpl List.length; lia.
Qed.

Lemma count_class_nonneg (c : string) (examples : list example) :
  (0 <= count_class class_name c examples)%Z.
Proof. unfold count_class, len; lia. Qed.

Lemma tally_step_Ok (t t' : tally) (d : example) :
  tally_step class_name t d = Ok t' ->
  exists s, getitem d class_name = Ok (VStr s) /\ known_class s = true /\
    counts_incr (parent t) (VStr s) = Ok (parent t') /\
    total t' = (total t + 1)%Z.
Proof.
  intros H; unfold tally_step in H.
  inv_bind H. inv_bind H. inv_bind H. inv_Ok H; simpl.
  destruct (counts_incr_Ok _ _ _ H1) as (s & -> & Hk & _).
  exists s; auto.
Qed.

Lemma tally_fold_counts (examples : list example) (t0 t : tally) :
  foldM (tally_step class_name) examples t0 = Ok t ->
  parent t = counts_add (parent t0) (class_counts class_name examples) /\
  total t = (total t0 + len examples)%Z /\
  Forall (label_known class_name) examples.
Proof.
  revert t0; induction examples as [| d examples IH]; intros t0 H; simpl in H.
  - inv_Ok H; unfold counts_add, class_counts, count_class, len; simpl.
    repeat split; [| lia | constructor].
    destruct (parent t); simpl; f_equal; lia.
  - inv_bind H.
    destruct (tally_step_Ok _ _ _ H0) as (s & Hg & Hk & Hi & Ht).
    destruct (IH _ H) as (Hp & Htot & Hall).
    apply counts_incr_Ok in Hi as (s' & Es & _ & Hi); injection Es as <-.
    repeat split.
    + rewrite Hp, Hi; unfold counts_add, class_counts; simpl.
      rewrite !count_class_cons.
      unfold has_label; apply getitem_lookup in Hg; rewrite Hg.
      f_equal; lia.
    + rewrite Htot, Ht; unfold len; simpl List.length; lia.
    + constructor; [exists s; auto | exact Hall].
Qed.

Lemma tally_fold_spec (examples : list example) (t : tally) :
  foldM (tally_step class_name) examples tally0 = Ok t ->
  parent t = class_counts class_name examples /\
  total t = len examples /\
  Forall (label_known class_name) examples.
Proof.
  intros H; destruct (tally_fold_counts _ _ _ H) as (Hp & Ht & Hall).
  repeat split; [| simpl in Ht; lia | exact Hall].
  rewrite Hp; unfold counts_add, class_counts; simpl; f_equal; lia.
Qed.

(** The first loop succeeds exactly when every label is known. *)
Lemma tally_fold_total (examples : list example) (t0 : tally) :
  Forall (label_known class_name) examples ->
  exists t, foldM (tally_step class_name) examples t0 = Ok t.
Proof.
  intros Hall; revert t0; induction Hall as [| d examples (s & Hg & Hk) _ IH];
    intros t0; simpl; [eexists; reflexivity |].
  destruct (counts_incr_known (parent t0) s Hk) as (c' & Hc).
  assert (Hget : exists n, counts_get c' (VStr s) = Ok n).
  { unfold known_class in Hk; simpl.
    string_cases s; simpl in Hk; try discriminate; eexists; reflexivity. }
  destruct Hget as (n & Hn).
  cbn [foldM]; unfold tally_step at 1.
  rewrite Hg; cbn [bind]; rewrite Hc; cbn [bind]; rewrite Hn; cbn [bind].
  apply IH.
Qed.

Lemma tally_fold_raises (examples : list example) (t0 : tally) (d : example) :
  In d examples ->
  (forall s, getitem d class_name = Ok (VStr s) -> known_class s = false) ->
  foldM (tally_step class_name) examples t0 = Raise KeyError.
Proof.
  intros Hin Hbad; revert t0.
  induction examples as [| d' examples IH]; intros t0; [destruct Hin |].
  simpl.
  destruct (tally_step class_name t0 d') as [t1 | e] eqn:Hs; simpl.
  - destruct Hin as [-> | Hin]; [| apply IH, Hin].
    apply tally_step_Ok in Hs as (s & Hg & Hk & _).
    rewrite (Hbad s Hg) in Hk; discriminate.
  - (* the body raises nothing but [KeyError] *)
    unfold tally_step in Hs.
    unfold getitem in Hs; destruct (lookup class_name d') as [v |]; simpl in Hs;
      [| congruence].
    destruct (counts_incr (parent t0) v) as [c' | e'] eqn:Hc; simpl in Hs.
    + destruct (counts_get c' v) as [n | e'] eqn:Hn; simpl in Hs;
        [discriminate |].
      destruct v as [f | s |]; simpl in Hn; try congruence.
      string_cases s; simpl in Hn; congruence.
    + destruct v as [f | s |]; simpl in Hc; try congruence.
      string_cases s; simpl in Hc; congruence.
Qed.

End FirstLoopCounts.

(** ** Counting the two sides of a threshold, and splitting on it *)

Lemma goes_left_right_excl (attr : string) (thres : R) (d : example) :
  goes_left attr thres d && goes_right attr thres d = false.
Proof.
  unfold goes_left, goes_right.
  destruct (lookup attr d) as [[f | s |] |]; try reflexivity.
  rewrite Rgeb_negb_Rltb; destruct (Rltb f thres); reflexivity.
Qed.

Lemma filter_left_right_length (attr : string) (thres : R) (examples : list example) :
  (List.length (filter (goes_left attr thres) examples) +
   List.length (filter (goes_right attr thres) examples) <=
   List.length examples)%nat.
Proof.
  induction examples as [| d examples IH]; simpl; [lia |].
  pose proof (goes_left_right_excl attr thres d) as Hx.
  destruct (goes_left attr thres d), (goes_right attr thres d);
    simpl in *; try discriminate; lia.
Qed.

Lemma split_fold_filter (attr : string) (thres : R) (examples : list example)
  (lr0 lr : list example * list example) :
  foldM (split_step attr thres) examples lr0 = Ok lr ->
  fst lr = (fst lr0 ++ filter (goes_left attr thres) examples)%list /\
  snd lr = (snd lr0 ++ filter (goes_right attr thres) examples)%list.
Proof.
  revert lr0; induction examples as [| d examples IH]; intros lr0 H; simpl in H.
  - inv_Ok H; simpl; rewrite !app_nil_r; auto.
  - inv_bind H. unfold split_step in H0. inv_bind H0.
    apply getitem_lookup in H1.
    apply IH in H as (Hl & Hr).
    simpl; unfold goes_left at 1, goes_right at 1; rewrite H1.
    destruct a0 as [f | s |].
    + rewrite Rgeb_negb_Rltb in *.
      destruct (Rltb f thres); simpl in H0; inv_Ok H0; simpl in *;
        rewrite Hl, Hr, <- ?app_assoc; auto.
    + inv_Ok H0; auto.
    + inv_Ok H0; auto.
Qed.

Lemma split_filter (attr : string) (thres : R) (examples l r : list example) :
  split examples attr thres = Ok (l, r) ->
  l = filter (goes_left attr thres) examples /\
  r = filter (goes_right attr thres) examples.
Proof.
  intros H; apply split_fold_filter in H; simpl in H; exact H.
Qed.

Lemma sides_fold_filter (class_name key : string) (thres : R)
  (examples : list example) (s0 s : sides) :
  foldM (sides_step class_name key thres) examples s0 = Ok s ->
  p_l s = (p_l s0 + len (filter (goes_left key thres) examples))%Z /\
  p_r s = (p_r s0 + len (filter (goes_right key thres) examples))%Z.
Proof.
  revert s0; induction examples as [| d examples IH]; intros s0 H; simpl in H.
  - inv_Ok H; unfold len; simpl; lia.
  - inv_bind H. unfold sides_step in H0. inv_bind H0.
    apply getitem_lookup in H1.
    apply IH in H as (Hl & Hr).
    simpl; unfold goes_left at 1, goes_right at 1; rewrite H1.
    destruct a0 as [f | s' |].
    + rewrite Rgeb_negb_Rltb in *.
      destruct (Rltb f thres); simpl in H0;
        inv_bind H0; inv_bind H0; inv_Ok H0; simpl in *;
        unfold len in *; simpl List.length; lia.
    + inv_Ok H0; auto.
    + inv_Ok H0; auto.
Qed.

(** ** The search for a split *)

Section Search.

Variables (id_name class_name : string) (min_leaf_count : Z).
Variable examples : list example.

Local Abbreviation recorded := (recorded class_name min_leaf_count examples).
Local Abbreviation best_inv := (best_inv class_name min_leaf_count examples).

Lemma consider_inv (entropy_parent : R) (key : string) (thres : R)
  (s : sides) (b b' : best) :
  foldM (sides_step class_name key thres) examples sides0 = Ok s ->
  consider min_leaf_count entropy_parent key thres s b = Ok b' ->
  best_inv b -> best_inv b'.
Proof.
  intros Hs H Hb; unfold consider in H.
  destruct (negb (p_r s =? 0)%Z && negb (p_l s =? 0)%Z) eqn:Hne;
    [| inv_Ok H; exact Hb].
  inv_bind H.
  destruct (Rneqb _ _ && _) eqn:Hc; inv_Ok H.
  - right; exists s; simpl.
    apply andb_prop in Hne as (Hr & Hl), Hc as (_ & Hc).
    apply andb_prop in Hc as (Hgl & Hgr).
    apply negb_true_iff in Hr, Hl.
    apply Z.eqb_neq in Hr, Hl.
    apply Z.gtb_lt in Hgl, Hgr.
    repeat split; auto; lia.
  - destruct Hb as [Hb | (s' & Hb)]; [left | right; exists s']; exact Hb.
Qed.

Lemma thres_loop_inv (entropy_parent : R) (key : string) (seg : R) (n : nat) :
  forall (thres : R) (b b' : best),
    thres_loop class_name min_leaf_count examples entropy_parent key seg n thres b
      = Ok b' ->
    best_inv b -> best_inv b'.
Proof.
  induction n as [| n IH]; intros thres b b' H Hb; simpl in H.
  - inv_Ok H; exact Hb.
  - inv_bind H. inv_bind H.
    eapply IH; [exact H |].
    eapply consider_inv; eassumption.
Qed.

Lemma attr_step_inv (entropy_parent : R) (key : string) (b b' : best) :
  attr_step id_name class_name min_leaf_count examples entropy_parent b key = Ok b' ->
  best_inv b -> best_inv b'.
Proof.
  intros H Hb; unfold attr_step in H.
  inv_bind H. inv_bind H.
  destruct (eligible id_name a0 key); [| inv_Ok H; exact Hb].
  inv_bind H.
  eapply thres_loop_inv; eassumption.
Qed.

Lemma find_split_inv (t : tally) (b : best) :
  find_split id_name class_name min_leaf_count examples = Ok (t, b) ->
  foldM (tally_step class_name) examples tally0 = Ok t /\
  examples <> [] /\ best_inv b.
Proof.
  intros H; unfold find_split in H.
  inv_bind H. inv_bind H. inv_bind H. inv_bind H. inv_Ok H.
  split; [exact H0 |].
  split; [destruct examples; [discriminate | congruence] |].
  eapply (foldM_invariant best_inv); [| | exact H3].
  - intros b0 key b1 Hb0 Hs; eapply attr_step_inv; eassumption.
  - left; reflexivity.
Qed.

(** When the search ends on a split, both sides of the split are shorter than
    the list that was searched. *)
Lemma split_shrinks (t : tally) (b : best) (examples_l examples_r : list example) :
  find_split id_name class_name min_leaf_count examples = Ok (t, b) ->
  stop min_leaf_count t b = false ->
  split examples (IG_attr b) (IG_thres b) = Ok (examples_l, examples_r) ->
  (0 < List.length examples_l < List.length examples)%nat /\
  (0 < List.length examples_r < List.length examples)%nat.
Proof.
  intros Hf Hstop Hsplit.
  apply find_split_inv in Hf as (_ & _ & Hb).
  unfold stop in Hstop; apply orb_false_iff in Hstop as (Htown & _).
  apply String.eqb_neq in Htown.
  destruct Hb as [Hb | (s & Hs & Hl & Hr & _)]; [contradiction |].
  apply sides_fold_filter in Hs as (Hpl & Hpr); simpl in Hpl, Hpr.
  apply split_filter in Hsplit as (-> & ->).
  pose proof (filter_left_right_length (IG_attr b) (IG_thres b) examples).
  unfold len in *; lia.
Qed.

End Search.

(** ** The recursion *)

Section Recursion.

Variables (id_name class_name : string) (min_leaf_count : Z).

Local Abbreviation learn := (learn_tree id_name class_name min_leaf_count).
Local Abbreviation search := (find_split id_name class_name min_leaf_count).

(** What a successful call has done. *)
Lemma learn_tree_Ok_inv (fuel : nat) (examples : list example) (node : TreeNode) :
  learn fuel examples = Some (Ok node) ->
  exists fuel' t b,
    fuel = S fuel' /\
    search examples = Ok (t, b) /\
    ((stop min_leaf_count t b = true /\
      LeafNode_init (majority t) (pred_class_count t) (total t) = Ok node)
     \/
     (stop min_leaf_count t b = false /\
      exists examples_l examples_r child_lt child_ge child_miss,
        split examples (IG_attr b) (IG_thres b) = Ok (examples_l, examples_r) /\
        learn fuel' examples_l = Some (Ok child_lt) /\
        learn fuel' examples_r = Some (Ok child_ge) /\
        LeafNode_init (majority t) (pred_class_count t) (total t) = Ok child_miss /\
        node = DecisionNode (IG_attr b) (IG_thres b) child_lt child_ge child_miss)).
Proof.
  destruct fuel as [| fuel']; simpl; [discriminate |].
  intros H; exists fuel'.
  destruct (search examples) as [[t b] | e]; [| discriminate].
  exists t, b; split; [reflexivity |]; split; [reflexivity |].
  destruct (stop min_leaf_count t b).
  - left; split; [reflexivity | congruence].
  - right; split; [reflexivity |].
    destruct (split examples (IG_attr b) (IG_thres b)) as [[el er] | e] eqn:Hs;
      [| discriminate].
    destruct (learn fuel' el) as [[clt | e] |] eqn:Hl; try discriminate.
    destruct (learn fuel' er) as [[cge | e] |] eqn:Hr; try discriminate.
    assert (Hn : (child_miss <- LeafNode_init (majority t) (pred_class_count t)
                                  (total t) ;;
                  Ok (DecisionNode (IG_attr b) (IG_thres b) clt cge child_miss))
                 = Ok node)
      by (destruct (Z.gtb (len er) (len el)); congruence).
    inv_bind Hn. inv_Ok Hn.
    exists el, er, clt, cge, a; repeat split; auto.
Qed.

(** The fuel is enough as soon as it exceeds the number of examples. *)
Lemma learn_tree_fuel_enough (fuel : nat) :
  forall examples : list example,
    (List.length examples < fuel)%nat ->
    exists res, learn fuel examples = Some res.
Proof.
  induction fuel as [| fuel IH]; intros examples Hlen; [lia |].
  simpl.
  destruct (search examples) as [[t b] | e] eqn:Hf; [| eexists; reflexivity].
  destruct (stop min_leaf_count t b) eqn:Hstop; [eexists; reflexivity |].
  destruct (split examples (IG_attr b) (IG_thres b)) as [[el er] | e] eqn:Hs;
    [| eexists; reflexivity].
  destruct (split_shrinks _ _ _ _ _ _ _ _ Hf Hstop Hs) as (Hl & Hr).
  destruct (IH el ltac:(lia)) as (rl & ->).
  destruct (IH er ltac:(lia)) as (rr & ->).
  destruct rl as [clt | e]; [| eexists; reflexivity].
  destruct rr as [cge | e]; [| eexists; reflexivity].
  destruct (Z.gtb (len er) (len el)); eexists; reflexivity.
Qed.

(** More fuel does not change a result. *)
Lemma learn_tree_fuel_mono (fuel : nat) :
  forall (examples : list example) (res : result TreeNode),
    learn fuel examples = Some res ->
    learn (S fuel) examples = Some res.
Proof.
  induction fuel as [| fuel IH]; intros examples res H; [discriminate |].
  remember (S fuel) as n eqn:En.
  rewrite En in H at 1.
  simpl in H |- *.
  destruct (search examples) as [[t b] | e]; [| exact H].
  destruct (stop min_leaf_count t b); [exact H |].
  destruct (split examples (IG_attr b) (IG_thres b)) as [[el er] | e];
    [| exact H].
  destruct (learn fuel el) as [rl |] eqn:Hl; [| discriminate].
  rewrite (IH _ _ Hl).
  destruct rl as [clt | e]; [| exact H].
  destruct (learn fuel er) as [rr |] eqn:Hr; [| discriminate].
  rewrite (IH _ _ Hr).
  exact H.
Qed.

End Recursion.

(** ** Evaluation rules *)

(** The counting loop of a threshold, on a list whose examples all have the
    key and a known label. *)
Lemma sides_fold_eval (class_name key : string) (thres : R)
  (examples : list example) (s0 : sides) :
  Forall (has_key key) examples ->
  Forall (label_known class_name) examples ->
  foldM (sides_step class_name key thres) examples s0 =
  Ok (mkSides (p_l s0 + len (filter (goes_left key thres) examples))
              (p_r s0 + len (filter (goes_right key thres) examples))
        (counts_add (l s0)
           (class_counts class_name (filter (goes_left key thres) examples)))
        (counts_add (r s0)
           (class_counts class_name (filter (goes_right key thres) examples)))).
Proof.
  intros Hk Hl; revert s0.
  induction examples as [| d examples IH]; intros s0.
  - simpl. unfold len, class_counts, count_class, counts_add, len; simpl.
    destruct s0 as [pl pr [] []]; simpl. repeat f_equal; lia.
  - inversion Hk as [| ? ? Hkd Hk']; subst. inversion Hl as [| ? ? Hld Hl']; subst.
    specialize (IH Hk' Hl').
    unfold has_key in Hkd.
    destruct (lookup key d) as [v |] eqn:Ev; [| congruence].
    assert (Hgl : goes_left key thres d =
                  match v with VFloat f => Rltb f thres | _ => false end)
      by (unfold goes_left; rewrite Ev; reflexivity).
    assert (Hgr : goes_right key thres d =
                  match v with VFloat f => Rgeb f thres | _ => false end)
      by (unfold goes_right; rewrite Ev; reflexivity).
    apply getitem_lookup in Ev.
    destruct Hld as (s & Hg & Hkn).
    cbn [foldM filter]; rewrite Hgl, Hgr; clear Hgl Hgr.
    unfold sides_step at 1; rewrite Ev; cbn [bind].
    destruct v as [f | s' |]; cbn [bind];
      [| rewrite IH; reflexivity | rewrite IH; reflexivity].
    rewrite Rgeb_negb_Rltb.
    assert (Hhl : forall c, has_label class_name c d = String.eqb s c)
      by (intros c; unfold has_label; apply getitem_lookup in Hg; rewrite Hg;
          reflexivity).
    destruct (Rltb f thres); cbn [negb]; rewrite Hg; cbn [bind].
    + destruct (counts_incr_known (l s0) s Hkn) as (c' & Hc); rewrite Hc; cbn [bind].
      rewrite IH; cbn [p_l p_r l r].
      apply counts_incr_Ok in Hc as (s2 & E & _ & ->); injection E as <-.
      unfold class_counts; rewrite !count_class_cons, !Hhl.
      unfold len, counts_add; cbn [List.length red light_blue medium_blue wicked_blue].
      f_equal; f_equal; try lia; f_equal; lia.
    + destruct (counts_incr_known (r s0) s Hkn) as (c' & Hc); rewrite Hc; cbn [bind].
      rewrite IH; cbn [p_l p_r l r].
      apply counts_incr_Ok in Hc as (s2 & E & _ & ->); injection E as <-.
      unfold class_counts; rewrite !count_class_cons, !Hhl.
      unfold len, counts_add; cbn [List.length red light_blue medium_blue wicked_blue].
      f_equal; f_equal; try lia; f_equal; lia.
Qed.

Lemma counts_add_zero_l (c : counts) : counts_add zero_counts c = c.
Proof. destruct c; unfold counts_add; simpl; f_equal; lia. Qed.

Lemma sides_eval (class_name key : string) (thres : R) (examples : list example) :
  Forall (has_key key) examples ->
  Forall (label_known class_name) examples ->
  foldM (sides_step class_name key thres) examples sides0 =
  Ok (sides_of class_name key thres examples).
Proof.
  intros Hk Hl; rewrite sides_fold_eval by assumption.
  unfold sides_of; cbn [sides0 p_l p_r l r]; rewrite !counts_add_zero_l.
  reflexivity.
Qed.

Lemma split_fold_eval (attr : string) (thres : R) (examples : list example)
  (lr0 : list example * list example) :
  Forall (has_key attr) examples ->
  foldM (split_step attr thres) examples lr0 =
  Ok ((fst lr0 ++ filter (goes_left attr thres) examples)%list,
      (snd lr0 ++ filter (goes_right attr thres) examples)%list).
Proof.
  intros Hk; revert lr0; induction Hk as [| d examples Hd _ IH]; intros lr0.
  - simpl; rewrite !app_nil_r; destruct lr0; reflexivity.
  - unfold has_key in Hd.
    destruct (lookup attr d) as [v |] eqn:Ev; [| congruence].
    cbn [foldM filter]; unfold goes_left at 1, goes_right at 1; rewrite Ev.
    unfold split_step at 1.
    apply getitem_lookup in Ev; rewrite Ev; cbn [bind].
    destruct v as [f | s |]; cbn [bind]; try (rewrite IH; reflexivity).
    rewrite Rgeb_negb_Rltb.
    destruct (Rltb f thres); cbn [negb bind]; rewrite IH; cbn [fst snd];
      rewrite <- ?app_assoc; reflexivity.
Qed.

Lemma split_eval (attr : string) (thres : R) (examples : list example) :
  Forall (has_key attr) examples ->
  split examples attr thres =
  Ok (filter (goes_left attr thres) examples,
      filter (goes_right attr thres) examples).
Proof. intros Hk; unfold split; rewrite split_fold_eval by assumption; reflexivity. Qed.

Lemma gain_ok (entropy_parent : R) (s : sides) :
  sides_ok s -> gain entropy_parent s = Ok (gain_val entropy_parent s).
Proof.
  intros (Hl & Hr & Hpl & Hpr); unfold gain, gain_val.
  rewrite !entropy_ok by (assumption || lia); cbn [bind].
  assert (IZR (p_l s + p_r s) <> 0)
    by (apply not_0_IZR; lia).
  rewrite !py_div_ok by assumption; reflexivity.
Qed.

Section ConsiderRules.

Variables (min_leaf_count : Z) (entropy_parent : R) (key : string) (thres : R).

Lemma consider_skip (s : sides) (b : best) :
  p_l s = 0%Z \/ p_r s = 0%Z ->
  consider min_leaf_count entropy_parent key thres s b = Ok b.
Proof.
  intros H; unfold consider.
  destruct H as [-> | ->]; rewrite ?andb_false_r; reflexivity.
Qed.

(** A gain that does not exceed [IG] changes nothing. *)
Lemma consider_keep (s : sides) (ig th : R) (a : string) (ml mr : Z) :
  sides_ok s -> gain_val entropy_parent s <= ig ->
  consider min_leaf_count entropy_parent key thres s (mkBest ig th a ml mr)
  = Ok (mkBest ig th a ml mr).
Proof.
  intros Hs Hg; pose proof Hs as (_ & _ & Hpl & Hpr); unfold consider.
  replace (negb (p_r s =? 0)%Z && negb (p_l s =? 0)%Z) with true
    by (symmetry; apply andb_true_intro; split; apply negb_true_iff, Z.eqb_neq; lia).
  rewrite gain_ok by assumption; cbn [bind IG IG_thres IG_attr minimum_l minimum_r].
  destruct (py_max_cases ig (gain_val entropy_parent s)) as [(Hlt & _) | (_ & ->)];
    [lra |].
  rewrite (proj2 (Rneqb_false ig ig) eq_refl); reflexivity.
Qed.

(** A larger gain between sides that are both above [min_leaf_count] is
    recorded with its split. *)
Lemma consider_record (s : sides) (ig th : R) (a : string) (ml mr : Z) :
  sides_ok s -> ig < gain_val entropy_parent s ->
  (p_l s > min_leaf_count)%Z -> (p_r s > min_leaf_count)%Z ->
  consider min_leaf_count entropy_parent key thres s (mkBest ig th a ml mr)
  = Ok (mkBest (gain_val entropy_parent s) thres key (p_l s) (p_r s)).
Proof.
  intros Hs Hg Hl Hr; pose proof Hs as (_ & _ & Hpl & Hpr); unfold consider.
  replace (negb (p_r s =? 0)%Z && negb (p_l s =? 0)%Z) with true
    by (symmetry; apply andb_true_intro; split; apply negb_true_iff, Z.eqb_neq; lia).
  rewrite gain_ok by assumption; cbn [bind IG IG_thres IG_attr minimum_l minimum_r].
  destruct (py_max_cases ig (gain_val entropy_parent s)) as [(_ & ->) | (Hle & _)];
    [| lra].
  rewrite (proj2 (Rneqb_true (gain_val entropy_parent s) ig)) by lra.
  rewrite (proj2 (Z.gtb_lt _ _)) by lia.
  rewrite (proj2 (Z.gtb_lt _ _)) by lia.
  reflexivity.
Qed.

(** A larger gain with a side that is not above [min_leaf_count] raises [IG]
    and leaves the recorded split as it was. *)
Lemma consider_raise_IG (s : sides) (ig th : R) (a : string) (ml mr : Z) :
  sides_ok s -> ig < gain_val entropy_parent s ->
  (p_l s <= min_leaf_count)%Z \/ (p_r s <= min_leaf_count)%Z ->
  consider min_leaf_count entropy_parent key thres s (mkBest ig th a ml mr)
  = Ok (mkBest (gain_val entropy_parent s) th a ml mr).
Proof.
  intros Hs Hg Hsz; pose proof Hs as (_ & _ & Hpl & Hpr); unfold consider.
  replace (negb (p_r s =? 0)%Z && negb (p_l s =? 0)%Z) with true
    by (symmetry; apply andb_true_intro; split; apply negb_true_iff, Z.eqb_neq; lia).
  rewrite gain_ok by assumption; cbn [bind IG IG_thres IG_attr minimum_l minimum_r].
  destruct (py_max_cases ig (gain_val entropy_parent s)) as [(_ & ->) | (Hle & _)];
    [| lra].
  replace ((p_l s >? min_leaf_count)%Z && (p_r s >? min_leaf_count)%Z) with false;
    [rewrite andb_false_r; reflexivity |].
  symmetry; apply andb_false_iff.
  destruct Hsz as [Hsz | Hsz]; [left | right];
    rewrite Z.gtb_ltb; apply Z.ltb_ge; lia.
Qed.

End ConsiderRules.

Arguments Rltb : simpl never.
Arguments Rgeb : simpl never.
Arguments Rneqb : simpl never.
Arguments py_max : simpl never.
Arguments py_min : simpl never.

Ltac decide_cmp b :=
  lazymatch b with
  | Rltb ?a ?c =>
      first [ rewrite (proj2 (Rltb_true a c)) by lra
            | rewrite (proj2 (Rltb_false a c)) by lra ]
  | Rgeb ?a ?c =>
      first [ rewrite (proj2 (Rgeb_true a c)) by lra
            | rewrite (proj2 (Rgeb_false a c)) by lra ]
  | true => idtac
  | false => idtac
  end.

Ltac eval_filter :=
  repeat match goal with
  | |- context [filter ?f (?x :: ?l)] =>
      let b := eval cbn in (f x) in
      change (filter f (x :: l)) with (if b then x :: filter f l else filter f l);
      decide_cmp b; cbv iota
  | |- context [filter ?f []] =>
      change (filter f []) with (@nil example)
  end.

Lemma term_val_0 (T : R) : term_val 0 T = 0.
Proof. unfold term_val, Rdiv; lra. Qed.

Lemma term_val_all (n : Z) : (0 <= n)%Z -> term_val n (IZR n + eps) = 0.
Proof.
  intros Hn; apply IZR_le in Hn; pose proof eps_pos.
  unfold term_val.
  replace ((IZR n + eps) / (IZR n + eps)) with 1 by (field; lra).
  rewrite ln_1; unfold Rdiv; lra.
Qed.

Lemma term_val_neg (n total : Z) :
  (0 < n < total)%Z -> term_val n (IZR total + eps) < 0.
Proof.
  intros (H0 & H1); apply IZR_lt in H0, H1; pose proof eps_pos as He.
  pose proof ln_2_pos as H2.
  unfold term_val.
  assert (Hq : 0 < IZR n / (IZR total + eps)) by (apply Rdiv_lt_0_compat; lra).
  assert (Ha : 0 < (IZR n + eps) / (IZR total + eps))
    by (apply Rdiv_lt_0_compat; lra).
  assert (Ha1 : (IZR n + eps) / (IZR total + eps) < 1).
  { apply (Rmult_lt_reg_r (IZR total + eps)); [lra |].
    unfold Rdiv; rewrite Rmult_assoc, Rinv_l by lra; lra. }
  pose proof (ln_neg _ Ha Ha1) as Hl.
  assert (Hl2 : ln ((IZR n + eps) / (IZR total + eps)) / ln 2 < 0).
  { unfold Rdiv at 1.
    replace 0 with (0 * / ln 2) by lra.
    apply Rmult_lt_compat_r; [apply Rinv_0_lt_compat; exact H2 | exact Hl]. }
  nra.
Qed.

(** A set of one class has entropy zero. *)
Lemma entropy_val_pure (c : counts) (t : Z) :
  (0 <= t)%Z ->
  (red c = 0 \/ red c = t)%Z -> (light_blue c = 0 \/ light_blue c = t)%Z ->
  (medium_blue c = 0 \/ medium_blue c = t)%Z ->
  (wicked_blue c = 0 \/ wicked_blue c = t)%Z ->
  entropy_val c t = 0.
Proof.
  intros Ht H1 H2 H3 H4; unfold entropy_val; cbv zeta.
  assert (Hz : forall n, (n = 0 \/ n = t)%Z -> term_val n (IZR t + eps) = 0).
  { intros n [-> | ->]; [apply term_val_0 | apply term_val_all, Ht]. }
  rewrite (Hz _ H1), (Hz _ H2), (Hz _ H3), (Hz _ H4); lra.
Qed.

(** A set with a class that holds some but not all examples has positive
    entropy. *)
Lemma entropy_val_pos (c : counts) :
  counts_nonneg c ->
  (0 < red c < counts_sum c \/ 0 < light_blue c < counts_sum c \/
   0 < medium_blue c < counts_sum c \/ 0 < wicked_blue c < counts_sum c)%Z ->
  0 < entropy_val c (counts_sum c).
Proof.
  intros (H1 & H2 & H3 & H4) Hmix; unfold entropy_val; cbv zeta.
  assert (Hs : forall n, (n <= counts_sum c)%Z ->
                 IZR n + eps <= IZR (counts_sum c) + eps).
  { intros n Hn; apply IZR_le in Hn; lra. }
  assert (Hle : (red c <= counts_sum c /\ light_blue c <= counts_sum c /\
                 medium_blue c <= counts_sum c /\
                 wicked_blue c <= counts_sum c)%Z)
    by (unfold counts_sum; lia).
  destruct Hle as (L1 & L2 & L3 & L4).
  pose proof (term_val_nonpos _ _ H1 (Hs _ L1)).
  pose proof (term_val_nonpos _ _ H2 (Hs _ L2)).
  pose proof (term_val_nonpos _ _ H3 (Hs _ L3)).
  pose proof (term_val_nonpos _ _ H4 (Hs _ L4)).
  destruct Hmix as [Hm | [Hm | [Hm | Hm]]];
    pose proof (term_val_neg _ _ Hm); lra.
Qed.

Section Rules.
Variables (id_name class_name : string) (min_leaf_count : Z).

Lemma thres_loop_S (examples : list example) (entropy_parent : R) (key : string)
  (seg : R) (n : nat) (thres : R) (b : best) :
  thres_loop class_name min_leaf_count examples entropy_parent key seg (S n) thres b =
  (s <- foldM (sides_step class_name key (thres + seg)) examples sides0 ;;
   b' <- consider min_leaf_count entropy_parent key (thres + seg) s b ;;
   thres_loop class_name min_leaf_count examples entropy_parent key seg n
     (thres + seg) b').
Proof. reflexivity. Qed.

Lemma attr_step_skip (d0 : example) (examples : list example) (entropy_parent : R)
  (b : best) (key : string) (v0 : value) :
  first examples = Ok d0 ->
  getitem d0 key = Ok v0 -> eligible id_name v0 key = false ->
  attr_step id_name class_name min_leaf_count examples entropy_parent b key
  = Ok b.
Proof.
  intros Hf Hg He; unfold attr_step; rewrite Hf; cbn [bind]; rewrite Hg; cbn [bind].
  rewrite He; reflexivity.
Qed.

Lemma attr_step_scan (d0 : example) (examples : list example) (entropy_parent : R)
  (b : best) (key : string) (v0 : value) (bottom top : R) :
  first examples = Ok d0 ->
  getitem d0 key = Ok v0 -> eligible id_name v0 key = true ->
  foldM (range_step key) examples (9999, -9999) = Ok (bottom, top) ->
  attr_step id_name class_name min_leaf_count examples entropy_parent b key
  = thres_loop class_name min_leaf_count examples entropy_parent key
      ((top - bottom) / 25) 25 (bottom - (top - bottom) / 25) b.
Proof.
  intros Hf Hg He Hr; unfold attr_step; rewrite Hf; cbn [bind]; rewrite Hg; cbn [bind].
  rewrite He, Hr; reflexivity.
Qed.

Lemma find_split_eval (d0 : example) (examples : list example) (t : tally) :
  first examples = Ok d0 ->
  foldM (tally_step class_name) examples tally0 = Ok t ->
  find_split id_name class_name min_leaf_count examples =
  (b <- foldM (attr_step id_name class_name min_leaf_count examples
                 (entropy_val (parent t) (total t)))
          (map fst d0) best0 ;;
   Ok (t, b)).
Proof.
  intros Hf Ht; unfold find_split; rewrite Ht; cbn [bind].
  pose proof (tally_inv_fold _ _ _ Ht) as (Hnn & _ & _ & Htot).
  rewrite entropy_ok, Hf; [reflexivity | exact Hnn |].
  destruct Hnn as (? & ? & ? & ?); rewrite Htot; unfold counts_sum; lia.
Qed.

End Rules.

Lemma foldM_cons {A B : Type} (body : A -> B -> result A) (x : B) (l : list B) (a : A) :
  foldM body (x :: l) a = bind (body a x) (foldM body l).
Proof. reflexivity. Qed.

Lemma foldM_nil {A B : Type} (body : A -> B -> result A) (a : A) :
  foldM body [] a = Ok a.
Proof. reflexivity. Qed.

Lemma py_min_l (a b : R) : a <= b -> py_min a b = a.
Proof.
  intros H; destruct (py_min_cases a b) as [(? & ?) | (? & ?)];
    [lra | assumption].
Qed.

Lemma py_min_r (a b : R) : b < a -> py_min a b = b.
Proof.
  intros H; destruct (py_min_cases a b) as [(? & ?) | (? & ?)];
    [assumption | lra].
Qed.

Lemma py_max_l (a b : R) : b <= a -> py_max a b = a.
Proof.
  intros H; destruct (py_max_cases a b) as [(? & ?) | (? & ?)];
    [lra | assumption].
Qed.

Lemma py_max_r (a b : R) : a < b -> py_max a b = b.
Proof.
  intros H; destruct (py_max_cases a b) as [(? & ?) | (? & ?)];
    [assumption | lra].
Qed.


Ltac eval_minmax :=
  repeat match goal with
  | |- context [py_min ?a ?b] =>
      first [ rewrite (py_min_l a b) by lra | rewrite (py_min_r a b) by lra ]
  | |- context [py_max ?a ?b] =>
      first [ rewrite (py_max_l a b) by lra | rewrite (py_max_r a b) by lra ]
  end.

Section RecursionRules.

Variables (id_name class_name : string) (min_leaf_count : Z).

Lemma LeafNode_init_ok (c : value) (n tot : Z) :
  tot <> 0%Z ->
  LeafNode_init c n tot = Ok (LeafNode c n tot (IZR n / IZR tot)).
Proof.
  intros H; unfold LeafNode_init.
  rewrite py_div_ok by (apply not_0_IZR; exact H); reflexivity.
Qed.

Lemma learn_tree_leaf (fuel : nat) (examples : list example) (t : tally) (b : best) :
  find_split id_name class_name min_leaf_count examples = Ok (t, b) ->
  stop min_leaf_count t b = true ->
  learn_tree id_name class_name min_leaf_count (S fuel) examples =
  Some (LeafNode_init (majority t) (pred_class_count t) (total t)).
Proof. intros Hf Hs; simpl; rewrite Hf, Hs; reflexivity. Qed.

Lemma learn_tree_node (fuel : nat) (examples : list example) (t : tally) (b : best)
  (examples_l examples_r : list example) (child_lt child_ge child_miss : TreeNode) :
  find_split id_name class_name min_leaf_count examples = Ok (t, b) ->
  stop min_leaf_count t b = false ->
  split examples (IG_attr b) (IG_thres b) = Ok (examples_l, examples_r) ->
  learn_tree id_name class_name min_leaf_count fuel examples_l = Some (Ok child_lt) ->
  learn_tree id_name class_name min_leaf_count fuel examples_r = Some (Ok child_ge) ->
  LeafNode_init (majority t) (pred_class_count t) (total t) = Ok child_miss ->
  learn_tree id_name class_name min_leaf_count (S fuel) examples =
  Some (Ok (DecisionNode (IG_attr b) (IG_thres b) child_lt child_ge child_miss)).
Proof.
  intros Hf Hs Hsp Hl Hr Hm; simpl; rewrite Hf, Hs, Hsp, Hl, Hr, Hm.
  destruct (Z.gtb (len examples_r) (len examples_l)); reflexivity.
Qed.

End RecursionRules.

(** Tactics that run the search on a given list of examples. *)

Ltac solve_keys :=
  repeat constructor; unfold has_key; simpl; discriminate.

Ltac solve_labels :=
  repeat constructor; eexists; split; reflexivity.

Ltac eval_range :=
  cbn; eval_minmax; reflexivity.

(** The two sides of a threshold, from facts on the threshold that are in the
    context. *)
Ltac eval_sides unfold_tac :=
  rewrite sides_eval by (solve_keys || solve_labels);
  unfold sides_of; unfold_tac;
  eval_filter; reflexivity.

Ltac solve_sides_ok :=
  unfold sides_ok, counts_nonneg; simpl; lia.

(** One round of [for i in range(25)]; [sides_tac] rewrites the counting
    loop with what is known of the list at hand. *)
Ltac loop_round sides_tac :=
  rewrite thres_loop_S;
  sides_tac;
  cbn [bind];
  first [ rewrite consider_skip by (simpl; auto)
        | rewrite consider_record by (solve_sides_ok || lra || reflexivity)
        | rewrite consider_raise_IG by (solve_sides_ok || lra || (simpl; lia))
        | rewrite consider_keep by (solve_sides_ok || lra) ];
  cbn [bind].

Ltac skip_attr :=
  rewrite foldM_cons;
  erewrite attr_step_skip by reflexivity;
  cbn [bind].

Ltac scan_attr range_lemma sides_tac :=
  rewrite foldM_cons;
  erewrite attr_step_scan;
    [| reflexivity | reflexivity | reflexivity | exact range_lemma];
  do 25 (loop_round sides_tac);
  cbn [thres_loop bind].

(** ** A training set that is split once *)

Ltac unfold_x := unfold ex_x, ex_x_lt, ex_x_ge; cbn [app].

Lemma range_ex_x : foldM (range_step "x") ex_x (9999, -9999) = Ok (0, 1).
Proof. eval_range. Qed.

Lemma sides_x_low (th : R) : th <= 0 ->
  foldM (sides_step "label" "x" th) ex_x sides0 =
  Ok (mkSides 0 4 zero_counts P_x).
Proof. intros H; eval_sides unfold_x. Qed.

Lemma sides_x_mid (th : R) : 0 < th -> th <= 1 ->
  foldM (sides_step "label" "x" th) ex_x sides0 = Ok s_x.
Proof. intros H0 H1; eval_sides unfold_x. Qed.

Lemma entropy_P_x_pos : 0 < entropy_val P_x 4.
Proof.
  apply (entropy_val_pos P_x); unfold counts_nonneg, counts_sum; simpl; lia.
Qed.

Lemma gain_s_x (ep : R) : gain_val ep s_x = ep.
Proof.
  unfold gain_val, s_x; cbn [p_l p_r l r].
  rewrite !entropy_val_pure by (simpl; lia); lra.
Qed.

Lemma tally_ex_x :
  foldM (tally_step "label") ex_x tally0 = Ok (mkTally P_x 2 (VStr "red") 4).
Proof. reflexivity. Qed.

Lemma find_split_ex_x :
  find_split "name" "label" 1 ex_x =
  Ok (mkTally P_x 2 (VStr "red") 4, mkBest (entropy_val P_x 4) (1 / 25) "x" 2 2).
Proof.
  rewrite (find_split_eval _ _ _ _ ex_x _ eq_refl tally_ex_x).
  cbn [map fst parent total row]; unfold best0.
  pose proof entropy_P_x_pos as Hpos.
  pose proof (gain_s_x (entropy_val P_x 4)) as Hg.
  skip_attr.
  scan_attr range_ex_x
    ltac:(first [ rewrite sides_x_mid by lra | rewrite sides_x_low by lra ]).
  skip_attr.
  cbn [foldM bind]; rewrite Hg; unfold s_x; cbn [p_l p_r].
  do 3 f_equal; lra.
Qed.

(** The two sides of that split hold one class each and are not split again. *)

Lemma range_ex_x_lt : foldM (range_step "x") ex_x_lt (9999, -9999) = Ok (0, 0).
Proof. eval_range. Qed.

Lemma range_ex_x_ge : foldM (range_step "x") ex_x_ge (9999, -9999) = Ok (1, 1).
Proof. eval_range. Qed.

Lemma sides_x_lt (th : R) : th <= 0 ->
  foldM (sides_step "label" "x" th) ex_x_lt sides0 =
  Ok (mkSides 0 2 zero_counts (mkCounts 2 0 0 0)).
Proof. intros H; eval_sides ltac:(unfold ex_x_lt). Qed.

Lemma sides_x_ge (th : R) : th <= 1 ->
  foldM (sides_step "label" "x" th) ex_x_ge sides0 =
  Ok (mkSides 0 2 zero_counts (mkCounts 0 2 0 0)).
Proof. intros H; eval_sides ltac:(unfold ex_x_ge). Qed.

Lemma find_split_ex_x_lt :
  find_split "name" "label" 1 ex_x_lt =
  Ok (mkTally (mkCounts 2 0 0 0) 2 (VStr "red") 2, best0).
Proof.
  assert (Ht : foldM (tally_step "label") ex_x_lt tally0 =
               Ok (mkTally (mkCounts 2 0 0 0) 2 (VStr "red") 2)) by reflexivity.
  rewrite (find_split_eval _ _ _ _ ex_x_lt _ eq_refl Ht).
  cbn [map fst parent total row]; unfold best0.
  skip_attr.
  scan_attr range_ex_x_lt ltac:(rewrite sides_x_lt by lra).
  skip_attr.
  reflexivity.
Qed.

Lemma find_split_ex_x_ge :
  find_split "name" "label" 1 ex_x_ge =
  Ok (mkTally (mkCounts 0 2 0 0) 2 (VStr "light blue") 2, best0).
Proof.
  assert (Ht : foldM (tally_step "label") ex_x_ge tally0 =
               Ok (mkTally (mkCounts 0 2 0 0) 2 (VStr "light blue") 2))
    by reflexivity.
  rewrite (find_split_eval _ _ _ _ ex_x_ge _ eq_refl Ht).
  cbn [map fst parent total row]; unfold best0.
  skip_attr.
  scan_attr range_ex_x_ge ltac:(rewrite sides_x_ge by lra).
  skip_attr.
  reflexivity.
Qed.

Lemma split_ex_x : split ex_x "x" (1 / 25) = Ok (ex_x_lt, ex_x_ge).
Proof.
  rewrite split_eval by solve_keys.
  unfold_x; eval_filter; reflexivity.
Qed.

Lemma learn_tree_ex_x : learn_tree "name" "label" 1 5 ex_x = Some (Ok tree_x).
Proof.
  apply (learn_tree_node _ _ _ _ _ _ _ _ _ _ _ _ find_split_ex_x eq_refl split_ex_x).
  - rewrite (learn_tree_leaf _ _ _ _ _ _ _ find_split_ex_x_lt eq_refl).
    cbn [majority pred_class_count total]; rewrite LeafNode_init_ok by lia.
    reflexivity.
  - rewrite (learn_tree_leaf _ _ _ _ _ _ _ find_split_ex_x_ge eq_refl).
    cbn [majority pred_class_count total]; rewrite LeafNode_init_ok by lia.
    reflexivity.
  - cbn [majority pred_class_count total]; rewrite LeafNode_init_ok by lia.
    reflexivity.
Qed.

(** ** Leaves *)

Section LeafFacts.

Variables (id_name class_name : string) (min_leaf_count : Z).

(** What the first loop has computed when the search returns. *)
Lemma find_split_tally (examples : list example) (t : tally) (b : best) :
  find_split id_name class_name min_leaf_count examples = Ok (t, b) ->
  parent t = class_counts class_name examples /\
  total t = len examples /\
  pred_class_count t = max4 (class_counts class_name examples) /\
  counts_get (class_counts class_name examples) (majority t)
    = Ok (pred_class_count t) /\
  (0 < pred_class_count t <= total t)%Z.
Proof.
  intros H; apply find_split_inv in H as (Ht & Hne & _).
  pose proof (tally_inv_fold _ _ _ Ht) as (Hnn & Hmax & Hmaj & Htot).
  apply tally_fold_spec in Ht as (Hp & Hlen & _).
  rewrite <- Hp.
  repeat split; try assumption.
  - assert (0 < total t)%Z
      by (rewrite Hlen; unfold len; destruct examples; simpl; [congruence | lia]).
    destruct Hnn as (? & ? & ? & ?).
    rewrite Hmax; unfold max4; rewrite Htot in *; unfold counts_sum in *; lia.
  - destruct Hnn as (? & ? & ? & ?).
    rewrite Hmax, Htot; unfold max4, counts_sum; lia.
Qed.

Lemma LeafNode_init_Ok_inv (c : value) (n tot : Z) (node : TreeNode) :
  LeafNode_init c n tot = Ok node ->
  tot <> 0%Z /\ node = LeafNode c n tot (IZR n / IZR tot).
Proof.
  unfold LeafNode_init, py_div; intros H.
  destruct (Req_dec_T (IZR tot) 0) as [E | E]; simpl in H; [discriminate |].
  inv_Ok H; split; [| reflexivity].
  intros ->; apply E; reflexivity.
Qed.

Lemma leaf_stats_ok (c : value) (n tot : Z) :
  (0 < n <= tot)%Z -> leaves_ok (LeafNode c n tot (IZR n / IZR tot)).
Proof.
  intros (H0 & H1); simpl.
  assert (0 < IZR n) by (apply IZR_lt in H0; exact H0).
  assert (IZR n <= IZR tot) by (apply IZR_le, H1).
  repeat split; try lia.
  - apply Rdiv_lt_0_compat; lra.
  - apply Rdiv_le_1; lra.
Qed.

End LeafFacts.

(** * The properties of the specification *)

(** C4.  [learn_tree] terminates: on any list of examples, one unit of fuel
    more than there are examples is enough for a result (a tree or a raised
    exception); and whenever the search ends on a split, each of the two
    lists that are passed to the recursive calls is strictly shorter than the
    list that was split.  No assumption on the labels or on
    [min_leaf_count] is needed. *)
Theorem learn_tree_terminates (id_name class_name : string) (min_leaf_count : Z)
  (examples : list example) :
  (exists res,
     learn_tree id_name class_name min_leaf_count (S (List.length examples)) examples
     = Some res) /\
  (forall t b examples_l examples_r,
     find_split id_name class_name min_leaf_count examples = Ok (t, b) ->
     stop min_leaf_count t b = false ->
     split examples (IG_attr b) (IG_thres b) = Ok (examples_l, examples_r) ->
     (List.length examples_l < List.length examples)%nat /\
     (List.length examples_r < List.length examples)%nat).
Proof.
  split.
  - apply learn_tree_fuel_enough; lia.
  - intros t b el er Hf Hs Hsp.
    destruct (split_shrinks _ _ _ _ _ _ _ _ Hf Hs Hsp) as ((_ & Hl) & (_ & Hr)).
    split; assumption.
Qed.

Lemma learn_tree_terminates_witness :
  (exists res, learn_tree "name" "label" 1 5 ex_x = Some res) /\
  (List.length ex_x_lt < List.length ex_x)%nat /\
  (List.length ex_x_ge < List.length ex_x)%nat.
Proof.
  destruct (learn_tree_terminates "name" "label" 1 ex_x) as (Hres & Hlen).
  split; [exact Hres |].
  exact (Hlen _ _ _ _ find_split_ex_x eq_refl split_ex_x).
Defined.

(** C5.  The missing-value child of every decision node that [learn_tree]
    returns is a leaf that holds a majority class of the whole list of
    examples of that call, the count of that class and the length of the
    list; an example whose value for the tested attribute is missing is
    classified with that label and with the quotient of the two numbers,
    whatever its other values are. *)
Theorem missing_branch_is_parent_majority
  (id_name class_name : string) (min_leaf_count : Z) (fuel : nat)
  (examples : list example) (attr : string) (thres : R)
  (child_lt child_ge child_miss : TreeNode) :
  learn_tree id_name class_name min_leaf_count fuel examples
    = Some (Ok (DecisionNode attr thres child_lt child_ge child_miss)) ->
  exists maj,
    let n := max4 (class_counts class_name examples) in
    counts_get (class_counts class_name examples) maj = Ok n /\
    child_miss = LeafNode maj n (len examples) (IZR n / IZR (len examples)) /\
    forall ex,
      getitem ex attr = Ok VNone ->
      classify (DecisionNode attr thres child_lt child_ge child_miss) ex
      = Ok (maj, IZR n / IZR (len examples)).
Proof.
  intros H.
  apply learn_tree_Ok_inv in H as (fuel' & t & b & _ & Hf & [(_ & Hleaf) | H]).
  - apply LeafNode_init_Ok_inv in Hleaf as (_ & Hleaf); discriminate.
  - destruct H as (_ & el & er & clt & cge & cm & _ & _ & _ & Hm & Hnode).
    injection Hnode as -> -> -> -> ->.
    apply find_split_tally in Hf as (_ & Htot & Hmax & Hmaj & _).
    apply LeafNode_init_Ok_inv in Hm as (_ & ->).
    rewrite Htot, Hmax in *.
    exists (majority t); cbv zeta; repeat split; [exact Hmaj |].
    intros ex Hex; simpl; rewrite Hex; reflexivity.
Qed.

Lemma missing_branch_is_parent_majority_witness :
  exists maj,
    counts_get (class_counts "label" ex_x) maj
      = Ok (max4 (class_counts "label" ex_x)) /\
    LeafNode (VStr "red") 2 4 (2 / 4)
      = LeafNode maj (max4 (class_counts "label" ex_x)) (len ex_x)
          (IZR (max4 (class_counts "label" ex_x)) / IZR (len ex_x)) /\
    forall ex,
      getitem ex "x" = Ok VNone ->
      classify tree_x ex
      = Ok (maj, IZR (max4 (class_counts "label" ex_x)) / IZR (len ex_x)).
Proof.
  exact (missing_branch_is_parent_majority "name" "label" 1 5 ex_x "x" (1 / 25)
           _ _ _ learn_tree_ex_x).
Defined.

(** C6.  Every leaf of a tree that [learn_tree] returns, the leaves of the
    missing-value branches included, has
    [0 < pred_class_count <= total_count], and its probability is the
    quotient of the two and lies in (0, 1].  A call that returns a tree was
    given a list that is not empty and whose labels are all known. *)
Theorem learned_leaves_ok (id_name class_name : string) (min_leaf_count : Z)
  (fuel : nat) :
  forall (examples : list example) (node : TreeNode),
    learn_tree id_name class_name min_leaf_count fuel examples = Some (Ok node) ->
    examples <> [] /\ Forall (label_known class_name) examples /\
    leaves_ok node.
Proof.
  induction fuel as [| fuel IH]; intros examples node H; [discriminate |].
  apply learn_tree_Ok_inv in H as (fuel' & t & b & Ef & Hf & H).
  injection Ef as <-.
  pose proof (find_split_inv _ _ _ _ _ _ Hf) as (Ht & Hne & _).
  apply tally_fold_spec in Ht as (_ & _ & Hall).
  pose proof (find_split_tally _ _ _ _ _ _ Hf) as (_ & _ & _ & _ & Hcnt).
  split; [exact Hne |]; split; [exact Hall |].
  destruct H as [(_ & Hleaf) | (_ & el & er & clt & cge & cm & _ & Hl & Hr & Hm & ->)].
  - apply LeafNode_init_Ok_inv in Hleaf as (_ & ->).
    apply leaf_stats_ok, Hcnt.
  - apply LeafNode_init_Ok_inv in Hm as (_ & ->).
    pose proof (leaf_stats_ok (majority t) _ _ Hcnt) as Hleaf.
    destruct (IH _ _ Hl) as (_ & _ & Hlt), (IH _ _ Hr) as (_ & _ & Hge).
    simpl in *; tauto.
Qed.

Lemma learned_leaves_ok_witness :
  ex_x <> [] /\ Forall (label_known "label") ex_x /\ leaves_ok tree_x.
Proof.
  exact (learned_leaves_ok "name" "label" 1 5 ex_x tree_x learn_tree_ex_x).
Defined.



Lemma float_of_int_ok (n : Z) :
  (Z.abs n < 2 ^ 1024 - 2 ^ 970)%Z -> float_of_int n = Ok (IZR n).
Proof.
  intros H; unfold float_of_int.
  destruct (Z.ltb_spec (Z.abs n) (2 ^ 1024 - 2 ^ 970)); [reflexivity | lia].
Qed.


(** On integers that have a float, the method is its body. *)
Lemma DecisionTree_entropy_in_range (dict : counts) (total : Z) :
  (Z.abs total < 2 ^ 1024 - 2 ^ 970)%Z ->
  (Z.abs (red dict) < 2 ^ 1024 - 2 ^ 970)%Z ->
  (Z.abs (light_blue dict) < 2 ^ 1024 - 2 ^ 970)%Z ->
  (Z.abs (medium_blue dict) < 2 ^ 1024 - 2 ^ 970)%Z ->
  (Z.abs (wicked_blue dict) < 2 ^ 1024 - 2 ^ 970)%Z ->
  DecisionTree_entropy dict total = entropy dict total.
Proof.
  intros Ht H1 H2 H3 H4; unfold DecisionTree_entropy, entropy.
  rewrite !float_of_int_ok by assumption; reflexivity.
Qed.

(** The bound of [float_of_int] is where the rounding to binary64 leaves
    the finite numbers. *)
Lemma float_of_int_bound :
  binary_normalize prec emax (2 ^ 1024 - 2 ^ 970 - 1) 0 false
  = S754_finite false (2 ^ 53 - 1) 971 /\
  binary_normalize prec emax (2 ^ 1024 - 2 ^ 970) 0 false
  = S754_infinity false.
Proof. split; vm_compute; reflexivity. Qed.

(** The counts that [learn_tree] passes to [entropy] are at most
    [len(examples)]: they have a float whenever the length has one. *)
Lemma entropy_of_tally (class_name : string) (examples : list example)
  (t : tally) :
  foldM (tally_step class_name) examples tally0 = Ok t ->
  (len examples < 2 ^ 1024 - 2 ^ 970)%Z ->
  DecisionTree_entropy (parent t) (total t) = entropy (parent t) (total t).
Proof.
  intros H Hlen.
  pose proof (tally_inv_fold _ _ _ H) as ((H1 & H2 & H3 & H4) & _ & _ & Hsum).
  apply tally_fold_spec in H as (_ & Htot & _).
  unfold counts_sum in Hsum.
  apply DecisionTree_entropy_in_range; lia.
Qed.




(** C9.  Building a [DecisionTree] from no example raises ([IndexError], at
    [examples[0]]), and building it from a list in which the class value of
    some example is not one of the four known classes raises ([KeyError], at
    [parent[...] += 1]); in neither case is a tree returned. *)
Theorem construction_fails_on_bad_input
  (id_name class_name : string) (min_leaf_count : Z) :
  DecisionTree_init id_name class_name min_leaf_count [] = Some (Raise IndexError) /\
  (forall examples d,
     In d examples ->
     (forall s, getitem d class_name = Ok (VStr s) -> known_class s = false) ->
     DecisionTree_init id_name class_name min_leaf_count examples
     = Some (Raise KeyError)).
Proof.
  split.
  - unfold DecisionTree_init, learn_tree, find_split.
    cbn [foldM List.length]; unfold tally0; cbn [bind parent total].
    rewrite entropy_ok by (unfold counts_nonneg, zero_counts; simpl; lia).
    reflexivity.
  - intros examples d Hin Hbad.
    unfold DecisionTree_init.
    cbn [learn_tree]; unfold find_split.
    rewrite (tally_fold_raises class_name examples tally0 d Hin Hbad).
    reflexivity.
Qed.

Lemma construction_fails_on_bad_input_witness :
  DecisionTree_init "name" "label" 1 [] = Some (Raise IndexError) /\
  DecisionTree_init "name" "label" 1
    [row "a" "x" (VFloat 0) "red"; row "b" "x" (VFloat 1) "green"]
  = Some (Raise KeyError).
Proof.
  destruct (construction_fails_on_bad_input "name" "label" 1) as (Hempty & Hbad).
  split; [exact Hempty |].
  apply (Hbad _ (row "b" "x" (VFloat 1) "green")).
  - right; left; reflexivity.
  - intros s Hs; injection Hs as <-; reflexivity.
Defined.

(** ** The name ['town'] *)

Lemma learn_tree_never_tests_town
  (id_name class_name : string) (min_leaf_count : Z) (fuel : nat) :
  forall (examples : list example) (node : TreeNode),
    learn_tree id_name class_name min_leaf_count fuel examples = Some (Ok node) ->
    ~ tests "town" node.
Proof.
  induction fuel as [| fuel IH]; intros examples node H; [discriminate |].
  apply learn_tree_Ok_inv in H as (fuel' & t & b & Ef & Hf & H).
  injection Ef as <-.
  destruct H as [(_ & Hleaf) |
                 (Hstop & el & er & clt & cge & cm & _ & Hl & Hr & Hm & ->)].
  - apply LeafNode_init_Ok_inv in Hleaf as (_ & ->); simpl; tauto.
  - apply LeafNode_init_Ok_inv in Hm as (_ & ->).
    unfold stop in Hstop; apply orb_false_iff in Hstop as (Htown & _).
    apply String.eqb_neq in Htown.
    pose proof (IH _ _ Hl); pose proof (IH _ _ Hr).
    simpl; tauto.
Qed.

(** ** The thresholds of an attribute *)

Lemma thres_loop_trace (class_name : string) (min_leaf_count : Z)
  (examples : list example) (entropy_parent : R) (key : string) (seg : R)
  (n : nat) :
  forall (thres : R) (b : best),
    thres_loop class_name min_leaf_count examples entropy_parent key seg n thres b
    = foldM (visit class_name min_leaf_count examples entropy_parent key)
        (thres_trace seg n thres) b.
Proof.
  induction n as [| n IH]; intros thres b; [reflexivity |].
  cbn [thres_loop thres_trace foldM]; unfold visit at 1.
  destruct (foldM (sides_step class_name key (thres + seg)) examples sides0)
    as [s | e]; [| reflexivity].
  cbn [bind].
  destruct (consider min_leaf_count entropy_parent key (thres + seg) s b)
    as [b' | e]; [| reflexivity].
  cbn [bind]; apply IH.
Qed.

(** The scan of an eligible attribute evaluates the candidates at
    [candidate_thresholds], in that order, and nothing else. *)
Lemma attr_step_thresholds (id_name class_name : string) (min_leaf_count : Z)
  (examples : list example) (entropy_parent : R) (b : best) (key : string)
  (d0 : example) (v0 : value) :
  first examples = Ok d0 -> getitem d0 key = Ok v0 ->
  eligible id_name v0 key = true ->
  attr_step id_name class_name min_leaf_count examples entropy_parent b key
  = (ths <- candidate_thresholds examples key ;;
     foldM (visit class_name min_leaf_count examples entropy_parent key) ths b).
Proof.
  intros Hf Hg He; unfold attr_step, candidate_thresholds.
  rewrite Hf; cbn [bind]; rewrite Hg; cbn [bind]; rewrite He.
  destruct (foldM (range_step key) examples (9999, -9999)) as [bt | e];
    [| reflexivity].
  cbn [bind]; apply thres_loop_trace.
Qed.

Lemma thres_trace_formula (seg : R) (n : nat) :
  forall thres : R,
    thres_trace seg n thres = map (fun i => thres + seg * INR i) (seq 1 n).
Proof.
  induction n as [| n IH]; intros thres; [reflexivity |].
  cbn [thres_trace]; rewrite IH.
  cbn [seq map]; f_equal; [simpl; lra |].
  rewrite <- (seq_shift n 1), map_map.
  apply map_ext; intros i; rewrite S_INR; lra.
Qed.

Lemma thres_trace_from_bottom (seg bottom : R) (n : nat) :
  thres_trace seg n (bottom - seg)
  = map (fun i => bottom + seg * INR i) (seq 0 n).
Proof.
  rewrite thres_trace_formula, <- (seq_shift n 0), map_map.
  apply map_ext; intros i; rewrite S_INR; lra.
Qed.

(** The loop that finds [bottom] and [top] folds [min] and [max] over the
    numeric values. *)
Lemma range_fold_values (key : string) (examples : list example) :
  forall bt bt',
    foldM (range_step key) examples bt = Ok bt' ->
    fst bt' = fold_left (fun acc f => py_min f acc)
                (defined_values key examples) (fst bt) /\
    snd bt' = fold_left (fun acc f => py_max f acc)
                (defined_values key examples) (snd bt).
Proof.
  induction examples as [| d examples IH]; intros bt bt' H; simpl in H.
  - inv_Ok H; auto.
  - inv_bind H. unfold range_step in H0. inv_bind H0.
    apply getitem_lookup in H1.
    apply IH in H as (Hb & Ht).
    unfold defined_values in *; cbn [flat_map]; rewrite H1.
    destruct a0 as [f | s |]; inv_Ok H0; cbn [app fold_left fst snd] in *; auto.
Qed.

Lemma fold_min_spec (vals : list R) :
  forall b0,
    let m := fold_left (fun acc f => py_min f acc) vals b0 in
    m <= b0 /\ (forall v, In v vals -> m <= v) /\ (m = b0 \/ In m vals).
Proof.
  induction vals as [| v vals IH]; intros b0; cbn [fold_left].
  - repeat split; [lra | intros v [] | left; reflexivity].
  - destruct (IH (py_min v b0)) as (H1 & H2 & H3).
    destruct (py_min_cases v b0) as [(Hlt & E) | (Hle & E)]; rewrite E in *.
    + repeat split; [exact H1 | | destruct H3; [left | right; right]; assumption].
      intros w [<- | Hw]; [lra | apply H2, Hw].
    + repeat split;
        [lra | |
         destruct H3 as [-> | H3]; right; [left; reflexivity | right; exact H3]].
      intros w [<- | Hw]; [exact H1 | apply H2, Hw].
Qed.

Lemma fold_max_spec (vals : list R) :
  forall t0,
    let m := fold_left (fun acc f => py_max f acc) vals t0 in
    t0 <= m /\ (forall v, In v vals -> v <= m) /\ (m = t0 \/ In m vals).
Proof.
  induction vals as [| v vals IH]; intros t0; cbn [fold_left].
  - repeat split; [lra | intros v [] | left; reflexivity].
  - destruct (IH (py_max v t0)) as (H1 & H2 & H3).
    destruct (py_max_cases v t0) as [(Hlt & E) | (Hle & E)]; rewrite E in *.
    + repeat split; [exact H1 | | destruct H3; [left | right; right]; assumption].
      intros w [<- | Hw]; [lra | apply H2, Hw].
    + repeat split;
        [lra | |
         destruct H3 as [-> | H3]; right; [left; reflexivity | right; exact H3]].
      intros w [<- | Hw]; [exact H1 | apply H2, Hw].
Qed.

(** Between the two initial bounds, [bottom] and [top] are the least and the
    greatest numeric value. *)
Lemma range_fold_min_max (key : string) (examples : list example) (bt : R * R)
  (mn mx : R) :
  foldM (range_step key) examples (9999, -9999) = Ok bt ->
  is_min mn (defined_values key examples) ->
  is_max mx (defined_values key examples) ->
  mn <= 9999 -> -9999 <= mx ->
  bt = (mn, mx).
Proof.
  intros H (Hmin_in & Hmin) (Hmax_in & Hmax) Hlo Hhi.
  apply range_fold_values in H as (Hb & Ht); cbn [fst snd] in Hb, Ht.
  destruct (fold_min_spec (defined_values key examples) 9999) as (B1 & B2 & B3).
  destruct (fold_max_spec (defined_values key examples) (-9999)) as (T1 & T2 & T3).
  cbv zeta in *; rewrite <- Hb in *; rewrite <- Ht in *.
  destruct bt as [bottom top]; cbn [fst snd] in *.
  f_equal.
  - pose proof (B2 _ Hmin_in).
    destruct B3 as [-> | B3]; [lra | pose proof (Hmin _ B3); lra].
  - pose proof (T2 _ Hmax_in).
    destruct T3 as [-> | T3]; [lra | pose proof (Hmax _ T3); lra].
Qed.

Lemma candidate_thresholds_ex_x :
  candidate_thresholds ex_x "x"
  = Ok (map (fun i => 0 + (1 - 0) / 25 * INR i) (seq 0 25)).
Proof.
  unfold candidate_thresholds; rewrite range_ex_x; cbn [bind fst snd].
  rewrite thres_trace_from_bottom; reflexivity.
Qed.

Lemma defined_values_ex_x : defined_values "x" ex_x = [0; 0; 1; 1].
Proof. reflexivity. Qed.

Lemma is_min_ex_x : is_min 0 (defined_values "x" ex_x).
Proof.
  rewrite defined_values_ex_x; split; [left; reflexivity |].
  intros v [<- | [<- | [<- | [<- | []]]]]; lra.
Qed.

Lemma is_max_ex_x : is_max 1 (defined_values "x" ex_x).
Proof.
  rewrite defined_values_ex_x; split; [right; right; left; reflexivity |].
  intros v [<- | [<- | [<- | [<- | []]]]]; lra.
Qed.

(** ** The order of binary64 numbers *)

Lemma SFcompare_refl (x : spec_float) :
  x <> S754_nan -> SFcompare x x = Some Eq.
Proof.
  destruct x as [s | s | | s m e]; intros H; try congruence;
    try (destruct s; reflexivity).
  simpl; rewrite Z.compare_refl.
  change (Pos.compare_cont Eq m m) with (Pos.compare m m).
  rewrite Pos.compare_refl; destruct s; reflexivity.
Qed.

Ltac sf_cases :=
  repeat match goal with
         | H : context [Z.compare ?a ?b] |- _ =>
             destruct (Z.compare_spec a b); try subst
         | |- context [Z.compare ?a ?b] =>
             destruct (Z.compare_spec a b); try subst
         | H : context [Pos.compare_cont Eq ?a ?b] |- _ =>
             change (Pos.compare_cont Eq a b) with (Pos.compare a b) in H
         | |- context [Pos.compare_cont Eq ?a ?b] =>
             change (Pos.compare_cont Eq a b) with (Pos.compare a b)
         | H : context [Pos.compare ?a ?b] |- _ =>
             destruct (Pos.compare_spec a b); try subst
         | |- context [Pos.compare ?a ?b] =>
             destruct (Pos.compare_spec a b); try subst
         end.

Lemma SFleb_trans (x y z : spec_float) :
  SFleb x y = true -> SFleb y z = true -> SFleb x z = true.
Proof.
  unfold SFleb.
  destruct x as [sx | sx | | sx mx ex], y as [sy | sy | | sy my ey],
    z as [sz | sz | | sz mz ez];
    try destruct sx; try destruct sy; try destruct sz; simpl;
    try (intros; discriminate); try (intros; reflexivity);
    intros H1 H2; sf_cases; simpl in *;
    try discriminate; try reflexivity; try lia.
Qed.

Lemma SFleb_total (x y : spec_float) :
  x <> S754_nan -> y <> S754_nan -> SFltb y x = false -> SFleb x y = true.
Proof.
  unfold SFleb, SFltb.
  destruct x as [sx | sx | | sx mx ex], y as [sy | sy | | sy my ey];
    try destruct sx; try destruct sy; simpl;
    try congruence; try (intros; reflexivity);
    intros _ _ H; sf_cases; simpl in *;
    try discriminate; try reflexivity; try lia.
Qed.

Lemma SFltb_leb (x y : spec_float) : SFltb x y = true -> SFleb x y = true.
Proof.
  unfold SFleb, SFltb; destruct (SFcompare x y) as [[| |] |];
    intros; discriminate || reflexivity.
Qed.

Lemma is_nan_spec (x : float) :
  PrimFloat.is_nan x = false <-> Prim2SF x <> S754_nan.
Proof.
  unfold PrimFloat.is_nan; rewrite FloatAxioms.eqb_spec; unfold SFeqb.
  split.
  - intros H E; rewrite E in H; discriminate.
  - intros H; rewrite SFcompare_refl by exact H; reflexivity.
Qed.

Lemma float_leb_refl (x : float) :
  PrimFloat.is_nan x = false -> PrimFloat.leb x x = true.
Proof.
  intros H; rewrite leb_spec; unfold SFleb.
  rewrite SFcompare_refl by (apply is_nan_spec; exact H); reflexivity.
Qed.

Lemma float_leb_trans (x y z : float) :
  PrimFloat.leb x y = true -> PrimFloat.leb y z = true ->
  PrimFloat.leb x z = true.
Proof. rewrite !leb_spec; apply SFleb_trans. Qed.

Lemma float_leb_total (x y : float) :
  PrimFloat.is_nan x = false -> PrimFloat.is_nan y = false ->
  PrimFloat.ltb y x = false -> PrimFloat.leb x y = true.
Proof.
  rewrite !is_nan_spec, ltb_spec, leb_spec; apply SFleb_total.
Qed.

Lemma float_ltb_leb (x y : float) :
  PrimFloat.ltb x y = true -> PrimFloat.leb x y = true.
Proof. rewrite ltb_spec, leb_spec; apply SFltb_leb. Qed.

Lemma SFltb_not_leb (x y : spec_float) :
  SFltb x y = true -> SFleb y x = false.
Proof.
  unfold SFleb, SFltb.
  destruct x as [sx | sx | | sx mx ex], y as [sy | sy | | sy my ey];
    try destruct sx; try destruct sy; simpl;
    try (intros; discriminate); try (intros; reflexivity);
    intros H; sf_cases; simpl in *;
    try discriminate; try reflexivity; try lia.
Qed.

Lemma float_ltb_not_leb (x y : float) :
  PrimFloat.ltb x y = true -> PrimFloat.leb y x = false.
Proof. rewrite ltb_spec, leb_spec; apply SFltb_not_leb. Qed.

(** ** [bottom] and [top] in binary64 *)

Lemma b64_range_fold_values (key : string) (examples : list Binary64.example) :
  forall bt bt',
    foldM (Binary64.range_step key) examples bt = Ok bt' ->
    fst bt' = fold_left (fun acc f => Binary64.py_min f acc)
                (Binary64.defined_values key examples) (fst bt) /\
    snd bt' = fold_left (fun acc f => Binary64.py_max f acc)
                (Binary64.defined_values key examples) (snd bt).
Proof.
  induction examples as [| d examples IH]; intros bt bt' H.
  - injection H as <-; split; reflexivity.
  - rewrite foldM_cons in H; apply bind_Ok_inv in H as (bt1 & H1 & H2).
    apply IH in H2 as (E1 & E2); rewrite E1, E2.
    unfold Binary64.range_step, Binary64.getitem in H1.
    unfold Binary64.defined_values; cbn [flat_map].
    destruct (Binary64.lookup key d) as [[f | s |] |]; cbn [bind] in H1;
      try discriminate; injection H1 as <-; cbn [fst snd app fold_left];
      split; reflexivity.
Qed.

Lemma b64_fold_min_spec (vals : list float) :
  Forall (fun v => PrimFloat.is_nan v = false) vals ->
  forall b0,
    PrimFloat.is_nan b0 = false ->
    let m := fold_left (fun acc f => Binary64.py_min f acc) vals b0 in
    PrimFloat.leb m b0 = true /\
    (forall v, In v vals -> PrimFloat.leb m v = true) /\
    (m = b0 \/ In m vals) /\
    PrimFloat.is_nan m = false.
Proof.
  induction 1 as [| v vals Hv Hvals IH]; intros b0 Hb; cbn [fold_left].
  - split; [apply float_leb_refl; exact Hb |].
    split; [intros v [] |]; split; [left; reflexivity | exact Hb].
  - cbv zeta.
    assert (Ep : Binary64.py_min v b0
                 = if PrimFloat.ltb b0 v then b0 else v) by reflexivity.
    destruct (PrimFloat.ltb b0 v) eqn:E; rewrite Ep.
    + destruct (IH b0 Hb) as (H1 & H2 & H3 & H4).
      split; [exact H1 |]; split;
        [| split; [destruct H3; [left | right; right]; assumption | exact H4]].
      intros w [<- | Hw]; [| apply H2, Hw].
      apply (float_leb_trans _ b0); [exact H1 | apply float_ltb_leb, E].
    + destruct (IH v Hv) as (H1 & H2 & H3 & H4).
      split; [| split; [| split; [| exact H4]]].
      * apply (float_leb_trans _ v); [exact H1 |].
        apply float_leb_total; assumption.
      * intros w [<- | Hw]; [exact H1 | apply H2, Hw].
      * right; destruct H3 as [-> | H3]; [left; reflexivity | right; exact H3].
Qed.

Lemma b64_fold_min_in (vals : list float) :
  Forall (fun v => PrimFloat.is_nan v = false) vals ->
  forall b0,
    PrimFloat.is_nan b0 = false ->
    Exists (fun v => PrimFloat.leb v b0 = true) vals ->
    In (fold_left (fun acc f => Binary64.py_min f acc) vals b0) vals.
Proof.
  induction 1 as [| v vals Hv Hvals IH]; intros b0 Hb Hex;
    [inversion Hex |]; cbn [fold_left].
  assert (Ep : Binary64.py_min v b0
               = if PrimFloat.ltb b0 v then b0 else v) by reflexivity.
  destruct (PrimFloat.ltb b0 v) eqn:E; rewrite Ep.
  - right; apply IH; [exact Hb |].
    inversion Hex as [? ? Hw | ? ? Hw]; subst; [| exact Hw].
    rewrite (float_ltb_not_leb _ _ E) in Hw; discriminate.
  - destruct (b64_fold_min_spec vals Hvals v Hv) as (_ & _ & [-> | Hin] & _);
      [left; reflexivity | right; exact Hin].
Qed.

Lemma b64_fold_max_spec (vals : list float) :
  Forall (fun v => PrimFloat.is_nan v = false) vals ->
  forall t0,
    PrimFloat.is_nan t0 = false ->
    let m := fold_left (fun acc f => Binary64.py_max f acc) vals t0 in
    PrimFloat.leb t0 m = true /\
    (forall v, In v vals -> PrimFloat.leb v m = true) /\
    (m = t0 \/ In m vals) /\
    PrimFloat.is_nan m = false.
Proof.
  induction 1 as [| v vals Hv Hvals IH]; intros t0 Ht; cbn [fold_left].
  - split; [apply float_leb_refl; exact Ht |].
    split; [intros v [] |]; split; [left; reflexivity | exact Ht].
  - cbv zeta.
    assert (Ep : Binary64.py_max v t0
                 = if PrimFloat.ltb v t0 then t0 else v) by reflexivity.
    destruct (PrimFloat.ltb v t0) eqn:E; rewrite Ep.
    + destruct (IH t0 Ht) as (H1 & H2 & H3 & H4).
      split; [exact H1 |]; split;
        [| split; [destruct H3; [left | right; right]; assumption | exact H4]].
      intros w [<- | Hw]; [| apply H2, Hw].
      apply (float_leb_trans _ t0); [apply float_ltb_leb, E | exact H1].
    + destruct (IH v Hv) as (H1 & H2 & H3 & H4).
      split; [| split; [| split; [| exact H4]]].
      * apply (float_leb_trans _ v); [| exact H1].
        apply float_leb_total; assumption.
      * intros w [<- | Hw]; [exact H1 | apply H2, Hw].
      * right; destruct H3 as [-> | H3]; [left; reflexivity | right; exact H3].
Qed.

Lemma b64_fold_max_in (vals : list float) :
  Forall (fun v => PrimFloat.is_nan v = false) vals ->
  forall t0,
    PrimFloat.is_nan t0 = false ->
    Exists (fun v => PrimFloat.leb t0 v = true) vals ->
    In (fold_left (fun acc f => Binary64.py_max f acc) vals t0) vals.
Proof.
  induction 1 as [| v vals Hv Hvals IH]; intros t0 Ht Hex;
    [inversion Hex |]; cbn [fold_left].
  assert (Ep : Binary64.py_max v t0
               = if PrimFloat.ltb v t0 then t0 else v) by reflexivity.
  destruct (PrimFloat.ltb v t0) eqn:E; rewrite Ep.
  - right; apply IH; [exact Ht |].
    inversion Hex as [? ? Hw | ? ? Hw]; subst; [| exact Hw].
    rewrite (float_ltb_not_leb _ _ E) in Hw; discriminate.
  - destruct (b64_fold_max_spec vals Hvals v Hv) as (_ & _ & [-> | Hin] & _);
      [left; reflexivity | right; exact Hin].
Qed.

(** ** The rounds of the scan *)

Lemma b64_thres_loop_trace (State : Type) (round : float -> State -> result State)
  (seg : float) (n : nat) :
  forall thres st,
    Binary64.thres_loop State round seg n thres st
    = foldM (fun st t => round t st) (Binary64.thres_trace seg n thres) st.
Proof.
  induction n as [| n IH]; intros thres st; [reflexivity |].
  cbn [Binary64.thres_loop Binary64.thres_trace foldM].
  destruct (round (thres + seg)%float st); cbn [bind]; [apply IH | reflexivity].
Qed.

Lemma b64_thres_trace_length (seg : float) (n : nat) (thres : float) :
  List.length (Binary64.thres_trace seg n thres) = n.
Proof.
  revert thres; induction n as [| n IH]; intros thres; simpl;
    [reflexivity | rewrite IH; reflexivity].
Qed.

Lemma b64_thres_trace_next (seg : float) (n : nat) :
  forall thres i,
    (S i < n)%nat ->
    nth (S i) (Binary64.thres_trace seg n thres) PrimFloat.nan
    = (nth i (Binary64.thres_trace seg n thres) PrimFloat.nan + seg)%float.
Proof.
  induction n as [| n IH]; intros thres i Hi; [lia |].
  cbn [Binary64.thres_trace].
  destruct i as [| i].
  - destruct n; [lia | reflexivity].
  - cbn [nth]; apply IH; lia.
Qed.

(** ** The thresholds of the scan *)

Lemma b64_float_neq (x y : float) : PrimFloat.Leibniz.eqb x y = false -> x <> y.
Proof.
  intros H E; apply FloatAxioms.Leibniz.eqb_spec in E; congruence.
Qed.

Lemma b64_not_In (x : float) (xs : list float) :
  forallb (fun y => negb (PrimFloat.Leibniz.eqb y x)) xs = true -> ~ In x xs.
Proof.
  induction xs as [| y xs IH]; simpl; [tauto |].
  rewrite andb_true_iff, negb_true_iff; intros (H1 & H2) [E | Hin].
  - exact (b64_float_neq _ _ H1 E).
  - exact (IH H2 Hin).
Qed.

(** C2.  For an attribute whose numeric values are not NaN, one of them at
    most 9999 and one at least -9999, [bottom] and [top] of the scan are a
    least and a greatest numeric value of the attribute; with
    [seg = (top - bottom) / 25], the scan evaluates 25 thresholds, and they
    are the values of a running sum, each operation rounded to binary64:
    the first is [(bottom - seg) + seg], and each of the others is the one
    before it plus [seg].  Every round of the loop is run at one of them,
    in this order, and at nothing else. *)
Theorem thresholds_are_running_sums (examples : list Binary64.example)
  (key : string) (bottom top : float) :
  foldM (Binary64.range_step key) examples (9999, -9999)%float
  = Ok (bottom, top) ->
  Forall (fun v => PrimFloat.is_nan v = false)
    (Binary64.defined_values key examples) ->
  Exists (fun v => (v <=? 9999)%float = true)
    (Binary64.defined_values key examples) ->
  Exists (fun v => (-9999 <=? v)%float = true)
    (Binary64.defined_values key examples) ->
  Binary64.is_min bottom (Binary64.defined_values key examples) /\
  Binary64.is_max top (Binary64.defined_values key examples) /\
  exists ths,
    Binary64.candidate_thresholds examples key = Ok ths /\
    List.length ths = 25%nat /\
    nth 0 ths PrimFloat.nan
    = (bottom - (top - bottom) / 25 + (top - bottom) / 25)%float /\
    (forall i, (i < 24)%nat ->
               nth (S i) ths PrimFloat.nan
               = (nth i ths PrimFloat.nan + (top - bottom) / 25)%float) /\
    forall (State : Type) (round : float -> State -> result State) (st : State),
      Binary64.scan State round examples key st
      = foldM (fun st t => round t st) ths st.
Proof.
  intros Hfold Hnan Hlo Hhi.
  pose proof (b64_range_fold_values _ _ _ _ Hfold) as (Eb & Et).
  cbn [fst snd] in Eb, Et.
  assert (N1 : PrimFloat.is_nan 9999 = false) by reflexivity.
  assert (N2 : PrimFloat.is_nan (-9999) = false) by reflexivity.
  destruct (b64_fold_min_spec _ Hnan 9999%float N1) as (_ & B2 & _ & _).
  destruct (b64_fold_max_spec _ Hnan (-9999)%float N2) as (_ & T2 & _ & _).
  pose proof (b64_fold_min_in _ Hnan 9999%float N1 Hlo) as B3.
  pose proof (b64_fold_max_in _ Hnan (-9999)%float N2 Hhi) as T3.
  cbv zeta in B2, T2; rewrite <- Eb in B2, B3; rewrite <- Et in T2, T3.
  split; [split; assumption |]; split; [split; assumption |].
  exists (Binary64.thres_trace ((top - bottom) / 25)
            25 (bottom - (top - bottom) / 25)).
  split; [unfold Binary64.candidate_thresholds; rewrite Hfold; reflexivity |].
  split; [apply b64_thres_trace_length |].
  split; [reflexivity |].
  split; [intros i Hi; apply b64_thres_trace_next; lia |].
  intros State round st; unfold Binary64.scan; rewrite Hfold; cbn [bind fst snd].
  apply b64_thres_loop_trace.
Qed.

Lemma thresholds_are_running_sums_witness :
  Binary64.is_min 0 (Binary64.defined_values "x" Binary64.ex_x) /\
  Binary64.is_max 1 (Binary64.defined_values "x" Binary64.ex_x) /\
  exists ths,
    Binary64.candidate_thresholds Binary64.ex_x "x" = Ok ths /\
    List.length ths = 25%nat /\
    nth 0 ths PrimFloat.nan = (0 - (1 - 0) / 25 + (1 - 0) / 25)%float /\
    (forall i, (i < 24)%nat ->
               nth (S i) ths PrimFloat.nan
               = (nth i ths PrimFloat.nan + (1 - 0) / 25)%float) /\
    forall (State : Type) (round : float -> State -> result State) (st : State),
      Binary64.scan State round Binary64.ex_x "x" st
      = foldM (fun st t => round t st) ths st.
Proof.
  apply (thresholds_are_running_sums Binary64.ex_x "x" 0 1).
  - reflexivity.
  - repeat constructor.
  - left; reflexivity.
  - left; reflexivity.
Defined.

(** On four examples whose values are 0, 0, 1 and 1, the least value is 0
    and the greatest is 1, so the thresholds [min + seg * i] for
    [i = 1..25] run from 0.04 to 1.  The scan evaluates other thresholds:
    the first is 0, the least value itself, which is none of those; 1, the
    greatest value, is never evaluated; and the seventh is
    0.24000000000000002, one unit in the last place above
    [0 + seg * 6].  On one example whose value is 10000, [bottom] keeps its
    initial value: the first threshold is 9999, below the least value. *)
Lemma thresholds_are_not_min_plus_seg_times_1_to_25 :
  Binary64.is_min 0 (Binary64.defined_values "x" Binary64.ex_x) /\
  Binary64.is_max 1 (Binary64.defined_values "x" Binary64.ex_x) /\
  exists ths,
    Binary64.candidate_thresholds Binary64.ex_x "x" = Ok ths /\
    ths <> Binary64.claimed_thresholds 0 1 /\
    nth 0 ths PrimFloat.nan = 0%float /\
    ~ In 0%float (Binary64.claimed_thresholds 0 1) /\
    In 1%float (Binary64.claimed_thresholds 0 1) /\
    ~ In 1%float ths /\
    nth 6 ths PrimFloat.nan = 0x1.eb851eb851eb9p-3%float /\
    (0 + (1 - 0) / 25 * 6)%float = 0x1.eb851eb851eb8p-3%float /\
    Binary64.is_min 10000
      (Binary64.defined_values "x"
         [Binary64.row "a" "x" (Binary64.VFloat 10000) "red"]) /\
    exists ths',
      Binary64.candidate_thresholds
        [Binary64.row "a" "x" (Binary64.VFloat 10000) "red"] "x" = Ok ths' /\
      nth 0 ths' PrimFloat.nan = 9999%float.
Proof.
  split; [| split].
  - split; [left; reflexivity |].
    intros v [<- | [<- | [<- | [<- | []]]]]; reflexivity.
  - split; [right; right; left; reflexivity |].
    intros v [<- | [<- | [<- | [<- | []]]]]; reflexivity.
  - eexists; split; [reflexivity |].
    assert (Hzero : ~ In 0%float (Binary64.claimed_thresholds 0 1))
      by (apply b64_not_In; vm_compute; reflexivity).
    split; [| split; [| split; [| split; [| split; [| split; [| split]]]]]].
    + intros E; apply Hzero; rewrite <- E; left; reflexivity.
    + reflexivity.
    + exact Hzero.
    + unfold Binary64.claimed_thresholds; rewrite in_map_iff.
      exists 25%nat; split; [vm_compute; reflexivity | apply in_seq; lia].
    + apply b64_not_In; vm_compute; reflexivity.
    + vm_compute; reflexivity.
    + vm_compute; reflexivity.
    + split.
      * split; [left; reflexivity | intros v [<- | []]; reflexivity].
      * eexists; split; [reflexivity | vm_compute; reflexivity].
Qed.

(** ** A training set whose only numeric attribute is named ['town'] *)

Lemma range_ex_town : foldM (range_step "town") ex_town (9999, -9999) = Ok (0, 1).
Proof. eval_range. Qed.

Lemma sides_town_low (th : R) : th <= 0 ->
  foldM (sides_step "label" "town" th) ex_town sides0 =
  Ok (mkSides 0 4 zero_counts P_x).
Proof. intros H; eval_sides ltac:(unfold ex_town). Qed.

Lemma sides_town_mid (th : R) : 0 < th -> th <= 1 ->
  foldM (sides_step "label" "town" th) ex_town sides0 = Ok s_x.
Proof. intros H0 H1; eval_sides ltac:(unfold ex_town). Qed.

Lemma tally_ex_town :
  foldM (tally_step "label") ex_town tally0 = Ok (mkTally P_x 2 (VStr "red") 4).
Proof. reflexivity. Qed.

Lemma find_split_ex_town :
  find_split "name" "label" 1 ex_town =
  Ok (mkTally P_x 2 (VStr "red") 4, mkBest (entropy_val P_x 4) (1 / 25) "town" 2 2).
Proof.
  rewrite (find_split_eval _ _ _ _ ex_town _ eq_refl tally_ex_town).
  cbn [map fst parent total row]; unfold best0.
  pose proof entropy_P_x_pos as Hpos.
  pose proof (gain_s_x (entropy_val P_x 4)) as Hg.
  skip_attr.
  scan_attr range_ex_town
    ltac:(first [ rewrite sides_town_mid by lra | rewrite sides_town_low by lra ]).
  skip_attr.
  cbn [foldM bind]; rewrite Hg; unfold s_x; cbn [p_l p_r].
  do 3 f_equal; lra.
Qed.

Lemma learn_tree_ex_town :
  learn_tree "name" "label" 1 5 ex_town
  = Some (Ok (LeafNode (VStr "red") 2 4 (2 / 4))).
Proof.
  rewrite (learn_tree_leaf _ _ _ _ _ _ _ find_split_ex_town eq_refl).
  cbn [majority pred_class_count total]; rewrite LeafNode_init_ok by lia.
  reflexivity.
Qed.

Lemma candidate_thresholds_ex_town :
  candidate_thresholds ex_town "town"
  = Ok (map (fun i => 0 + (1 - 0) / 25 * INR i) (seq 0 25)).
Proof.
  unfold candidate_thresholds; rewrite range_ex_town; cbn [bind fst snd].
  rewrite thres_trace_from_bottom; reflexivity.
Qed.

(** C10.  The name ['town'] is the mark of "no split found": no decision
    node of a tree that [learn_tree] returns tests an attribute of that
    name.  And on the four examples of [ex_town], with the identifier
    attribute ['name'] and [min_leaf_count = 1], the attribute ['town'] is
    numeric and is the only attribute that is scanned, its candidate at
    threshold 1/25 has two examples on each side and a positive gain, the
    search ends on that very candidate, and [learn_tree] returns a leaf all
    the same. *)
Theorem town_is_never_tested :
  (forall id_name class_name min_leaf_count fuel examples node,
     learn_tree id_name class_name min_leaf_count fuel examples = Some (Ok node) ->
     ~ tests "town" node) /\
  ("name" <> "town" /\
   (exists d0,
      first ex_town = Ok d0 /\
      eligible "name" (VFloat 0) "town" = true /\
      getitem d0 "town" = Ok (VFloat 0) /\
      forall key v,
        In key (map fst d0) -> key <> "town" -> getitem d0 key = Ok v ->
        eligible "name" v key = false) /\
   (exists ths ep s g,
      candidate_thresholds ex_town "town" = Ok ths /\
      In (1 / 25) ths /\
      entropy (class_counts "label" ex_town) (len ex_town) = Ok ep /\
      foldM (sides_step "label" "town" (1 / 25)) ex_town sides0 = Ok s /\
      (p_l s > 1)%Z /\ (p_r s > 1)%Z /\
      gain ep s = Ok g /\ 0 < g) /\
   (exists t b,
      find_split "name" "label" 1 ex_town = Ok (t, b) /\
      IG_attr b = "town" /\ IG_thres b = 1 / 25 /\ 0 < IG b) /\
   learn_tree "name" "label" 1 5 ex_town
   = Some (Ok (LeafNode (VStr "red") 2 4 (2 / 4)))).
Proof.
  split; [| split; [| split; [| split; [| split]]]].
  - intros id_name class_name mlc fuel examples node H.
    exact (learn_tree_never_tests_town _ _ _ _ _ _ H).
  - discriminate.
  - eexists; split; [reflexivity |]; split; [reflexivity |];
      split; [reflexivity |].
    intros key v [<- | [<- | [<- | []]]] Hne Hg; simpl in Hne, Hg;
      try congruence; injection Hg as <-; reflexivity.
  - exists (map (fun i => 0 + (1 - 0) / 25 * INR i) (seq 0 25)),
           (entropy_val P_x 4), s_x, (entropy_val P_x 4).
    split; [exact candidate_thresholds_ex_town |].
    split; [apply in_map_iff; exists 1%nat; split;
            [simpl; lra | apply in_seq; lia] |].
    split; [apply (entropy_ok P_x 4);
            [unfold counts_nonneg, P_x; simpl; lia | lia] |].
    split; [apply sides_town_mid; lra |].
    split; [reflexivity |]; split; [reflexivity |].
    split; [| exact entropy_P_x_pos].
    rewrite gain_ok, gain_s_x by (unfold sides_ok, counts_nonneg, s_x; simpl; lia).
    reflexivity.
  - eexists; eexists; split; [exact find_split_ex_town |].
    cbn [IG_attr IG_thres IG]; repeat split; exact entropy_P_x_pos.
  - exact learn_tree_ex_town.
Qed.

Lemma town_is_never_tested_witness : ~ tests "town" tree_x.
Proof.
  exact (proj1 town_is_never_tested "name" "label" 1%Z 5%nat ex_x tree_x
           learn_tree_ex_x).
Defined.

(** ** A training set on which the recorded split is not the best one *)

Ltac unfold_c1 := unfold ex_c1, ex_c1_lt, ex_c1_ge; cbn [app].

Lemma entropy_P_11_pos : 0 < entropy_val P_11 2.
Proof.
  apply (entropy_val_pos P_11); unfold counts_nonneg, counts_sum; simpl; lia.
Qed.

(** The only estimate of logarithms that the example needs:
    [H(3, 2) > H(1, 1) / 2]. *)
Lemma entropy_P_c1_above : entropy_val P_11 2 / 2 < entropy_val P_c1 5.
Proof.
  unfold entropy_val, P_11, P_c1; cbv zeta;
    cbn [red light_blue medium_blue wicked_blue].
  rewrite !term_val_0; unfold term_val, eps.
  pose proof ln_2_pos as H2.
  set (e := 1 / 1000000000000000).
  assert (H35 : 0 < (3 + e) / (5 + e) < 1) by (unfold e; lra).
  assert (H25 : 0 < (2 + e) / (5 + e) < 1) by (unfold e; lra).
  assert (H12 : 0 < (1 + e) / (2 + e) < 1) by (unfold e; lra).
  assert (Hsq : (3 + e) / (5 + e) * ((2 + e) / (5 + e))
                < (1 + e) / (2 + e) * ((1 + e) / (2 + e))) by (unfold e; lra).
  assert (H23 : 2 / (5 + e) < 3 / (5 + e)) by (unfold e; lra).
  assert (H4 : 1 / (2 + e) < 2 * (2 / (5 + e))) by (unfold e; lra).
  assert (K2 : 0 < 2 / (5 + e)) by (unfold e; lra).
  set (q35 := (3 + e) / (5 + e)) in *.
  set (q25 := (2 + e) / (5 + e)) in *.
  set (q12 := (1 + e) / (2 + e)) in *.
  set (k3 := 3 / (5 + e)) in *.
  set (k2 := 2 / (5 + e)) in *.
  set (k1 := 1 / (2 + e)) in *.
  assert (Ha : ln q35 < 0) by (apply ln_neg; lra).
  assert (Hc : ln q12 < 0) by (apply ln_neg; lra).
  assert (Hab : ln q35 + ln q25 < ln q12 + ln q12).
  { rewrite <- !ln_mult by lra; apply ln_increasing; nra. }
  assert (HL : 0 < / ln 2) by (apply Rinv_0_lt_compat; exact H2).
  assert (HA : ln q35 / ln 2 < 0) by (unfold Rdiv; nra).
  assert (HC : ln q12 / ln 2 < 0) by (unfold Rdiv; nra).
  assert (HAB : ln q35 / ln 2 + ln q25 / ln 2 < ln q12 / ln 2 + ln q12 / ln 2)
    by (unfold Rdiv; nra).
  set (A := ln q35 / ln 2) in *.
  set (B := ln q25 / ln 2) in *.
  set (C := ln q12 / ln 2) in *.
  assert (E1 : (k3 - k2) * A < 0) by nra.
  assert (E2 : k2 * (A + B) < k2 * (C + C)) by nra.
  assert (E3 : (2 * k2 - k1) * C < 0) by nra.
  nra.
Qed.

Lemma gain_s_w (ep : R) : gain_val ep s_w = ep - entropy_val P_11 2 / 2.
Proof.
  unfold gain_val, s_w; cbn [p_l p_r l r].
  rewrite (entropy_val_pure (mkCounts 2 0 0 0)) by (simpl; lia).
  simpl Z.add; lra.
Qed.

Lemma gain_s_11 (ep : R) : gain_val ep s_11 = ep.
Proof.
  unfold gain_val, s_11; cbn [p_l p_r l r].
  rewrite !entropy_val_pure by (simpl; lia); lra.
Qed.

Lemma range_c1_w : foldM (range_step "w") ex_c1 (9999, -9999) = Ok (0, 1).
Proof. eval_range. Qed.

Lemma range_c1_x : foldM (range_step "x") ex_c1 (9999, -9999) = Ok (0, 1).
Proof. eval_range. Qed.

Lemma range_c1_y : foldM (range_step "y") ex_c1 (9999, -9999) = Ok (0, 1).
Proof. eval_range. Qed.

Lemma sides_c1_w_low (th : R) : th <= 0 ->
  foldM (sides_step "label" "w" th) ex_c1 sides0 =
  Ok (mkSides 0 4 zero_counts (mkCounts 3 1 0 0)).
Proof. intros H; eval_sides unfold_c1. Qed.

Lemma sides_c1_w_mid (th : R) : 0 < th -> th <= 1 ->
  foldM (sides_step "label" "w" th) ex_c1 sides0 = Ok s_w.
Proof. intros H0 H1; eval_sides unfold_c1. Qed.

Lemma sides_c1_x_low (th : R) : th <= 0 ->
  foldM (sides_step "label" "x" th) ex_c1 sides0 =
  Ok (mkSides 0 2 zero_counts P_11).
Proof. intros H; eval_sides unfold_c1. Qed.

Lemma sides_c1_x_mid (th : R) : 0 < th -> th <= 1 ->
  foldM (sides_step "label" "x" th) ex_c1 sides0 = Ok s_11.
Proof. intros H0 H1; eval_sides unfold_c1. Qed.

Lemma sides_c1_y_low (th : R) : th <= 0 ->
  foldM (sides_step "label" "y" th) ex_c1 sides0 =
  Ok (mkSides 0 4 zero_counts P_x).
Proof. intros H; eval_sides unfold_c1. Qed.

Lemma sides_c1_y_mid (th : R) : 0 < th -> th <= 1 ->
  foldM (sides_step "label" "y" th) ex_c1 sides0 = Ok s_x.
Proof. intros H0 H1; eval_sides unfold_c1. Qed.

Lemma tally_ex_c1 :
  foldM (tally_step "label") ex_c1 tally0 = Ok (mkTally P_c1 3 (VStr "red") 5).
Proof. reflexivity. Qed.

(** The search on [ex_c1]: the split on [w] is recorded, the split on [x]
    raises [IG] without being recorded, and the split on [y], whose gain
    equals the raised [IG], is passed over. *)
Lemma find_split_ex_c1 :
  find_split "name" "label" 1 ex_c1 =
  Ok (mkTally P_c1 3 (VStr "red") 5, mkBest (entropy_val P_c1 5) (1 / 25) "w" 2 2).
Proof.
  rewrite (find_split_eval _ _ _ _ ex_c1 _ eq_refl tally_ex_c1).
  cbn [map fst parent total row3]; unfold best0.
  pose proof entropy_P_11_pos as Hh.
  pose proof entropy_P_c1_above as Hep.
  pose proof (gain_s_w (entropy_val P_c1 5)) as Gw.
  pose proof (gain_s_11 (entropy_val P_c1 5)) as G11.
  pose proof (gain_s_x (entropy_val P_c1 5)) as Gy.
  skip_attr.
  scan_attr range_c1_w
    ltac:(first [ rewrite sides_c1_w_mid by lra | rewrite sides_c1_w_low by lra ]).
  scan_attr range_c1_x
    ltac:(first [ rewrite sides_c1_x_mid by lra | rewrite sides_c1_x_low by lra ]).
  scan_attr range_c1_y
    ltac:(first [ rewrite sides_c1_y_mid by lra | rewrite sides_c1_y_low by lra ]).
  skip_attr.
  cbn [foldM bind]; rewrite G11; unfold s_w; cbn [p_l p_r].
  do 3 f_equal; lra.
Qed.

Lemma split_ex_c1 : split ex_c1 "w" (1 / 25) = Ok (ex_c1_lt, ex_c1_ge).
Proof.
  rewrite split_eval by solve_keys.
  unfold_c1; eval_filter; reflexivity.
Qed.

(** The left side: one example of each class, no split of two on each
    side. *)

Lemma range_c1_lt_w : foldM (range_step "w") ex_c1_lt (9999, -9999) = Ok (0, 0).
Proof. eval_range. Qed.

Lemma range_c1_lt_x : foldM (range_step "x") ex_c1_lt (9999, -9999) = Ok (0, 1).
Proof. eval_range. Qed.

Lemma range_c1_lt_y : foldM (range_step "y") ex_c1_lt (9999, -9999) = Ok (0, 1).
Proof. eval_range. Qed.

Lemma sides_c1_lt_w (th : R) : th <= 0 ->
  foldM (sides_step "label" "w" th) ex_c1_lt sides0 =
  Ok (mkSides 0 2 zero_counts P_11).
Proof. intros H; eval_sides ltac:(unfold ex_c1_lt). Qed.

Lemma sides_c1_lt_x_low (th : R) : th <= 0 ->
  foldM (sides_step "label" "x" th) ex_c1_lt sides0 =
  Ok (mkSides 0 2 zero_counts P_11).
Proof. intros H; eval_sides ltac:(unfold ex_c1_lt). Qed.

Lemma sides_c1_lt_x_mid (th : R) : 0 < th -> th <= 1 ->
  foldM (sides_step "label" "x" th) ex_c1_lt sides0 = Ok s_11.
Proof. intros H0 H1; eval_sides ltac:(unfold ex_c1_lt). Qed.

Lemma sides_c1_lt_y_low (th : R) : th <= 0 ->
  foldM (sides_step "label" "y" th) ex_c1_lt sides0 =
  Ok (mkSides 0 2 zero_counts P_11).
Proof. intros H; eval_sides ltac:(unfold ex_c1_lt). Qed.

Lemma sides_c1_lt_y_mid (th : R) : 0 < th -> th <= 1 ->
  foldM (sides_step "label" "y" th) ex_c1_lt sides0 = Ok s_11.
Proof. intros H0 H1; eval_sides ltac:(unfold ex_c1_lt). Qed.

Lemma find_split_ex_c1_lt :
  find_split "name" "label" 1 ex_c1_lt =
  Ok (mkTally P_11 1 (VStr "red") 2, mkBest (entropy_val P_11 2) 0 "town" 0 0).
Proof.
  assert (Ht : foldM (tally_step "label") ex_c1_lt tally0 =
               Ok (mkTally P_11 1 (VStr "red") 2)) by reflexivity.
  rewrite (find_split_eval _ _ _ _ ex_c1_lt _ eq_refl Ht).
  cbn [map fst parent total row3]; unfold best0.
  pose proof entropy_P_11_pos as Hh.
  pose proof (gain_s_11 (entropy_val P_11 2)) as G11.
  skip_attr.
  scan_attr range_c1_lt_w ltac:(rewrite sides_c1_lt_w by lra).
  scan_attr range_c1_lt_x
    ltac:(first [ rewrite sides_c1_lt_x_mid by lra
                | rewrite sides_c1_lt_x_low by lra ]).
  scan_attr range_c1_lt_y
    ltac:(first [ rewrite sides_c1_lt_y_mid by lra
                | rewrite sides_c1_lt_y_low by lra ]).
  skip_attr.
  cbn [foldM bind]; rewrite G11; reflexivity.
Qed.

(** The right side: two examples of one class. *)

Lemma range_c1_ge_w : foldM (range_step "w") ex_c1_ge (9999, -9999) = Ok (1, 1).
Proof. eval_range. Qed.

Lemma range_c1_ge_y : foldM (range_step "y") ex_c1_ge (9999, -9999) = Ok (0, 0).
Proof. eval_range. Qed.

Lemma sides_c1_ge_w (th : R) : th <= 1 ->
  foldM (sides_step "label" "w" th) ex_c1_ge sides0 =
  Ok (mkSides 0 2 zero_counts (mkCounts 2 0 0 0)).
Proof. intros H; eval_sides ltac:(unfold ex_c1_ge). Qed.

Lemma sides_c1_ge_y (th : R) : th <= 0 ->
  foldM (sides_step "label" "y" th) ex_c1_ge sides0 =
  Ok (mkSides 0 1 zero_counts (mkCounts 1 0 0 0)).
Proof. intros H; eval_sides ltac:(unfold ex_c1_ge). Qed.

Lemma find_split_ex_c1_ge :
  find_split "name" "label" 1 ex_c1_ge =
  Ok (mkTally (mkCounts 2 0 0 0) 2 (VStr "red") 2, best0).
Proof.
  assert (Ht : foldM (tally_step "label") ex_c1_ge tally0 =
               Ok (mkTally (mkCounts 2 0 0 0) 2 (VStr "red") 2)) by reflexivity.
  rewrite (find_split_eval _ _ _ _ ex_c1_ge _ eq_refl Ht).
  cbn [map fst parent total row3]; unfold best0.
  skip_attr.
  scan_attr range_c1_ge_w ltac:(rewrite sides_c1_ge_w by lra).
  skip_attr.
  scan_attr range_c1_ge_y ltac:(rewrite sides_c1_ge_y by lra).
  skip_attr.
  reflexivity.
Qed.

Lemma learn_tree_ex_c1 : learn_tree "name" "label" 1 6 ex_c1 = Some (Ok tree_c1).
Proof.
  apply (learn_tree_node _ _ _ _ _ _ _ _ _ _ _ _ find_split_ex_c1 eq_refl split_ex_c1).
  - rewrite (learn_tree_leaf _ _ _ _ _ _ _ find_split_ex_c1_lt eq_refl).
    cbn [majority pred_class_count total]; rewrite LeafNode_init_ok by lia.
    reflexivity.
  - rewrite (learn_tree_leaf _ _ _ _ _ _ _ find_split_ex_c1_ge eq_refl).
    cbn [majority pred_class_count total]; rewrite LeafNode_init_ok by lia.
    reflexivity.
  - cbn [majority pred_class_count total]; rewrite LeafNode_init_ok by lia.
    reflexivity.
Qed.

Lemma candidate_thresholds_c1 (key : string) :
  foldM (range_step key) ex_c1 (9999, -9999) = Ok (0, 1) ->
  candidate_thresholds ex_c1 key
  = Ok (map (fun i => 0 + (1 - 0) / 25 * INR i) (seq 0 25)).
Proof.
  intros H; unfold candidate_thresholds; rewrite H; cbn [bind fst snd].
  rewrite thres_trace_from_bottom; reflexivity.
Qed.

Lemma In_thresholds_1_25 :
  In (1 / 25) (map (fun i => 0 + (1 - 0) / 25 * INR i) (seq 0 25)).
Proof.
  apply in_map_iff; exists 1%nat; split; [simpl; lra | apply in_seq; lia].
Qed.

(** C1, at a failing input.  On the five examples of [ex_c1], with
    [min_leaf_count = 1], [learn_tree] returns a decision node that splits on
    [w] at 1/25.  The candidate [(y, 1/25)] is scanned as well, has two
    examples on each side, and its gain is strictly larger than the gain of
    the split that is used: among the scanned candidates with both sides
    above [min_leaf_count] the recorded one is not of maximal gain.  The
    reason is the candidate [(x, 1/25)], which is met in between: it has one
    example on each side, so it is not recorded, but its gain has raised
    [IG] to the gain of [(y, 1/25)]. *)
Theorem recorded_split_is_not_the_best :
  learn_tree "name" "label" 1 6 ex_c1 = Some (Ok tree_c1) /\
  exists ths ep g_w g_x g_y,
    entropy (class_counts "label" ex_c1) (len ex_c1) = Ok ep /\
    candidate_thresholds ex_c1 "w" = Ok ths /\
    candidate_thresholds ex_c1 "x" = Ok ths /\
    candidate_thresholds ex_c1 "y" = Ok ths /\
    In (1 / 25) ths /\
    foldM (sides_step "label" "w" (1 / 25)) ex_c1 sides0 = Ok s_w /\
    foldM (sides_step "label" "x" (1 / 25)) ex_c1 sides0 = Ok s_11 /\
    foldM (sides_step "label" "y" (1 / 25)) ex_c1 sides0 = Ok s_x /\
    gain ep s_w = Ok g_w /\ gain ep s_11 = Ok g_x /\ gain ep s_x = Ok g_y /\
    (p_l s_x > 1)%Z /\ (p_r s_x > 1)%Z /\
    (p_l s_11 <= 1)%Z /\
    0 < g_w /\ g_w < g_y /\ g_x = g_y.
Proof.
  split; [exact learn_tree_ex_c1 |].
  exists (map (fun i => 0 + (1 - 0) / 25 * INR i) (seq 0 25)),
         (entropy_val P_c1 5),
         (entropy_val P_c1 5 - entropy_val P_11 2 / 2),
         (entropy_val P_c1 5), (entropy_val P_c1 5).
  pose proof entropy_P_11_pos as Hh.
  pose proof entropy_P_c1_above as Hep.
  split; [apply (entropy_ok P_c1 5);
          [unfold counts_nonneg, P_c1; simpl; lia | lia] |].
  split; [exact (candidate_thresholds_c1 "w" range_c1_w) |].
  split; [exact (candidate_thresholds_c1 "x" range_c1_x) |].
  split; [exact (candidate_thresholds_c1 "y" range_c1_y) |].
  split; [exact In_thresholds_1_25 |].
  split; [apply sides_c1_w_mid; lra |].
  split; [apply sides_c1_x_mid; lra |].
  split; [apply sides_c1_y_mid; lra |].
  split; [rewrite gain_ok, gain_s_w by solve_sides_ok; reflexivity |].
  split; [rewrite gain_ok, gain_s_11 by solve_sides_ok; reflexivity |].
  split; [rewrite gain_ok, gain_s_x by solve_sides_ok; reflexivity |].
  split; [reflexivity |]; split; [reflexivity |].
  split; [simpl; lia |].
  repeat split; lra.
Qed.

(** ** A training set whose first example misses the value of an attribute *)

Lemma tally_ex_c3 :
  foldM (tally_step "label") ex_c3 tally0 = Ok (mkTally P_c1 3 (VStr "red") 5).
Proof. reflexivity. Qed.

Lemma find_split_ex_c3 :
  find_split "name" "label" 1 ex_c3 = Ok (mkTally P_c1 3 (VStr "red") 5, best0).
Proof.
  rewrite (find_split_eval _ _ _ _ ex_c3 _ eq_refl tally_ex_c3).
  cbn [map fst parent total row].
  skip_attr. skip_attr. skip_attr.
  reflexivity.
Qed.

Lemma sides_c3_mid (th : R) : 0 < th -> th <= 1 ->
  foldM (sides_step "label" "x" th) ex_c3 sides0 = Ok s_x.
Proof. intros H0 H1; eval_sides ltac:(unfold ex_c3). Qed.

(** C3, at a failing input.  In [ex_c3] the attribute [x] is not the
    identifier, it is numeric, and four of the five examples have a value for
    it; but the first example has none, and the test that guards the scan,
    which looks at the first example only and whose [type(...) is None] never
    holds, leaves [x] out.  No attribute is scanned and [learn_tree] returns
    a leaf, although the candidate [(x, 1/25)] has two examples on each side
    and a positive gain. *)
Theorem attribute_with_first_value_missing_is_skipped :
  "x" <> "name" /\
  defined_values "x" ex_c3 = [0; 0; 1; 1] /\
  (exists d0, first ex_c3 = Ok d0 /\ getitem d0 "x" = Ok VNone) /\
  eligible "name" VNone "x" = false /\
  (forall entropy_parent b,
     attr_step "name" "label" 1 ex_c3 entropy_parent b "x" = Ok b) /\
  learn_tree "name" "label" 1 6 ex_c3
  = Some (Ok (LeafNode (VStr "red") 3 5 (3 / 5))) /\
  exists ep g,
    entropy (class_counts "label" ex_c3) (len ex_c3) = Ok ep /\
    foldM (sides_step "label" "x" (1 / 25)) ex_c3 sides0 = Ok s_x /\
    (p_l s_x > 1)%Z /\ (p_r s_x > 1)%Z /\
    gain ep s_x = Ok g /\ 0 < g.
Proof.
  split; [discriminate |].
  split; [reflexivity |].
  split; [eexists; split; reflexivity |].
  split; [reflexivity |].
  split; [intros ep b;
          apply (attr_step_skip _ _ _ (row "a" "x" VNone "red") ex_c3 ep b "x" VNone);
          reflexivity |].
  split.
  - rewrite (learn_tree_leaf _ _ _ _ _ _ _ find_split_ex_c3 eq_refl).
    cbn [majority pred_class_count total]; rewrite LeafNode_init_ok by lia.
    reflexivity.
  - exists (entropy_val P_c1 5), (entropy_val P_c1 5).
    split; [apply (entropy_ok P_c1 5);
            [unfold counts_nonneg, P_c1; simpl; lia | lia] |].
    split; [apply sides_c3_mid; lra |].
    split; [reflexivity |]; split; [reflexivity |].
    split; [rewrite gain_ok, gain_s_x by solve_sides_ok; reflexivity |].
    pose proof entropy_P_11_pos; pose proof entropy_P_c1_above; lra.
Qed.

(** * Further properties of the code *)

(** ** Which exceptions the learner can raise *)

Lemma only_KeyError_bind {A B : Type} (c : result A) (k : A -> result B) :
  only_KeyError c -> (forall a, c = Ok a -> only_KeyError (k a)) ->
  only_KeyError (bind c k).
Proof.
  intros Hc Hk e; destruct c as [a | e']; simpl.
  - apply (Hk a eq_refl).
  - intros H; injection H as <-; apply Hc; reflexivity.
Qed.

Lemma only_KeyError_Ok {A : Type} (a : A) : only_KeyError (Ok a).
Proof. intros e H; discriminate. Qed.

Lemma only_KeyError_foldM {A B : Type} (P : A -> Prop) (body : A -> B -> result A) :
  (forall a x, P a -> only_KeyError (body a x)) ->
  (forall a x a', P a -> body a x = Ok a' -> P a') ->
  forall l a, P a -> only_KeyError (foldM body l a).
Proof.
  intros Hb Hp l; induction l as [| x l IH]; intros a Pa; simpl.
  - apply only_KeyError_Ok.
  - apply only_KeyError_bind; [apply Hb, Pa |].
    intros a' Ha'; apply IH; eapply Hp; eassumption.
Qed.

Lemma only_KeyError_getitem (d : example) (k : string) :
  only_KeyError (getitem d k).
Proof.
  unfold getitem; intros e; destruct (lookup k d); intros H;
    [discriminate | injection H as <-; reflexivity].
Qed.

Lemma only_KeyError_counts_incr (c : counts) (k : value) :
  only_KeyError (counts_incr c k).
Proof.
  intros e; destruct k as [f | s |]; simpl; try (intros H; congruence).
  string_cases s; intros H; congruence.
Qed.

Lemma only_KeyError_counts_get (c : counts) (k : value) :
  only_KeyError (counts_get c k).
Proof.
  intros e; destruct k as [f | s |]; simpl; try (intros H; congruence).
  string_cases s; intros H; congruence.
Qed.

Lemma only_KeyError_tally_step (class_name : string) (t : tally) (d : example) :
  only_KeyError (tally_step class_name t d).
Proof.
  unfold tally_step.
  apply only_KeyError_bind; [apply only_KeyError_getitem | intros label _].
  apply only_KeyError_bind; [apply only_KeyError_counts_incr | intros c' _].
  apply only_KeyError_bind; [apply only_KeyError_counts_get | intros n _].
  apply only_KeyError_Ok.
Qed.

Lemma only_KeyError_range_step (key : string) (bt : R * R) (d : example) :
  only_KeyError (range_step key bt d).
Proof.
  unfold range_step.
  apply only_KeyError_bind; [apply only_KeyError_getitem | intros v _].
  destruct v; apply only_KeyError_Ok.
Qed.

Lemma only_KeyError_sides_step (class_name key : string) (thres : R)
  (s : sides) (d : example) :
  only_KeyError (sides_step class_name key thres s d).
Proof.
  unfold sides_step.
  apply only_KeyError_bind; [apply only_KeyError_getitem | intros v _].
  destruct v as [f | s' |]; try apply only_KeyError_Ok.
  destruct (Rgeb f thres);
    (apply only_KeyError_bind; [apply only_KeyError_getitem | intros label _];
     apply only_KeyError_bind; [apply only_KeyError_counts_incr | intros c' _];
     apply only_KeyError_Ok).
Qed.

Lemma only_KeyError_split_step (attr : string) (thres : R)
  (lr : list example * list example) (d : example) :
  only_KeyError (split_step attr thres lr d).
Proof.
  unfold split_step.
  apply only_KeyError_bind; [apply only_KeyError_getitem | intros v _].
  destruct v as [f | s' |]; try apply only_KeyError_Ok.
  destruct (Rgeb f thres); apply only_KeyError_Ok.
Qed.

(** The counting loop keeps its counts sound. *)
Lemma sides_step_sound (class_name key : string) (thres : R) (s s' : sides)
  (d : example) :
  sides_sound s -> sides_step class_name key thres s d = Ok s' -> sides_sound s'.
Proof.
  intros Hs H; unfold sides_step in H.
  inv_bind H.
  destruct a as [f | v |]; [| inv_Ok H; exact Hs | inv_Ok H; exact Hs].
  destruct Hs as (Hl & Hr & Hpl & Hpr).
  destruct (Rgeb f thres); inv_bind H; inv_bind H; inv_Ok H;
    unfold sides_sound; cbn [p_l p_r l r];
    (split; [| split; [| split]]); try assumption; try lia;
    eapply counts_incr_nonneg; eassumption.
Qed.

Lemma sides_fold_sound (class_name key : string) (thres : R)
  (examples : list example) (s : sides) :
  foldM (sides_step class_name key thres) examples sides0 = Ok s ->
  sides_sound s.
Proof.
  apply (foldM_invariant sides_sound).
  - intros a x a' Ha Hs; eapply sides_step_sound; eassumption.
  - unfold sides_sound, sides0, counts_nonneg, zero_counts; simpl.
    repeat split; lia.
Qed.

(** On sound counts the gain is computed without an exception. *)
Lemma consider_total (min_leaf_count : Z) (entropy_parent : R) (key : string)
  (thres : R) (s : sides) (b : best) :
  sides_sound s ->
  exists b', consider min_leaf_count entropy_parent key thres s b = Ok b'.
Proof.
  intros (Hl & Hr & Hpl & Hpr); unfold consider.
  destruct (negb (p_r s =? 0)%Z && negb (p_l s =? 0)%Z) eqn:Hne;
    [| eexists; reflexivity].
  apply andb_prop in Hne as (H1 & H2).
  apply negb_true_iff, Z.eqb_neq in H1, H2.
  rewrite gain_ok
    by (unfold sides_ok; split; [exact Hl | split; [exact Hr | lia]]).
  cbn [bind]; destruct (Rneqb _ _ && _); eexists; reflexivity.
Qed.

Section ErrorModes.

Variables (id_name class_name : string) (min_leaf_count : Z).

Lemma only_KeyError_thres_loop (examples : list example) (entropy_parent : R)
  (key : string) (seg : R) (n : nat) :
  forall thres b,
    only_KeyError
      (thres_loop class_name min_leaf_count examples entropy_parent key seg n
         thres b).
Proof.
  induction n as [| n IH]; intros thres b; cbn [thres_loop].
  - apply only_KeyError_Ok.
  - apply only_KeyError_bind.
    + apply (only_KeyError_foldM (fun _ => True)); auto.
      intros a x _; apply only_KeyError_sides_step.
    + intros s Hs; apply sides_fold_sound in Hs.
      destruct (consider_total min_leaf_count entropy_parent key
                  (thres + seg) s b Hs) as (b' & ->).
      cbn [bind]; apply IH.
Qed.

Lemma only_KeyError_attr_step (examples : list example) (entropy_parent : R)
  (b : best) (key : string) :
  examples <> [] ->
  only_KeyError
    (attr_step id_name class_name min_leaf_count examples entropy_parent b key).
Proof.
  intros Hne; unfold attr_step.
  destruct examples as [| d0 examples']; [congruence |].
  cbn [first bind].
  apply only_KeyError_bind; [apply only_KeyError_getitem | intros v0 _].
  destruct (eligible id_name v0 key); [| apply only_KeyError_Ok].
  apply only_KeyError_bind.
  - apply (only_KeyError_foldM (fun _ => True)); auto.
    intros a x _; apply only_KeyError_range_step.
  - intros bt _; apply only_KeyError_thres_loop.
Qed.

(** The search raises [IndexError] on the empty list and nothing but
    [KeyError] otherwise. *)
Lemma find_split_errors (examples : list example) (e : exn) :
  find_split id_name class_name min_leaf_count examples = Raise e ->
  (examples = [] /\ e = IndexError) \/ (examples <> [] /\ e = KeyError).
Proof.
  unfold find_split; intros H.
  destruct (foldM (tally_step class_name) examples tally0) as [t | e'] eqn:Ht.
  - cbn [bind] in H.
    pose proof (tally_inv_fold _ _ _ Ht) as (Hnn & _ & _ & Htot).
    rewrite entropy_ok in H;
      [| exact Hnn
       | destruct Hnn as (? & ? & ? & ?); rewrite Htot; unfold counts_sum; lia].
    cbn [bind] in H.
    destruct examples as [| d0 examples']; [left; simpl in H; split; congruence |].
    right; split; [discriminate |].
    cbn [first bind] in H.
    assert (Hk : only_KeyError
                   (foldM (attr_step id_name class_name min_leaf_count
                             (d0 :: examples') (entropy_val (parent t) (total t)))
                      (map fst d0) best0)).
    { apply (only_KeyError_foldM (fun _ => True)); auto.
      intros a x _; apply only_KeyError_attr_step; discriminate. }
    destruct (foldM _ (map fst d0) best0) as [b | e''] eqn:Hb.
    + discriminate.
    + cbn [bind] in H; injection H as <-; apply Hk; reflexivity.
  - cbn [bind] in H; injection H as <-.
    assert (Hk : only_KeyError (foldM (tally_step class_name) examples tally0)).
    { apply (only_KeyError_foldM (fun _ => True)); auto.
      intros a x _; apply only_KeyError_tally_step. }
    destruct examples as [| d0 examples']; [simpl in Ht; discriminate |].
    right; split; [discriminate | apply Hk, Ht].
Qed.

End ErrorModes.

Section ErrorModesOfLearning.

Variables (id_name class_name : string) (min_leaf_count : Z).

Lemma leaf_of_search_ok (examples : list example) (t : tally) (b : best) :
  find_split id_name class_name min_leaf_count examples = Ok (t, b) ->
  LeafNode_init (majority t) (pred_class_count t) (total t)
  = Ok (LeafNode (majority t) (pred_class_count t) (total t)
          (IZR (pred_class_count t) / IZR (total t))).
Proof.
  intros Hf; apply LeafNode_init_ok.
  pose proof (find_split_tally _ _ _ _ _ _ Hf) as (_ & _ & _ & _ & Hcnt); lia.
Qed.

(** X1.  [learn_tree] raises [IndexError] when it is given no example, and
    nothing but [KeyError] when it is given some: it never divides by zero,
    never takes the logarithm of a number that is not positive, and never
    compares a string with a number. *)
Theorem learn_tree_errors (fuel : nat) :
  forall (examples : list example) (e : exn),
    learn_tree id_name class_name min_leaf_count fuel examples = Some (Raise e) ->
    (examples = [] /\ e = IndexError) \/ (examples <> [] /\ e = KeyError).
Proof.
  induction fuel as [| fuel IH]; intros examples e H; [discriminate |].
  cbn [learn_tree] in H.
  destruct (find_split id_name class_name min_leaf_count examples)
    as [[t b] | e'] eqn:Hf.
  - pose proof (find_split_inv _ _ _ _ _ _ Hf) as (_ & Hne & _).
    pose proof (leaf_of_search_ok _ _ _ Hf) as Hleaf.
    destruct (stop min_leaf_count t b) eqn:Hstop.
    + rewrite Hleaf in H; discriminate.
    + destruct (split examples (IG_attr b) (IG_thres b)) as [[el er] | e'] eqn:Hs.
      * destruct (split_shrinks _ _ _ _ _ _ _ _ Hf Hstop Hs) as ((Hl & _) & (Hr & _)).
        assert (Hel : el <> []) by (intros ->; simpl in Hl; lia).
        assert (Her : er <> []) by (intros ->; simpl in Hr; lia).
        destruct (learn_tree id_name class_name min_leaf_count fuel el)
          as [[clt | e1] |] eqn:H1; try discriminate.
        -- destruct (learn_tree id_name class_name min_leaf_count fuel er)
             as [[cge | e2] |] eqn:H2; try discriminate.
           ++ rewrite Hleaf in H; cbn [bind] in H.
              destruct (Z.gtb (len er) (len el)); discriminate.
           ++ injection H as <-.
              destruct (IH _ _ H2) as [(? & _) | (_ & ->)];
                [contradiction | right; auto].
        -- injection H as <-.
           destruct (IH _ _ H1) as [(? & _) | (_ & ->)];
             [contradiction | right; auto].
      * injection H as <-; right; split; [exact Hne |].
        assert (Hk : only_KeyError (split examples (IG_attr b) (IG_thres b))).
        { apply (only_KeyError_foldM (fun _ => True)); auto.
          intros a x _; apply only_KeyError_split_step. }
        apply Hk, Hs.
  - injection H as <-; apply (find_split_errors _ _ _ _ _ Hf).
Qed.

End ErrorModesOfLearning.

Lemma find_split_ex_ragged :
  find_split "name" "label" 1 ex_ragged = Raise KeyError.
Proof.
  assert (Ht : foldM (tally_step "label") ex_ragged tally0
               = Ok (mkTally (mkCounts 2 0 0 0) 2 (VStr "red") 2))
    by reflexivity.
  rewrite (find_split_eval "name" "label" 1 (row "a" "x" (VFloat 0) "red")
             ex_ragged _ eq_refl Ht).
  cbn [map fst row].
  skip_attr.
  rewrite foldM_cons; unfold attr_step; cbn [first bind].
  reflexivity.
Qed.

Lemma learn_tree_ex_ragged :
  learn_tree "name" "label" 1 3 ex_ragged = Some (Raise KeyError).
Proof. cbn [learn_tree]; rewrite find_split_ex_ragged; reflexivity. Qed.

Lemma learn_tree_errors_witness :
  (ex_ragged = [] /\ KeyError = IndexError) \/
  (ex_ragged <> [] /\ KeyError = KeyError).
Proof.
  exact (learn_tree_errors "name" "label" 1 3 ex_ragged KeyError
           learn_tree_ex_ragged).
Defined.

(** ** What the chosen split satisfies *)

Lemma eligible_true (id_name : string) (v0 : value) (key : string) :
  eligible id_name v0 key = true ->
  (exists f, v0 = VFloat f) /\ key <> id_name.
Proof.
  unfold eligible, type_is_None; rewrite orb_false_r; intros H.
  apply andb_prop in H as (Hf & Hk).
  apply negb_true_iff, String.eqb_neq in Hk.
  destruct v0 as [f | s |]; try discriminate.
  split; [exists f; reflexivity | exact Hk].
Qed.

Section Chosen.

Variables (id_name class_name : string) (min_leaf_count : Z).
Variable examples : list example.
Variable entropy_parent : R.

Local Abbreviation inv :=
  (search_inv id_name class_name min_leaf_count examples entropy_parent).

Lemma consider_search_inv (d0 : example) (f : R) (key : string) (thres : R)
  (s : sides) (b b' : best) :
  first examples = Ok d0 -> getitem d0 key = Ok (VFloat f) -> key <> id_name ->
  foldM (sides_step class_name key thres) examples sides0 = Ok s ->
  consider min_leaf_count entropy_parent key thres s b = Ok b' ->
  inv b -> inv b'.
Proof.
  intros Hd0 Hg Hk Hs H (Hpos & Hb); unfold consider in H.
  destruct (negb (p_r s =? 0)%Z && negb (p_l s =? 0)%Z) eqn:Hne;
    [| inv_Ok H; split; assumption].
  inv_bind H. rename a into g.
  pose proof (py_max_le (IG b) g) as (Hle1 & Hle2).
  destruct (Rneqb _ _ && _) eqn:Hc; inv_Ok H.
  - apply andb_prop in Hc as (Hneq & Hsz).
    apply andb_prop in Hsz as (Hgl & Hgr).
    apply Z.gtb_lt in Hgl, Hgr.
    apply Rneqb_true in Hneq.
    destruct (py_max_cases (IG b) g) as [(Hlt & E) | (_ & E)];
      [| congruence].
    split; cbn [IG]; [lra |].
    right; exists d0, f, s, g; cbn [IG IG_attr IG_thres].
    rewrite E; repeat split; try assumption; try lia; lra.
  - split; cbn [IG]; [lra |].
    destruct Hb as [Hb | (d1 & f1 & s1 & g1 & C1 & C2 & C3 & C4 & C5 & C6 & C7 & C8 & C9)];
      [left; exact Hb |].
    right; exists d1, f1, s1, g1; cbn [IG IG_attr IG_thres].
    repeat split; try assumption; lra.
Qed.

Lemma thres_loop_search_inv (d0 : example) (f : R) (key : string) (seg : R)
  (n : nat) :
  first examples = Ok d0 -> getitem d0 key = Ok (VFloat f) -> key <> id_name ->
  forall thres b b',
    thres_loop class_name min_leaf_count examples entropy_parent key seg n thres b
    = Ok b' ->
    inv b -> inv b'.
Proof.
  intros Hd0 Hg Hk; induction n as [| n IH]; intros thres b b' H Hb;
    cbn [thres_loop] in H.
  - inv_Ok H; exact Hb.
  - inv_bind H. inv_bind H.
    eapply IH; [exact H |].
    eapply consider_search_inv; eassumption.
Qed.

Lemma attr_step_search_inv (key : string) (b b' : best) :
  attr_step id_name class_name min_leaf_count examples entropy_parent b key = Ok b' ->
  inv b -> inv b'.
Proof.
  intros H Hb; unfold attr_step in H.
  inv_bind H. inv_bind H.
  destruct (eligible id_name a0 key) eqn:He; [| inv_Ok H; exact Hb].
  apply eligible_true in He as ((f & ->) & Hk).
  inv_bind H.
  eapply thres_loop_search_inv; eassumption.
Qed.

End Chosen.

Section ChosenSplit.

Variables (id_name class_name : string) (min_leaf_count : Z).

Lemma find_split_search_inv (examples : list example) (t : tally) (b : best) :
  find_split id_name class_name min_leaf_count examples = Ok (t, b) ->
  entropy (class_counts class_name examples) (len examples)
  = Ok (entropy_val (class_counts class_name examples) (len examples)) /\
  search_inv id_name class_name min_leaf_count examples
    (entropy_val (class_counts class_name examples) (len examples)) b.
Proof.
  intros H.
  pose proof (find_split_tally _ _ _ _ _ _ H) as (Hp & Htot & _).
  unfold find_split in H.
  inv_bind H. inv_bind H. inv_bind H. inv_bind H. inv_Ok H.
  rewrite Hp, Htot in H1.
  pose proof (tally_inv_fold _ _ _ H0) as (Hnn & _ & _ & Hsum).
  rewrite Hp in Hnn.
  assert (Hlen : (0 <= len examples)%Z) by (unfold len; lia).
  rewrite (entropy_ok _ _ Hnn Hlen) in H1; inv_Ok H1.
  split; [apply entropy_ok; assumption |].
  eapply (foldM_invariant
            (search_inv id_name class_name min_leaf_count examples _));
    [| | exact H3].
  - intros b0 key b1 Hb0 Hs; eapply attr_step_search_inv; eassumption.
  - split; [simpl; lra | left; reflexivity].
Qed.

(** What the search and the stopping test leave of a split that is made. *)
Lemma decision_node_split (fuel : nat) (examples : list example)
  (attr : string) (thres : R) (child_lt child_ge child_miss : TreeNode) :
  learn_tree id_name class_name min_leaf_count fuel examples
  = Some (Ok (DecisionNode attr thres child_lt child_ge child_miss)) ->
  (exists d0 f, first examples = Ok d0 /\ getitem d0 attr = Ok (VFloat f)) /\
  attr <> id_name /\ attr <> class_name /\
  (len examples > min_leaf_count)%Z /\
  exists ep s g,
    entropy (class_counts class_name examples) (len examples) = Ok ep /\
    foldM (sides_step class_name attr thres) examples sides0 = Ok s /\
    (p_l s > min_leaf_count)%Z /\ (p_r s > min_leaf_count)%Z /\
    gain ep s = Ok g /\ 0 < g.
Proof.
  intros H.
  apply learn_tree_Ok_inv in H as (fuel' & t & b & _ & Hf & [(_ & Hleaf) | H]).
  { apply LeafNode_init_Ok_inv in Hleaf as (_ & Hleaf); discriminate. }
  destruct H as (Hstop & el & er & clt & cge & cm & _ & _ & _ & _ & Hnode).
  injection Hnode as -> -> -> -> ->.
  pose proof (find_split_search_inv _ _ _ Hf) as (Hep & _ & Hinv).
  pose proof (find_split_tally _ _ _ _ _ _ Hf) as (_ & Htot & _).
  pose proof (find_split_inv _ _ _ _ _ _ Hf) as (Ht & _ & _).
  apply tally_fold_spec in Ht as (_ & _ & Hall).
  unfold stop in Hstop; apply orb_false_iff in Hstop as (Htown & Hlen).
  apply String.eqb_neq in Htown; apply Z.leb_gt in Hlen.
  destruct Hinv as [Hb | (d0 & f & s & g & C1 & C2 & C3 & C4 & C5 & C6 & C7 & C8 & _)];
    [contradiction |].
  split; [exists d0, f; auto |].
  split; [exact C3 |].
  split.
  - (* the class value of the first example is a string *)
    intros E; rewrite E in C2.
    destruct examples as [| d examples']; [discriminate |].
    injection C1 as <-.
    inversion Hall as [| ? ? (c & Hc & _) _]; subst.
    congruence.
  - split; [lia |].
    eexists; exists s, g; repeat split; eassumption.
Qed.

(** X2.  The split of a decision node that [learn_tree] returns is on an
    attribute that is numeric in the first example of the call and is neither
    the identifier nor the class attribute; over the examples of the call it
    has more than [min_leaf_count] examples on each side and a positive
    information gain; and the call was given more than [min_leaf_count]
    examples. *)
Theorem chosen_split_properties (fuel : nat) (examples : list example)
  (attr : string) (thres : R) (child_lt child_ge child_miss : TreeNode) :
  learn_tree id_name class_name min_leaf_count fuel examples
  = Some (Ok (DecisionNode attr thres child_lt child_ge child_miss)) ->
  (exists d0 f, first examples = Ok d0 /\ getitem d0 attr = Ok (VFloat f)) /\
  attr <> id_name /\ attr <> class_name /\
  (len examples > min_leaf_count)%Z /\
  exists ep s g,
    entropy (class_counts class_name examples) (len examples) = Ok ep /\
    foldM (sides_step class_name attr thres) examples sides0 = Ok s /\
    (p_l s > min_leaf_count)%Z /\ (p_r s > min_leaf_count)%Z /\
    gain ep s = Ok g /\ 0 < g.
Proof. exact (decision_node_split fuel examples attr thres child_lt child_ge child_miss). Qed.

End ChosenSplit.

Lemma chosen_split_properties_witness :
  (exists d0 f, first ex_x = Ok d0 /\ getitem d0 "x" = Ok (VFloat f)) /\
  "x" <> "name" /\ "x" <> "label" /\
  (len ex_x > 1)%Z /\
  exists ep s g,
    entropy (class_counts "label" ex_x) (len ex_x) = Ok ep /\
    foldM (sides_step "label" "x" (1 / 25)) ex_x sides0 = Ok s /\
    (p_l s > 1)%Z /\ (p_r s > 1)%Z /\
    gain ep s = Ok g /\ 0 < g.
Proof.
  exact (chosen_split_properties "name" "label" 1 5 ex_x "x" (1 / 25) _ _ _
           learn_tree_ex_x).
Defined.

Section TreeShape.

Variables (id_name class_name : string) (min_leaf_count : Z).

(** The tested attributes of a learned tree. *)
Lemma learned_tests_neither (fuel : nat) :
  forall (examples : list example) (node : TreeNode),
    learn_tree id_name class_name min_leaf_count fuel examples = Some (Ok node) ->
    ~ tests id_name node /\ ~ tests class_name node.
Proof.
  induction fuel as [| fuel IH]; intros examples node H; [discriminate |].
  pose proof H as H0.
  apply learn_tree_Ok_inv in H as (fuel' & t & b & Ef & Hf & H).
  injection Ef as <-.
  destruct H as [(_ & Hleaf) | (_ & el & er & clt & cge & cm & _ & Hl & Hr & Hm & ->)].
  - apply LeafNode_init_Ok_inv in Hleaf as (_ & ->); simpl; tauto.
  - apply LeafNode_init_Ok_inv in Hm as (_ & Hm).
    pose proof (decision_node_split _ _ _ _ _ _ _ _ _ _ H0)
      as (_ & Hid & Hcl & _).
    destruct (IH _ _ Hl) as (Il1 & Il2), (IH _ _ Hr) as (Ir1 & Ir2).
    rewrite Hm; simpl; tauto.
Qed.

(** X3.  No decision node of a tree that [learn_tree] returns tests the
    identifier attribute or the class attribute. *)
Theorem never_tests_id_or_class (fuel : nat) :
  forall (examples : list example) (node : TreeNode),
    learn_tree id_name class_name min_leaf_count fuel examples = Some (Ok node) ->
    ~ tests id_name node /\ ~ tests class_name node.
Proof. exact (learned_tests_neither fuel). Qed.

(** The two lists of a chosen split are as long as the counts of its
    sides. *)
Lemma split_lengths (examples : list example) (t : tally) (b : best)
  (examples_l examples_r : list example) :
  find_split id_name class_name min_leaf_count examples = Ok (t, b) ->
  stop min_leaf_count t b = false ->
  split examples (IG_attr b) (IG_thres b) = Ok (examples_l, examples_r) ->
  (len examples_l > min_leaf_count)%Z /\ (len examples_r > min_leaf_count)%Z /\
  (len examples_l + len examples_r <= len examples)%Z.
Proof.
  intros Hf Hstop Hsplit.
  apply find_split_inv in Hf as (_ & _ & Hb).
  unfold stop in Hstop; apply orb_false_iff in Hstop as (Htown & _).
  apply String.eqb_neq in Htown.
  destruct Hb as [Hb | (s & Hs & _ & _ & Hl & Hr & _)]; [contradiction |].
  apply sides_fold_filter in Hs as (Hpl & Hpr); simpl in Hpl, Hpr.
  apply split_filter in Hsplit as (-> & ->).
  pose proof (filter_left_right_length (IG_attr b) (IG_thres b) examples).
  unfold len in *; lia.
Qed.

(** X4.  A list of at most [min_leaf_count] examples is never split.  In a
    tree that is learned from a longer list, every leaf that is reached
    through [child_lt] and [child_ge] holds more than [min_leaf_count]
    examples; and the [total_count]s of these leaves add up to at most the
    number of examples, the examples without a value for a tested attribute
    being dropped on the way down. *)
Theorem min_leaf_count_respected (fuel : nat) :
  forall (examples : list example) (node : TreeNode),
    learn_tree id_name class_name min_leaf_count fuel examples = Some (Ok node) ->
    ((len examples <= min_leaf_count)%Z ->
     exists c n p, node = LeafNode c n (len examples) p) /\
    ((min_leaf_count < len examples)%Z ->
     Forall (fun tot => (min_leaf_count < tot)%Z) (branch_totals node)) /\
    (sumZ (branch_totals node) <= len examples)%Z.
Proof.
  induction fuel as [| fuel IH]; intros examples node H; [discriminate |].
  apply learn_tree_Ok_inv in H as (fuel' & t & b & Ef & Hf & H).
  injection Ef as <-.
  pose proof (find_split_tally _ _ _ _ _ _ Hf) as (_ & Htot & _).
  destruct H as [(_ & Hleaf) |
                 (Hstop & el & er & clt & cge & cm & Hs & Hl & Hr & Hm & ->)].
  - apply LeafNode_init_Ok_inv in Hleaf as (_ & ->).
    rewrite Htot; simpl.
    split; [intros _; eauto |].
    split; [intros Hlt; constructor; [exact Hlt | constructor] | lia].
  - destruct (split_lengths _ _ _ _ _ Hf Hstop Hs) as (Ll & Lr & Lsum).
    destruct (IH _ _ Hl) as (_ & Al & Sl), (IH _ _ Hr) as (_ & Ar & Sr).
    split; [| split].
    + intros Hle.
      unfold stop in Hstop; apply orb_false_iff in Hstop as (_ & Hlen).
      apply Z.leb_gt in Hlen; lia.
    + intros _; cbn [branch_totals]; apply Forall_app; split;
        [apply Al | apply Ar]; lia.
    + cbn [branch_totals]; unfold sumZ in *; rewrite fold_right_app.
      assert (Hadd : forall zs acc,
                 fold_right Z.add acc zs = (fold_right Z.add 0 zs + acc)%Z).
      { induction zs as [| z zs IHzs]; intros acc; simpl; [lia |].
        rewrite IHzs; lia. }
      rewrite Hadd; lia.
Qed.

End TreeShape.

Lemma never_tests_id_or_class_witness :
  ~ tests "name" tree_x /\ ~ tests "label" tree_x.
Proof.
  exact (never_tests_id_or_class "name" "label" 1 5 ex_x tree_x learn_tree_ex_x).
Defined.

Lemma min_leaf_count_respected_witness :
  ((len ex_x <= 1)%Z -> exists c n p, tree_x = LeafNode c n (len ex_x) p) /\
  ((1 < len ex_x)%Z -> Forall (fun tot => (1 < tot)%Z) (branch_totals tree_x)) /\
  (sumZ (branch_totals tree_x) <= len ex_x)%Z.
Proof.
  exact (min_leaf_count_respected "name" "label" 1 5 ex_x tree_x learn_tree_ex_x).
Defined.

(** ** Predictions *)

Lemma classify_in_leaves (node : TreeNode) (ex : example) (c : value) (p : R) :
  classify node ex = Ok (c, p) -> In (c, p) (leaves node).
Proof.
  induction node as [a th lt IHlt ge IHge miss IHmiss | c' n tot p'];
    cbn [classify leaves]; intros H.
  - inv_bind H.
    destruct a0 as [f | s |]; [| discriminate |].
    + destruct (Rltb f th); rewrite !in_app_iff; auto.
    + rewrite !in_app_iff; auto.
  - inv_Ok H; left; reflexivity.
Qed.

(** The result of [classify] depends on the tested attributes only. *)
Lemma classify_frame (node : TreeNode) (ex1 ex2 : example) :
  (forall a, tests a node -> getitem ex1 a = getitem ex2 a) ->
  classify node ex1 = classify node ex2.
Proof.
  induction node as [a th lt IHlt ge IHge miss IHmiss | c' n tot p'];
    cbn [classify tests]; intros H; [| reflexivity].
  rewrite <- (H a) by auto.
  destruct (getitem ex1 a) as [[f | s |] | e]; cbn [bind]; try reflexivity.
  - destruct (Rltb f th); [apply IHlt | apply IHge]; intros b Hb; apply H; auto.
  - apply IHmiss; intros b Hb; apply H; auto.
Qed.

Lemma counts_get_class_counts (class_name : string) (examples : list example)
  (k : value) (n : Z) :
  counts_get (class_counts class_name examples) k = Ok n ->
  exists s, k = VStr s /\ known_class s = true /\
            n = count_class class_name s examples.
Proof.
  destruct k as [f | s |]; simpl; try discriminate.
  intros H; exists s; split; [reflexivity |]; unfold known_class.
  string_cases s; simpl; try discriminate; injection H as <-; auto.
Qed.

Lemma count_class_pos (class_name s : string) (examples : list example) :
  (0 < count_class class_name s examples)%Z ->
  exists d, In d examples /\ getitem d class_name = Ok (VStr s).
Proof.
  unfold count_class, len; intros H.
  destruct (filter (has_label class_name s) examples) as [| d l] eqn:E;
    [simpl in H; lia |].
  assert (Hin : In d (filter (has_label class_name s) examples))
    by (rewrite E; left; reflexivity).
  apply filter_In in Hin as (Hin & Hl).
  exists d; split; [exact Hin |].
  unfold has_label in Hl; apply getitem_lookup.
  destruct (lookup class_name d) as [[f | s' |] |]; try discriminate.
  apply String.eqb_eq in Hl; subst; reflexivity.
Qed.

Section Predictions.

Variables (id_name class_name : string) (min_leaf_count : Z).

Lemma learned_leaves (fuel : nat) :
  forall (examples : list example) (node : TreeNode),
    learn_tree id_name class_name min_leaf_count fuel examples = Some (Ok node) ->
    Forall (fun cp =>
              (exists s d, fst cp = VStr s /\ known_class s = true /\
                           In d examples /\ getitem d class_name = Ok (VStr s)) /\
              0 < snd cp <= 1)
           (leaves node).
Proof.
  induction fuel as [| fuel IH]; intros examples node H; [discriminate |].
  apply learn_tree_Ok_inv in H as (fuel' & t & b & Ef & Hf & H).
  injection Ef as <-.
  pose proof (find_split_tally _ _ _ _ _ _ Hf) as (_ & _ & _ & Hmaj & Hcnt).
  assert (Hleaf : (exists s d, majority t = VStr s /\ known_class s = true /\
                               In d examples /\
                               getitem d class_name = Ok (VStr s)) /\
                  0 < IZR (pred_class_count t) / IZR (total t) <= 1).
  { split.
    - apply counts_get_class_counts in Hmaj as (s & Es & Hk & Hn).
      destruct (count_class_pos class_name s examples) as (d & Hd & Hg); [lia |].
      exists s, d; auto.
    - pose proof (leaf_stats_ok (majority t) _ _ Hcnt) as (_ & _ & Hp).
      exact Hp. }
  destruct H as [(_ & Hl) |
                 (Hstop & el & er & clt & cge & cm & Hs & Hl & Hr & Hm & ->)].
  - apply LeafNode_init_Ok_inv in Hl as (_ & ->).
    cbn [leaves]; constructor; [exact Hleaf | constructor].
  - apply LeafNode_init_Ok_inv in Hm as (_ & ->).
    apply split_filter in Hs as (El & Er).
    assert (Hsub : forall l' f cl,
               l' = filter f examples ->
               learn_tree id_name class_name min_leaf_count fuel l' = Some (Ok cl) ->
               Forall (fun cp =>
                 (exists s d, fst cp = VStr s /\ known_class s = true /\
                              In d examples /\
                              getitem d class_name = Ok (VStr s)) /\
                 0 < snd cp <= 1) (leaves cl)).
    { intros l' f cl E Hcl; apply IH in Hcl.
      eapply Forall_impl; [| exact Hcl].
      intros cp ((s & d & H1 & H2 & H3 & H4) & H5); split; [| exact H5].
      exists s, d; repeat split; try assumption.
      rewrite E in H3; apply filter_In in H3; tauto. }
    cbn [leaves]; repeat (apply Forall_app; split).
    + exact (Hsub _ _ _ El Hl).
    + exact (Hsub _ _ _ Er Hr).
    + constructor; [exact Hleaf | constructor].
Qed.

(** X5.  Whatever example a learned tree classifies, the label that it
    returns is one of the four classes and is the label of some training
    example, and the probability that it returns lies in (0, 1]. *)
Theorem predictions_are_training_labels (fuel : nat) (examples : list example)
  (node : TreeNode) (ex : example) (c : value) (p : R) :
  learn_tree id_name class_name min_leaf_count fuel examples = Some (Ok node) ->
  classify node ex = Ok (c, p) ->
  (exists s d, c = VStr s /\ known_class s = true /\
               In d examples /\ getitem d class_name = Ok c) /\
  0 < p <= 1.
Proof.
  intros Hl Hc.
  apply learned_leaves in Hl; apply classify_in_leaves in Hc.
  rewrite Forall_forall in Hl.
  destruct (Hl _ Hc) as ((s & d & H1 & H2 & H3 & H4) & H5); simpl in *.
  split; [| exact H5].
  exists s, d; subst; auto.
Qed.

(** X6.  The prediction of a learned tree does not depend on the identifier
    or on the class label of the example that is classified: two examples
    that agree on every other attribute get the same result (the same label
    and probability, or the same exception). *)
Theorem prediction_ignores_id_and_class (fuel : nat) (examples : list example)
  (node : TreeNode) (ex1 ex2 : example) :
  learn_tree id_name class_name min_leaf_count fuel examples = Some (Ok node) ->
  (forall a, a <> id_name -> a <> class_name -> getitem ex1 a = getitem ex2 a) ->
  classify node ex1 = classify node ex2.
Proof.
  intros Hl Hag.
  destruct (learned_tests_neither _ _ _ _ _ _ Hl) as (Hid & Hcl).
  apply classify_frame; intros a Ha.
  apply Hag; intros ->; contradiction.
Qed.

End Predictions.

Lemma predictions_are_training_labels_witness :
  (exists s d, VStr "red" = VStr s /\ known_class s = true /\
               In d ex_x /\ getitem d "label" = Ok (VStr "red")) /\
  0 < 2 / 4 <= 1.
Proof.
  apply (predictions_are_training_labels "name" "label" 1 5 ex_x tree_x
           (row "q" "x" VNone "light blue") (VStr "red") (2 / 4)
           learn_tree_ex_x).
  reflexivity.
Defined.

Lemma prediction_ignores_id_and_class_witness :
  classify tree_x (row "q" "x" (VFloat 0) "light blue")
  = classify tree_x (row "r" "x" (VFloat 0) "red").
Proof.
  apply (prediction_ignores_id_and_class "name" "label" 1 5 ex_x tree_x _ _
           learn_tree_ex_x).
  intros a Hid Hcl; unfold row, getitem; cbn [lookup].
  destruct (String.eqb_spec a "name") as [-> | _]; [contradiction |].
  destruct (String.eqb_spec a "x") as [-> | _]; [reflexivity |].
  destruct (String.eqb_spec a "label") as [-> | _]; [contradiction |].
  reflexivity.
Defined.

(** ** Learning from a table *)

Lemma has_key_iff (key : string) (d : example) :
  has_key key d <-> In key (map fst d).
Proof.
  unfold has_key; induction d as [| [k v] d IH]; simpl.
  - split; [congruence | tauto].
  - destruct (String.eqb_spec key k) as [-> | Hne].
    + split; [auto | discriminate].
    + rewrite IH; split; [auto | intros [E | H]; [congruence | exact H]].
Qed.

Lemma foldM_total {A B : Type} (body : A -> B -> result A) (l : list B) :
  (forall a x, In x l -> exists a', body a x = Ok a') ->
  forall a, exists a', foldM body l a = Ok a'.
Proof.
  induction l as [| x l IH]; intros Hb a; simpl; [eexists; reflexivity |].
  destruct (Hb a x (or_introl eq_refl)) as (a1 & ->); cbn [bind].
  apply IH; intros a2 y Hy; apply Hb; right; exact Hy.
Qed.

Lemma range_fold_total (key : string) (examples : list example) (bt : R * R) :
  Forall (has_key key) examples ->
  exists bt', foldM (range_step key) examples bt = Ok bt'.
Proof.
  intros Hk; apply foldM_total; intros a d Hd.
  rewrite Forall_forall in Hk; specialize (Hk d Hd); unfold has_key in Hk.
  unfold range_step, getitem.
  destruct (lookup key d) as [[f | s |] |]; cbn [bind];
    [eexists; reflexivity | eexists; reflexivity | eexists; reflexivity
     | congruence].
Qed.

Section Tables.

Variables (id_name class_name : string) (min_leaf_count : Z).

Lemma thres_loop_total (examples : list example) (entropy_parent : R)
  (key : string) (seg : R) (n : nat) :
  Forall (has_key key) examples ->
  Forall (label_known class_name) examples ->
  forall thres b,
    exists b',
      thres_loop class_name min_leaf_count examples entropy_parent key seg n
        thres b = Ok b'.
Proof.
  intros Hk Hl; induction n as [| n IH]; intros thres b; cbn [thres_loop];
    [eexists; reflexivity |].
  pose proof (sides_eval class_name key (thres + seg) examples Hk Hl) as Hs.
  rewrite Hs; cbn [bind].
  apply sides_fold_sound in Hs.
  destruct (consider_total min_leaf_count entropy_parent key (thres + seg)
              _ b Hs) as (b' & ->).
  cbn [bind]; apply IH.
Qed.

Lemma same_keys_has_key (examples : list example) (d0 : example) (key : string) :
  same_keys examples -> In d0 examples -> In key (map fst d0) ->
  Forall (has_key key) examples.
Proof.
  intros Hs Hd0 Hkey; apply Forall_forall; intros d Hd.
  apply has_key_iff; rewrite (Hs d d0 Hd Hd0); exact Hkey.
Qed.

Lemma find_split_total (examples : list example) :
  examples <> [] ->
  Forall (label_known class_name) examples ->
  same_keys examples ->
  exists t b, find_split id_name class_name min_leaf_count examples = Ok (t, b).
Proof.
  intros Hne Hl Hs; unfold find_split.
  destruct (tally_fold_total class_name examples tally0 Hl) as (t & Ht).
  rewrite Ht; cbn [bind].
  pose proof (tally_inv_fold _ _ _ Ht) as (Hnn & _ & _ & Htot).
  rewrite entropy_ok;
    [| exact Hnn
     | destruct Hnn as (? & ? & ? & ?); rewrite Htot; unfold counts_sum; lia].
  cbn [bind].
  destruct examples as [| d0 examples']; [congruence |].
  cbn [first bind].
  destruct (foldM_total
              (attr_step id_name class_name min_leaf_count (d0 :: examples')
                 (entropy_val (parent t) (total t)))
              (map fst d0)) with (a := best0) as (b & Hb).
  - intros b key Hkey; unfold attr_step; cbn [first bind].
    pose proof (same_keys_has_key _ d0 key Hs (or_introl eq_refl) Hkey) as Hk.
    assert (Hg : exists v0, getitem d0 key = Ok v0).
    { inversion Hk as [| ? ? Hk0 _]; subst; unfold has_key in Hk0.
      unfold getitem; destruct (lookup key d0); [eexists; reflexivity | congruence]. }
    destruct Hg as (v0 & ->); cbn [bind].
    destruct (eligible id_name v0 key); [| eexists; reflexivity].
    destruct (range_fold_total key (d0 :: examples') (9999, -9999) Hk)
      as (bt & ->).
    cbn [bind]; apply thres_loop_total; assumption.
  - rewrite Hb; cbn [bind]; eexists; eexists; reflexivity.
Qed.

(** X7.  On a table (a list that is not empty, whose examples all have the
    same keys and whose labels are all known) [learn_tree] raises nothing:
    with one unit of fuel more than there are examples it returns a tree. *)
Theorem learn_tree_total_on_tables (fuel : nat) :
  forall examples : list example,
    (List.length examples < fuel)%nat ->
    examples <> [] ->
    Forall (label_known class_name) examples ->
    same_keys examples ->
    exists node,
      learn_tree id_name class_name min_leaf_count fuel examples = Some (Ok node).
Proof.
  induction fuel as [| fuel IH]; intros examples Hlen Hne Hl Hs; [lia |].
  destruct (find_split_total examples Hne Hl Hs) as (t & b & Hf).
  cbn [learn_tree]; rewrite Hf.
  pose proof (leaf_of_search_ok _ _ _ _ _ _ Hf) as Hleaf.
  destruct (stop min_leaf_count t b) eqn:Hstop;
    [rewrite Hleaf; eexists; reflexivity |].
  (* the split is on a key of the first example *)
  pose proof (find_split_search_inv _ _ _ _ _ _ Hf) as (_ & _ & Hinv).
  pose proof Hstop as Hstop'.
  unfold stop in Hstop'; apply orb_false_iff in Hstop' as (Htown & _).
  apply String.eqb_neq in Htown.
  destruct Hinv as [Hb | (d0 & f & s & g & C1 & C2 & _)]; [contradiction |].
  assert (Hd0 : In d0 examples)
    by (destruct examples; [discriminate | injection C1 as <-; left; reflexivity]).
  assert (Hk : Forall (has_key (IG_attr b)) examples).
  { apply (same_keys_has_key _ d0); try assumption.
    apply has_key_iff; unfold has_key.
    apply getitem_lookup in C2; congruence. }
  pose proof (split_eval (IG_attr b) (IG_thres b) examples Hk) as Hsp.
  rewrite Hsp.
  destruct (split_shrinks _ _ _ _ _ _ _ _ Hf Hstop Hsp) as ((Hl0 & Hl1) & (Hr0 & Hr1)).
  assert (Hsub : forall fl,
             (0 < List.length (filter fl examples) < List.length examples)%nat ->
             exists node,
               learn_tree id_name class_name min_leaf_count fuel
                 (filter fl examples) = Some (Ok node)).
  { intros fl (H0 & H1); apply IH.
    - lia.
    - intros E; rewrite E in H0; simpl in H0; lia.
    - apply Forall_forall; intros d Hd; apply filter_In in Hd as (Hd & _).
      rewrite Forall_forall in Hl; apply Hl, Hd.
    - intros d d' Hd Hd'; apply filter_In in Hd as (Hd & _), Hd' as (Hd' & _).
      apply Hs; assumption. }
  destruct (Hsub _ (conj Hl0 Hl1)) as (clt & ->).
  destruct (Hsub _ (conj Hr0 Hr1)) as (cge & ->).
  rewrite Hleaf; cbn [bind].
  destruct (Z.gtb _ _); eexists; reflexivity.
Qed.

End Tables.

Lemma ex_x_same_keys : same_keys ex_x.
Proof.
  intros d d' Hd Hd'.
  assert (Hk : forall e, In e ex_x -> map fst e = ["name"; "x"; "label"]).
  { intros e [<- | [<- | [<- | [<- | []]]]]; reflexivity. }
  rewrite (Hk d Hd), (Hk d' Hd'); reflexivity.
Qed.

Lemma ex_x_labels_known : Forall (label_known "label") ex_x.
Proof. unfold ex_x, ex_x_lt, ex_x_ge; cbn [app]; solve_labels. Qed.

Lemma learn_tree_total_on_tables_witness :
  exists node, learn_tree "name" "label" 1 5 ex_x = Some (Ok node).
Proof.
  apply (learn_tree_total_on_tables "name" "label" 1 5 ex_x).
  - simpl; lia.
  - discriminate.
  - exact ex_x_labels_known.
  - exact ex_x_same_keys.
Defined.

(** ** Examples of one class *)

Lemma sides_fold_has_key (class_name key : string) (thres : R)
  (examples : list example) :
  forall s0 s,
    foldM (sides_step class_name key thres) examples s0 = Ok s ->
    Forall (has_key key) examples.
Proof.
  induction examples as [| d examples IH]; intros s0 s H; [constructor |].
  cbn [foldM] in H; inv_bind H.
  constructor; [| eapply IH; exact H].
  unfold sides_step in H0; inv_bind H0.
  apply getitem_lookup in H1; unfold has_key; congruence.
Qed.

Lemma count_class_single (class_name c c' : string) (examples : list example) :
  all_labelled class_name c examples ->
  count_class class_name c' examples
  = if String.eqb c c' then len examples else 0%Z.
Proof.
  intros H; induction H as [| d examples Hd _ IH].
  - unfold count_class, len; simpl; destruct (String.eqb c c'); reflexivity.
  - rewrite count_class_cons, IH.
    unfold has_label; apply getitem_lookup in Hd; rewrite Hd.
    unfold len; simpl List.length.
    destruct (String.eqb c c'); lia.
Qed.

Lemma entropy_val_single (class_name c : string) (examples : list example) :
  all_labelled class_name c examples ->
  entropy_val (class_counts class_name examples) (len examples) = 0.
Proof.
  intros H; apply entropy_val_pure; [unfold len; lia | | | |];
    unfold class_counts; cbn [red light_blue medium_blue wicked_blue];
    rewrite (count_class_single _ _ _ _ H);
    destruct (String.eqb c _); auto.
Qed.

Lemma all_labelled_filter (class_name c : string) (f : example -> bool)
  (examples : list example) :
  all_labelled class_name c examples ->
  all_labelled class_name c (filter f examples).
Proof.
  unfold all_labelled; rewrite !Forall_forall; intros H d Hd.
  apply filter_In in Hd as (Hd & _); apply H, Hd.
Qed.

Section OneClass.

Variables (id_name class_name : string) (min_leaf_count : Z).
Variable c : string.
Variable examples : list example.
Hypothesis Hall : all_labelled class_name c examples.
Hypothesis Hknown : Forall (label_known class_name) examples.

Lemma consider_one_class (key : string) (thres : R) (s : sides) :
  foldM (sides_step class_name key thres) examples sides0 = Ok s ->
  consider min_leaf_count 0 key thres s best0 = Ok best0.
Proof.
  intros Hs.
  pose proof (sides_fold_sound _ _ _ _ _ Hs) as (Hl & Hr & Hpl & Hpr).
  pose proof (sides_fold_has_key _ _ _ _ _ _ Hs) as Hk.
  rewrite (sides_eval class_name key thres examples Hk Hknown) in Hs.
  injection Hs as <-.
  destruct (Z.eq_dec (p_l (sides_of class_name key thres examples)) 0) as [E | E];
    [apply consider_skip; left; exact E |].
  destruct (Z.eq_dec (p_r (sides_of class_name key thres examples)) 0) as [E' | E'];
    [apply consider_skip; right; exact E' |].
  unfold best0; apply consider_keep.
  - unfold sides_ok; split; [exact Hl | split; [exact Hr | lia]].
  - unfold gain_val, sides_of; cbn [p_l p_r l r].
    rewrite !(entropy_val_single class_name c)
      by (apply all_labelled_filter, Hall).
    lra.
Qed.

Lemma thres_loop_one_class (key : string) (seg : R) (n : nat) :
  forall thres b',
    thres_loop class_name min_leaf_count examples 0 key seg n thres best0 = Ok b' ->
    b' = best0.
Proof.
  induction n as [| n IH]; intros thres b' H; cbn [thres_loop] in H.
  - inv_Ok H; reflexivity.
  - inv_bind H.
    rewrite (consider_one_class _ _ _ H0) in H; cbn [bind] in H.
    eapply IH; exact H.
Qed.

Lemma find_split_one_class (t : tally) (b : best) :
  find_split id_name class_name min_leaf_count examples = Ok (t, b) ->
  b = best0.
Proof.
  intros Hf.
  pose proof (find_split_tally _ _ _ _ _ _ Hf) as (Hp & Htot & _).
  unfold find_split in Hf.
  inv_bind Hf. inv_bind Hf. inv_bind Hf. inv_bind Hf. inv_Ok Hf.
  rewrite Hp, Htot in Hf1.
  rewrite entropy_ok in Hf1;
    [| rewrite <- Hp; apply (tally_inv_fold _ _ _ Hf0) | unfold len; lia].
  rewrite (entropy_val_single _ _ _ Hall) in Hf1; inv_Ok Hf1.
  apply (foldM_invariant (fun b => b = best0)
           (attr_step id_name class_name min_leaf_count examples 0))
    with (l := map fst a1) (a := best0); [| reflexivity | exact Hf3].
  intros b0 key b1 -> Hs; unfold attr_step in Hs.
  inv_bind Hs. inv_bind Hs.
  destruct (eligible id_name _ key); [| inv_Ok Hs; reflexivity].
  inv_bind Hs.
  eapply thres_loop_one_class; exact Hs.
Qed.

End OneClass.

(** X8.  When all examples have the same class, [learn_tree] does not split:
    a call that returns a tree returns a single leaf of that class, with as
    many examples of the class as there are examples, and probability 1. *)
Theorem one_class_gives_a_leaf (id_name class_name : string) (min_leaf_count : Z)
  (fuel : nat) (examples : list example) (c : string) (node : TreeNode) :
  all_labelled class_name c examples ->
  learn_tree id_name class_name min_leaf_count fuel examples = Some (Ok node) ->
  exists p,
    node = LeafNode (VStr c) (len examples) (len examples) p /\ p = 1.
Proof.
  intros Hall H.
  apply learn_tree_Ok_inv in H as (fuel' & t & b & _ & Hf & H).
  pose proof (find_split_inv _ _ _ _ _ _ Hf) as (Ht & Hne & _).
  apply tally_fold_spec in Ht as (_ & _ & Hknown).
  pose proof (find_split_one_class _ _ _ _ _ Hall Hknown _ _ Hf) as ->.
  pose proof (find_split_tally _ _ _ _ _ _ Hf) as (_ & Htot & Hmax & Hmaj & Hcnt).
  destruct H as [(_ & Hleaf) | (Hstop & _)]; [| discriminate].
  apply LeafNode_init_Ok_inv in Hleaf as (Hnz & ->).
  (* the majority is [c], and it counts every example *)
  apply counts_get_class_counts in Hmaj as (m & Em & _ & Hn).
  rewrite (count_class_single _ _ _ _ Hall) in Hn.
  destruct (String.eqb_spec c m) as [<- | _]; [| lia].
  rewrite Em, Hn, Htot.
  eexists; split; [reflexivity |].
  field; apply not_0_IZR; lia.
Qed.

Lemma learn_tree_ex_x_lt :
  learn_tree "name" "label" 1 4 ex_x_lt
  = Some (Ok (LeafNode (VStr "red") 2 2 (2 / 2))).
Proof.
  rewrite (learn_tree_leaf _ _ _ _ _ _ _ find_split_ex_x_lt eq_refl).
  cbn [majority pred_class_count total]; rewrite LeafNode_init_ok by lia.
  reflexivity.
Qed.

Lemma one_class_gives_a_leaf_witness :
  exists p,
    LeafNode (VStr "red") 2 2 (2 / 2)
    = LeafNode (VStr "red") (len ex_x_lt) (len ex_x_lt) p /\ p = 1.
Proof.
  apply (one_class_gives_a_leaf "name" "label" 1 4 ex_x_lt "red" _).
  - repeat constructor.
  - exact learn_tree_ex_x_lt.
Defined.

(** ** [train_test_split] *)

Lemma slices_append {A : Type} (xs : list A) (n : Z) :
  (slice_to xs n ++ slice_from xs n)%list = xs.
Proof. unfold slice_to, slice_from; apply firstn_skipn. Qed.

Lemma slice_to_len (xs : list example) (n : Z) :
  len (slice_to xs n) = slice_to_length n (len xs).
Proof.
  unfold len, slice_to, slice_to_length, slice_bound.
  rewrite length_firstn.
  destruct (Z.ltb_spec n 0); lia.
Qed.

Lemma train_test_split_Ok_inv (shuffled examples : list example)
  (test_perc : float) (train test : list example) :
  train_test_split shuffled examples test_perc = Ok (train, test) ->
  exists n test_size,
    binary64_of_int (len examples) = Ok n /\
    py_round (test_perc * n)%float = Ok test_size /\
    train = slice_from shuffled test_size /\
    test = slice_to shuffled test_size.
Proof.
  unfold train_test_split; intros H.
  destruct (binary64_of_int (len examples)) as [n | e] eqn:En; [| discriminate].
  cbn [bind] in H.
  destruct (py_round (test_perc * n)%float) as [test_size | e] eqn:Er;
    [| discriminate].
  cbn [bind] in H; injection H as <- <-.
  exists n, test_size; repeat split; assumption || reflexivity.
Qed.

Lemma train_test_split_Raise_inv (shuffled examples : list example)
  (test_perc : float) (e : exn) :
  train_test_split shuffled examples test_perc = Raise e ->
  e = ValueError \/ e = OverflowError.
Proof.
  unfold train_test_split, binary64_of_int, py_round; intros H.
  destruct (Z.abs (len examples) <? 2 ^ 1024 - 2 ^ 970)%Z; cbn [bind] in H;
    [| injection H as <-; right; reflexivity].
  destruct (Prim2SF _) as [sg | sg | | sg m ex]; cbn [bind] in H;
    try discriminate; injection H as <-; [right | left]; reflexivity.
Qed.

(** X9.  Whatever [test_perc] is, [train_test_split] either returns two
    sets that share the shuffled list out (the test set followed by the
    training set is the shuffled list: no example is lost and none is used
    twice, and together they are a permutation of the input), or it raises
    [ValueError] or [OverflowError] at [round], when the product is NaN or
    infinite. *)
Theorem train_test_split_partitions (shuffled examples : list example)
  (test_perc : float) :
  Permutation shuffled examples ->
  match train_test_split shuffled examples test_perc with
  | Ok (train, test) =>
      (test ++ train)%list = shuffled /\
      Permutation (test ++ train) examples /\
      (List.length train + List.length test = List.length examples)%nat
  | Raise e => e = ValueError \/ e = OverflowError
  end.
Proof.
  intros Hp.
  destruct (train_test_split shuffled examples test_perc) as [[train test] | e]
    eqn:H; [| exact (train_test_split_Raise_inv _ _ _ _ H)].
  apply train_test_split_Ok_inv in H as (n & test_size & _ & _ & -> & ->).
  pose proof (slices_append shuffled test_size) as Happ.
  split; [exact Happ |]; split; [rewrite Happ; exact Hp |].
  rewrite <- (Permutation_length Hp).
  transitivity (List.length (slice_to shuffled test_size
                             ++ slice_from shuffled test_size)%list);
    [rewrite length_app; lia | rewrite Happ; reflexivity].
Qed.

(** X10.  When [train_test_split] returns, the sizes of the two sets are
    those of the slices at [test_size = round(test_perc * len(examples))],
    the rounding of the binary64 product: the test set has [test_size]
    examples when [0 <= test_size <= len(examples)], all of them when
    [test_size] is larger, and [len(examples) + test_size] (or none) when it
    is negative; the training set has the rest. *)
Theorem train_test_split_sizes (shuffled examples : list example)
  (test_perc : float) (train test : list example) :
  Permutation shuffled examples ->
  train_test_split shuffled examples test_perc = Ok (train, test) ->
  exists n test_size,
    binary64_of_int (len examples) = Ok n /\
    py_round (test_perc * n)%float = Ok test_size /\
    len test = (if (test_size <? 0)%Z then Z.max (len examples + test_size) 0
                else Z.min test_size (len examples)) /\
    len train = (len examples - len test)%Z.
Proof.
  intros Hp H.
  pose proof (Permutation_length Hp) as Hl.
  apply train_test_split_Ok_inv in H as (n & test_size & Hn & Hr & -> & ->).
  exists n, test_size; split; [exact Hn |]; split; [exact Hr |].
  assert (E : len shuffled = len examples) by (unfold len; rewrite Hl; reflexivity).
  rewrite slice_to_len, E; split; [reflexivity |].
  pose proof (slices_append shuffled test_size) as Happ.
  apply (f_equal (@List.length example)) in Happ.
  rewrite length_app in Happ.
  pose proof (slice_to_len shuffled test_size) as Ht.
  unfold len in *; unfold slice_to_length in *.
  destruct (Z.ltb_spec test_size 0); lia.
Qed.

Lemma rev_ex_c3_perm : Permutation (rev ex_c3) ex_c3.
Proof. apply Permutation_sym, Permutation_rev. Qed.

(** The share 0.3 of five examples: the binary64 product is 1.5, and two
    examples are taken for the test set. *)
Lemma train_test_split_ex_c3 :
  train_test_split (rev ex_c3) ex_c3 0x1.3333333333333p-2
  = Ok (skipn 2 (rev ex_c3), firstn 2 (rev ex_c3)).
Proof.
  unfold train_test_split.
  replace (binary64_of_int (len ex_c3)) with (Ok 5%float)
    by (vm_compute; reflexivity).
  cbn [bind].
  replace (py_round (0x1.3333333333333p-2 * 5)%float) with (Ok 2%Z)
    by (vm_compute; reflexivity).
  reflexivity.
Qed.

Lemma train_test_split_partitions_witness :
  (firstn 2 (rev ex_c3) ++ skipn 2 (rev ex_c3))%list = rev ex_c3 /\
  Permutation (firstn 2 (rev ex_c3) ++ skipn 2 (rev ex_c3)) ex_c3 /\
  (List.length (skipn 2 (rev ex_c3)) + List.length (firstn 2 (rev ex_c3))
   = List.length ex_c3)%nat.
Proof.
  pose proof (train_test_split_partitions (rev ex_c3) ex_c3
                0x1.3333333333333p-2 rev_ex_c3_perm) as H.
  rewrite train_test_split_ex_c3 in H; exact H.
Defined.

Lemma train_test_split_sizes_witness :
  exists n test_size,
    binary64_of_int (len ex_c3) = Ok n /\
    py_round (0x1.3333333333333p-2 * n)%float = Ok test_size /\
    len (firstn 2 (rev ex_c3))
    = (if (test_size <? 0)%Z then Z.max (len ex_c3 + test_size) 0
       else Z.min test_size (len ex_c3)) /\
    len (skipn 2 (rev ex_c3)) = (len ex_c3 - len (firstn 2 (rev ex_c3)))%Z.
Proof.
  exact (train_test_split_sizes (rev ex_c3) ex_c3 0x1.3333333333333p-2
           _ _ rev_ex_c3_perm train_test_split_ex_c3).
Defined.

(** ** The dictionary of the evaluation *)

Lemma pair_eqb_eq (k k' : string * string) : pair_eqb k k' = true <-> k = k'.
Proof.
  destruct k as [a b], k' as [a' b']; unfold pair_eqb; simpl.
  rewrite andb_true_iff, !String.eqb_eq; split.
  - intros (-> & ->); reflexivity.
  - intros H; injection H as -> ->; auto.
Qed.

Lemma pair_eqb_refl (k : string * string) : pair_eqb k k = true.
Proof. apply pair_eqb_eq; reflexivity. Qed.

Lemma pair_eqb_neq (k k' : string * string) : pair_eqb k k' = false <-> k <> k'.
Proof.
  rewrite <- pair_eqb_eq; destruct (pair_eqb k k'); split; congruence.
Qed.

Lemma pair_eqb_sym (k k' : string * string) : pair_eqb k k' = pair_eqb k' k.
Proof.
  destruct (pair_eqb k' k) eqn:E.
  - apply pair_eqb_eq in E; subst; apply pair_eqb_refl.
  - apply pair_eqb_neq in E; apply pair_eqb_neq; congruence.
Qed.

Lemma dict_get_set (d : pair_dict) (k k' : string * string) (v default : Z) :
  dict_get (dict_set d k v) k' default
  = if pair_eqb k' k then v else dict_get d k' default.
Proof.
  induction d as [| [k0 v0] d IH]; simpl; [reflexivity |].
  destruct (pair_eqb k k0) eqn:E; simpl.
  - apply pair_eqb_eq in E; subst k0.
    destruct (pair_eqb k' k); reflexivity.
  - destruct (pair_eqb k' k0) eqn:E'; [| exact IH].
    apply pair_eqb_eq in E'; subst k0.
    rewrite pair_eqb_sym, E; reflexivity.
Qed.

Lemma dict_set_sum (d : pair_dict) (k : string * string) (v : Z) :
  dict_values_sum (dict_set d k v)
  = (dict_values_sum d + v - dict_get d k 0)%Z.
Proof.
  unfold dict_values_sum.
  induction d as [| [k0 v0] d IH]; simpl; [lia |].
  destruct (pair_eqb k k0); simpl; [lia | rewrite IH; lia].
Qed.

Lemma dict_set_In (d : pair_dict) (k k' : string * string) (v : Z) :
  In k' (map fst (dict_set d k v)) <-> k' = k \/ In k' (map fst d).
Proof.
  induction d as [| [k0 v0] d IH]; simpl.
  - intuition congruence.
  - destruct (pair_eqb k k0) eqn:E; simpl.
    + apply pair_eqb_eq in E; subst k0; intuition congruence.
    + rewrite IH; tauto.
Qed.

Lemma dict_set_NoDup (d : pair_dict) (k : string * string) (v : Z) :
  NoDup (map fst d) -> NoDup (map fst (dict_set d k v)).
Proof.
  induction d as [| [k0 v0] d IH]; simpl; intros H.
  - constructor; [tauto | constructor].
  - inversion H as [| ? ? Hn Hd]; subst.
    destruct (pair_eqb k k0) eqn:E; simpl; [exact H |].
    constructor; [| apply IH; exact Hd].
    rewrite dict_set_In; intros [-> | Hin]; [| contradiction].
    rewrite pair_eqb_refl in E; discriminate.
Qed.


(** ** [ordering.index] *)

Lemma index_of_In (s : string) (xs : list string) (i : nat) :
  index_of s xs = Some i -> In s xs.
Proof.
  revert i; induction xs as [| y xs IH]; simpl; intros i H; [discriminate |].
  destruct (String.eqb_spec s y) as [-> | _]; [left; reflexivity |].
  destruct (index_of s xs); [right; eapply IH; reflexivity | discriminate].
Qed.

Lemma list_index_Ok (xs : list string) (v : value) (i : Z) :
  list_index xs v = Ok i ->
  exists s n, v = VStr s /\ index_of s xs = Some n /\ i = Z.of_nat n.
Proof.
  destruct v as [f | s |]; simpl; try discriminate.
  destruct (index_of s xs) as [n |] eqn:E; [| discriminate].
  intros H; injection H as <-; eauto.
Qed.

Lemma known_class_index (s : string) :
  known_class s = true -> exists n, index_of s ordering = Some n.
Proof.
  unfold known_class; rewrite !orb_true_iff, !String.eqb_eq.
  intros [[[-> | ->] | ->] | ->]; eexists; reflexivity.
Qed.

(** ** One round of the evaluation *)

Lemma test_step_Ok_inv (tree : DecisionTree) (cls id : string)
  (st st' : tested) (ex : example) :
  test_step tree cls id st ex = Ok st' ->
  exists a p i j,
    outcome tree cls ex = Some (a, p) /\
    index_of p ordering = Some i /\ index_of a ordering = Some j /\
    st' = mkTested
            (if String.eqb p a then correct st + 1 else correct st)%Z
            (if (Z.abs (Z.of_nat i - Z.of_nat j) <? 2)%Z
             then almost st + 1 else almost st)%Z
            (dict_set (test_act_pred st) (a, p)
               (dict_get (test_act_pred st) (a, p) 0 + 1)%Z).
Proof.
  unfold test_step, outcome; intros H.
  destruct (getitem ex cls) as [actual | e] eqn:Ea; [| discriminate].
  destruct (DecisionTree_classify tree ex) as [[pred prob] | e] eqn:Ep;
    [| discriminate].
  cbn [bind fst] in H.
  destruct (getitem ex id) as [idv | e]; [| discriminate]; cbn [bind] in H.
  destruct (str_operand idv) as [ids | e]; [| discriminate]; cbn [bind] in H.
  destruct pred as [f | p |]; try discriminate.
  destruct actual as [f | a |]; try discriminate.
  cbn [str_operand bind list_index] in H.
  destruct (index_of p ordering) as [i |] eqn:Hi; [| discriminate].
  destruct (index_of a ordering) as [j |] eqn:Hj; [| discriminate].
  cbn [bind] in H; injection H as <-.
  exists a, p, i, j; repeat split; assumption || reflexivity.
Qed.

Lemma sumZ_map_bump (f : string -> Z) (a : string) (xs : list string) :
  NoDup xs -> In a xs ->
  sumZ (map (fun q => if pair_eqb (q, q) (a, a) then f a + 1 else f q)%Z xs)
  = (sumZ (map f xs) + 1)%Z.
Proof.
  unfold sumZ.
  induction xs as [| x xs IH]; simpl; intros Hnd Hin; [contradiction |].
  inversion Hnd as [| ? ? Hx Hxs]; subst.
  destruct Hin as [-> | Hin].
  - rewrite pair_eqb_refl.
    assert (E : map (fun q => if pair_eqb (q, q) (a, a) then f a + 1 else f q)%Z xs
                = map f xs).
    { apply map_ext_in; intros q Hq.
      destruct (pair_eqb (q, q) (a, a)) eqn:E; [| reflexivity].
      apply pair_eqb_eq in E; injection E as ->; contradiction. }
    rewrite E; lia.
  - destruct (pair_eqb (x, x) (a, a)) eqn:E.
    + apply pair_eqb_eq in E; injection E as ->; contradiction.
    + rewrite IH by assumption; lia.
Qed.

Lemma ordering_NoDup : NoDup ordering.
Proof.
  unfold ordering; repeat constructor; simpl; intuition discriminate.
Qed.

Lemma diag_count_set (vals : pair_dict) (a p : string) :
  In a ordering ->
  diag_count ordering (dict_set vals (a, p) (dict_get vals (a, p) 0 + 1)%Z)
  = (if String.eqb p a then diag_count ordering vals + 1
     else diag_count ordering vals)%Z.
Proof.
  intros Ha; unfold diag_count.
  destruct (String.eqb_spec p a) as [-> | Hne].
  - rewrite <- (sumZ_map_bump (fun q => dict_get vals (q, q) 0%Z) a ordering
                  ordering_NoDup Ha).
    f_equal; apply map_ext; intros q; apply dict_get_set.
  - f_equal; apply map_ext; intros q; rewrite dict_get_set.
    destruct (pair_eqb (q, q) (a, p)) eqn:E; [| reflexivity].
    apply pair_eqb_eq in E; injection E as -> ->; congruence.
Qed.

Lemma test_step_inv (tree : DecisionTree) (cls id : string) (n : Z)
  (st st' : tested) (ex : example) :
  tested_inv n st -> test_step tree cls id st ex = Ok st' ->
  tested_inv (n + 1) st'.
Proof.
  intros (Hc & Ha & Hs & (Hnd & Hk) & Hd) H.
  apply test_step_Ok_inv in H as (a & p & i & j & _ & Hi & Hj & ->).
  pose proof (index_of_In _ _ _ Hi) as Pin.
  pose proof (index_of_In _ _ _ Hj) as Ain.
  unfold tested_inv; cbn [correct almost test_act_pred].
  assert (Hsame : String.eqb p a = true ->
                  (Z.abs (Z.of_nat i - Z.of_nat j) <? 2)%Z = true).
  { intros E; apply String.eqb_eq in E; subst p.
    rewrite Hi in Hj; injection Hj as ->.
    apply Z.ltb_lt; lia. }
  split; [| split; [| split; [| split]]].
  - destruct (String.eqb p a); [rewrite Hsame by reflexivity; lia |].
    destruct (Z.abs _ <? 2)%Z; lia.
  - destruct (Z.abs _ <? 2)%Z; lia.
  - rewrite dict_set_sum; lia.
  - split; [apply dict_set_NoDup; exact Hnd |].
    intros k Hin; apply dict_set_In in Hin as [-> | Hin]; [auto | apply Hk; exact Hin].
  - rewrite diag_count_set by exact Ain.
    destruct (String.eqb p a); lia.
Qed.

Lemma tested0_inv : tested_inv 0 tested0.
Proof.
  unfold tested_inv, tested0, keys_in; simpl.
  repeat split; try lia; try constructor; contradiction.
Qed.

Lemma test_fold_inv (tree : DecisionTree) (cls id : string)
  (exs : list example) :
  forall (n : Z) (st st' : tested),
    tested_inv n st ->
    foldM (test_step tree cls id) exs st = Ok st' ->
    tested_inv (n + len exs) st'.
Proof.
  induction exs as [| ex exs IH]; intros n st st' Hinv H.
  - injection H as <-; unfold len; simpl; rewrite Z.add_0_r; exact Hinv.
  - rewrite foldM_cons in H; apply bind_Ok_inv in H as (st1 & H1 & H2).
    pose proof (IH _ _ _ (test_step_inv _ _ _ _ _ _ _ Hinv H1) H2) as Hr.
    replace (n + len (ex :: exs))%Z with (n + 1 + len exs)%Z;
      [exact Hr | unfold len; simpl List.length; lia].
Qed.

Lemma countb_cons {A : Type} (f : A -> bool) (x : A) (xs : list A) :
  countb f (x :: xs) = ((if f x then 1 else 0) + countb f xs)%Z.
Proof.
  unfold countb; simpl; destruct (f x); simpl List.length; lia.
Qed.

Lemma test_fold_counts (tree : DecisionTree) (cls id : string)
  (exs : list example) :
  forall (st st' : tested),
    foldM (test_step tree cls id) exs st = Ok st' ->
    correct st' = (correct st + countb (is_correct tree cls) exs)%Z /\
    almost st' = (almost st + countb (is_almost tree cls) exs)%Z /\
    forall k, dict_get (test_act_pred st') k 0
              = (dict_get (test_act_pred st) k 0
                 + countb (is_pair tree cls k) exs)%Z.
Proof.
  induction exs as [| ex exs IH]; intros st st' H.
  - injection H as <-; unfold countb; simpl.
    repeat split; intros; lia.
  - rewrite foldM_cons in H; apply bind_Ok_inv in H as (st1 & H1 & H2).
    destruct (IH _ _ H2) as (Ic & Ia & Ip); clear IH H2.
    apply test_step_Ok_inv in H1 as (a & p & i & j & Ho & Hi & Hj & ->).
    cbn [correct almost test_act_pred] in *.
    assert (Ec : is_correct tree cls ex = String.eqb p a)
      by (unfold is_correct; rewrite Ho; reflexivity).
    assert (Em : is_almost tree cls ex
                 = (Z.abs (Z.of_nat i - Z.of_nat j) <? 2)%Z)
      by (unfold is_almost; rewrite Ho, Hi, Hj; reflexivity).
    assert (Ek : forall k, is_pair tree cls k ex = pair_eqb k (a, p))
      by (intros k; unfold is_pair; rewrite Ho; reflexivity).
    rewrite !countb_cons, Ec, Em.
    split; [rewrite Ic; destruct (String.eqb p a); lia |].
    split; [rewrite Ia; destruct (Z.abs _ <? 2)%Z; lia |].
    intros k; rewrite Ip, countb_cons, dict_get_set, Ek.
    destruct (pair_eqb k (a, p)) eqn:E; [| lia].
    apply pair_eqb_eq in E; subst k; lia.
Qed.

(** ** The evaluation loop *)

(** X11.  When the loop over the test examples finishes, [correct] is the
    number of examples whose predicted label is the actual one, [almost]
    the number of those whose two labels are at most one place apart in
    [ordering], and the dictionary holds under the key (actual, predicted)
    the number of examples with these two labels (0 standing for a key that
    is absent). *)
Theorem evaluation_counts (tree : DecisionTree) (cls id : string)
  (test_examples : list example) (st : tested) :
  test_tree tree cls id test_examples = Ok st ->
  correct st = countb (is_correct tree cls) test_examples /\
  almost st = countb (is_almost tree cls) test_examples /\
  forall a p, dict_get (test_act_pred st) (a, p) 0
              = countb (is_pair tree cls (a, p)) test_examples.
Proof.
  intros H; apply test_fold_counts in H as (Hc & Ha & Hp).
  split; [rewrite Hc; reflexivity |].
  split; [rewrite Ha; reflexivity |].
  intros a p; rewrite Hp; reflexivity.
Qed.

(** X12.  When the loop finishes, 0 <= correct <= almost <= the number of
    test examples; the values of the dictionary add up to the number of
    test examples; its keys are distinct pairs of the four labels; and
    [correct] is the sum of its entries on the diagonal. *)
Theorem evaluation_invariants (tree : DecisionTree) (cls id : string)
  (test_examples : list example) (st : tested) :
  test_tree tree cls id test_examples = Ok st ->
  (0 <= correct st <= almost st)%Z /\
  (almost st <= len test_examples)%Z /\
  dict_values_sum (test_act_pred st) = len test_examples /\
  keys_in ordering (test_act_pred st) /\
  correct st = diag_count ordering (test_act_pred st).
Proof.
  intros H; exact (test_fold_inv _ _ _ _ _ _ _ tested0_inv H).
Qed.

Lemma classify_dt_x_q :
  DecisionTree_classify dt_x (row "q" "x" (VFloat 0) "red")
  = Ok (VStr "red", 2 / 2).
Proof.
  unfold DecisionTree_classify, dt_x, tree_x; cbn [root classify].
  replace (getitem (row "q" "x" (VFloat 0) "red") "x") with (Ok (VFloat 0))
    by reflexivity.
  cbn [bind].
  replace (Rltb 0 (1 / 25)) with true by (symmetry; apply Rltb_true; lra).
  reflexivity.
Qed.

Lemma classify_dt_x_r :
  DecisionTree_classify dt_x (row "r" "x" VNone "light blue")
  = Ok (VStr "red", 2 / 4).
Proof. reflexivity. Qed.

Lemma classify_dt_x_s :
  DecisionTree_classify dt_x (row "s" "x" (VFloat 1) "light blue")
  = Ok (VStr "light blue", 2 / 2).
Proof.
  unfold DecisionTree_classify, dt_x, tree_x; cbn [root classify].
  replace (getitem (row "s" "x" (VFloat 1) "light blue") "x")
    with (Ok (VFloat 1)) by reflexivity.
  cbn [bind].
  replace (Rltb 1 (1 / 25)) with false by (symmetry; apply Rltb_false; lra).
  reflexivity.
Qed.

Lemma test_step_eval (tree : DecisionTree) (cls id : string) (st : tested)
  (ex : example) (a p ids : string) (prob : R) (i j : nat) :
  getitem ex cls = Ok (VStr a) ->
  DecisionTree_classify tree ex = Ok (VStr p, prob) ->
  getitem ex id = Ok (VStr ids) ->
  index_of p ordering = Some i -> index_of a ordering = Some j ->
  test_step tree cls id st ex
  = Ok (mkTested
          (if String.eqb p a then correct st + 1 else correct st)%Z
          (if (Z.abs (Z.of_nat i - Z.of_nat j) <? 2)%Z
           then almost st + 1 else almost st)%Z
          (dict_set (test_act_pred st) (a, p)
             (dict_get (test_act_pred st) (a, p) 0 + 1)%Z)).
Proof.
  intros Ea Ep Ei Hi Hj; unfold test_step.
  rewrite Ea, Ep; cbn [bind fst]; rewrite Ei.
  cbn [bind str_operand list_index]; rewrite Hi, Hj; reflexivity.
Qed.

Lemma test_tree_test_x :
  test_tree dt_x "label" "name" test_x
  = Ok (mkTested 2 3 [(("red", "red"), 1%Z); (("light blue", "red"), 1%Z);
                      (("light blue", "light blue"), 1%Z)]).
Proof.
  unfold test_tree, test_x.
  rewrite foldM_cons.
  rewrite (test_step_eval dt_x "label" "name" _ (row "q" "x" (VFloat 0) "red")
             "red" "red" "q" _ 0 0
             eq_refl classify_dt_x_q eq_refl eq_refl eq_refl).
  cbn [bind]; rewrite foldM_cons.
  rewrite (test_step_eval dt_x "label" "name" _ (row "r" "x" VNone "light blue")
             "light blue" "red" "r" _ 0 1
             eq_refl classify_dt_x_r eq_refl eq_refl eq_refl).
  cbn [bind]; rewrite foldM_cons.
  rewrite (test_step_eval dt_x "label" "name" _
             (row "s" "x" (VFloat 1) "light blue")
             "light blue" "light blue" "s" _ 1 1 eq_refl classify_dt_x_s eq_refl eq_refl eq_refl).
  reflexivity.
Qed.

Lemma evaluation_counts_witness :
  2%Z = countb (is_correct dt_x "label") test_x /\
  3%Z = countb (is_almost dt_x "label") test_x /\
  forall a p,
    dict_get [(("red", "red"), 1%Z); (("light blue", "red"), 1%Z);
              (("light blue", "light blue"), 1%Z)] (a, p) 0
    = countb (is_pair dt_x "label" (a, p)) test_x.
Proof.
  exact (evaluation_counts dt_x "label" "name" test_x _ test_tree_test_x).
Defined.

Lemma evaluation_invariants_witness :
  (0 <= 2 <= 3)%Z /\ (3 <= len test_x)%Z /\
  dict_values_sum [(("red", "red"), 1%Z); (("light blue", "red"), 1%Z);
                   (("light blue", "light blue"), 1%Z)] = len test_x /\
  keys_in ordering [(("red", "red"), 1%Z); (("light blue", "red"), 1%Z);
                    (("light blue", "light blue"), 1%Z)] /\
  2%Z = diag_count ordering [(("red", "red"), 1%Z); (("light blue", "red"), 1%Z);
                             (("light blue", "light blue"), 1%Z)].
Proof.
  exact (evaluation_invariants dt_x "label" "name" test_x _ test_tree_test_x).
Defined.

(** ** [confusion4x4] *)

Lemma mapM_Ok {A B : Type} (f : A -> result B) (g : A -> B) (xs : list A) :
  (forall x, In x xs -> f x = Ok (g x)) -> mapM f xs = Ok (map g xs).
Proof.
  induction xs as [| x xs IH]; intros H; simpl; [reflexivity |].
  rewrite (H x) by (left; reflexivity); cbn [bind].
  rewrite IH by (intros y Hy; apply H; right; exact Hy); reflexivity.
Qed.

Lemma mapM_Raise_first {A B : Type} (f : A -> result B) (x : A) (xs : list A)
  (e : exn) :
  f x = Raise e -> mapM f (x :: xs) = Raise e.
Proof. intros H; simpl; rewrite H; reflexivity. Qed.

Lemma confusion_row_eq (labels : list string) (vals : pair_dict) (n : Z)
  (labp : string) :
  n <> 0%Z ->
  confusion_row labels vals n labp
  = if (List.length labels <? 4)%nat then Raise IndexError
    else Ok (map (fun laba => IZR (dict_get vals (labp, laba) 0) / IZR n)
               (firstn 4 labels)).
Proof.
  intros Hn; unfold confusion_row.
  rewrite (mapM_Ok _ (fun laba => IZR (dict_get vals (labp, laba) 0) / IZR n))
    by (intros laba _; apply py_div_ok, not_0_IZR; exact Hn).
  cbn [bind]; rewrite length_map.
  destruct (List.length labels <? 4)%nat; [reflexivity |].
  rewrite firstn_map; reflexivity.
Qed.

Lemma confusion4x4_eq (labels : list string) (vals : pair_dict) :
  confusion4x4 labels vals
  = match labels with
    | [] => Raise IndexError
    | _ :: _ =>
        if (dict_values_sum vals =? 0)%Z then Raise ZeroDivisionError
        else if (List.length labels <? 4)%nat then Raise IndexError
        else Ok (map (fun labp =>
                        map (fun laba =>
                               IZR (dict_get vals (labp, laba) 0)
                               / IZR (dict_values_sum vals))
                          (firstn 4 labels))
                   labels)
    end.
Proof.
  unfold confusion4x4; cbv zeta.
  destruct labels as [| lab labels]; [reflexivity |].
  set (n := dict_values_sum vals).
  set (ls := lab :: labels).
  destruct (Z.eqb_spec n 0) as [E | Hn].
  - unfold ls; rewrite (mapM_Raise_first _ _ _ ZeroDivisionError); [reflexivity |].
    unfold confusion_row; rewrite E.
    rewrite (mapM_Raise_first _ _ _ ZeroDivisionError); [reflexivity |].
    apply py_div_zero.
  - destruct (List.length ls <? 4)%nat eqn:E4.
    + unfold ls at 2; rewrite (mapM_Raise_first _ _ _ IndexError); [reflexivity |].
      rewrite confusion_row_eq by exact Hn.
      fold ls; rewrite E4; reflexivity.
    + rewrite (mapM_Ok _ (fun labp =>
                 map (fun laba => IZR (dict_get vals (labp, laba) 0) / IZR n)
                   (firstn 4 ls))).
      * cbn [bind]; reflexivity.
      * intros labp _; rewrite confusion_row_eq by exact Hn.
        rewrite E4; reflexivity.
Qed.


(** *** The cells add up to 1 *)






Lemma firstn_4_all {A : Type} (xs : list A) :
  List.length xs = 4%nat -> firstn 4 xs = xs.
Proof. intros H; rewrite <- H; apply firstn_all. Qed.

Lemma confusion4x4_four (labels : list string) (vals : pair_dict) :
  List.length labels = 4%nat -> dict_values_sum vals <> 0%Z ->
  confusion4x4 labels vals
  = Ok (map (fun labp =>
               map (fun laba =>
                      IZR (dict_get vals (labp, laba) 0)
                      / IZR (dict_values_sum vals)) labels) labels).
Proof.
  intros H4 Hn; rewrite confusion4x4_eq.
  destruct labels as [| lab labels]; [discriminate |].
  destruct (Z.eqb_spec (dict_values_sum vals) 0) as [E | _]; [contradiction |].
  rewrite H4; cbn [Nat.ltb Nat.leb].
  rewrite firstn_4_all by exact H4; reflexivity.
Qed.




(** ** What the script prints after the loop *)

(** X15.  After a loop that has finished: on an empty test set the script
    fails with [ZeroDivisionError] at the accuracy; on any other test set
    the two quotients and [confusion4x4] raise nothing, and
    0 <= accuracy <= share of near misses <= 1. *)
Theorem report_of_evaluation (tree : DecisionTree) (cls id : string)
  (test_examples : list example) (st : tested) :
  test_tree tree cls id test_examples = Ok st ->
  (test_examples = [] ->
   report st test_examples = Raise ZeroDivisionError) /\
  (test_examples <> [] ->
   exists accuracy within_one rows,
     report st test_examples = Ok (accuracy, within_one, rows) /\
     0 <= accuracy <= within_one /\ within_one <= 1).
Proof.
  intros H.
  pose proof (test_fold_inv _ _ _ _ _ _ _ tested0_inv H)
    as (Hc & Ha & Hs & Hk & Hd).
  rewrite Z.add_0_l in Ha, Hs.
  split.
  { intros ->; unfold report.
    change (IZR (len [])) with 0; rewrite py_div_zero; reflexivity. }
  intros Hne.
  assert (Hlen : (0 < len test_examples)%Z).
  { destruct test_examples; [congruence | unfold len; simpl List.length; lia]. }
  assert (Hpos : 0 < IZR (len test_examples)) by (apply IZR_lt; exact Hlen).
  assert (Hn : dict_values_sum (test_act_pred st) <> 0%Z) by lia.
  eexists (IZR (correct st) / IZR (len test_examples)),
    (IZR (almost st) / IZR (len test_examples)), _.
  split.
  - unfold report; rewrite !py_div_ok by lra; cbn [bind].
    rewrite (confusion4x4_four ordering _ eq_refl Hn); reflexivity.
  - split; [split |].
    + apply Rdiv_nonneg; [apply IZR_le; lia | exact Hpos].
    + unfold Rdiv; apply Rmult_le_compat_r;
        [left; apply Rinv_0_lt_compat; exact Hpos | apply IZR_le; lia].
    + apply Rdiv_le_1; [exact Hpos | apply IZR_le; lia].
Qed.

Lemma report_of_evaluation_witness :
  (test_x = [] ->
   report (mkTested 2 3 [(("red", "red"), 1%Z); (("light blue", "red"), 1%Z);
                         (("light blue", "light blue"), 1%Z)]) test_x
   = Raise ZeroDivisionError) /\
  (test_x <> [] ->
   exists accuracy within_one rows,
     report (mkTested 2 3 [(("red", "red"), 1%Z); (("light blue", "red"), 1%Z);
                           (("light blue", "light blue"), 1%Z)]) test_x
     = Ok (accuracy, within_one, rows) /\
     0 <= accuracy <= within_one /\ within_one <= 1).
Proof.
  exact (report_of_evaluation dt_x "label" "name" test_x _ test_tree_test_x).
Defined.

(** ** The loop on a learned tree *)

Lemma classify_total (node : TreeNode) (ex : example) :
  (forall attr, tests attr node ->
     exists v, getitem ex attr = Ok v /\ forall s, v <> VStr s) ->
  exists c p, classify node ex = Ok (c, p).
Proof.
  induction node as [a th lt IHlt ge IHge miss IHmiss | c' n tot p'];
    cbn [classify tests]; intros H; [| eauto].
  destruct (H a (or_introl eq_refl)) as (v & -> & Hv); cbn [bind].
  destruct v as [f | s |].
  - destruct (Rltb f th); [apply IHlt | apply IHge]; intros b Hb; apply H; auto.
  - exfalso; exact (Hv s eq_refl).
  - apply IHmiss; intros b Hb; apply H; auto.
Qed.

Section EvaluationOfLearnedTree.

Variables (id_name class_name : string) (min_leaf_count : Z).

(** X16.  The loop finishes on a tree that [learn_tree] has returned when
    every test example has one of the four classes as its label, a string
    as its identifier, and a number or [None] for each attribute that the
    tree tests: the label that the tree predicts is then always one that
    [ordering] holds. *)
Theorem evaluation_total_on_learned_tree (fuel : nat) (examples : list example)
  (node : TreeNode) (test_examples : list example) :
  learn_tree id_name class_name min_leaf_count fuel examples = Some (Ok node) ->
  Forall (testable id_name class_name node) test_examples ->
  exists st,
    test_tree (mkDecisionTree id_name class_name min_leaf_count node)
      class_name id_name test_examples = Ok st.
Proof.
  intros Hl Ht; unfold test_tree.
  apply foldM_total; intros st ex Hin.
  rewrite Forall_forall in Ht.
  destruct (Ht ex Hin) as ((a & Ha & Ka) & (ids & Hid) & Hattrs).
  destruct (classify_total node ex Hattrs) as (c & prob & Hc).
  pose proof (learned_leaves _ _ _ _ _ _ Hl) as Hlv.
  rewrite Forall_forall in Hlv.
  destruct (Hlv _ (classify_in_leaves _ _ _ _ Hc))
    as ((p & _ & Ep & Kp & _) & _); cbn [fst] in Ep; subst c.
  destruct (known_class_index _ Ka) as (j & Hj).
  destruct (known_class_index _ Kp) as (i & Hi).
  eexists.
  apply (test_step_eval _ _ _ _ _ a p ids prob i j); assumption.
Qed.

End EvaluationOfLearnedTree.

Lemma test_x_testable : Forall (testable "name" "label" tree_x) test_x.
Proof.
  unfold test_x; repeat constructor;
    try (eexists; split; reflexivity); try (eexists; reflexivity);
    intros attr [<- | [[] | [[] | []]]];
    eexists; (split; [reflexivity | intros s; discriminate]).
Qed.

Lemma evaluation_total_on_learned_tree_witness :
  exists st, test_tree dt_x "label" "name" test_x = Ok st.
Proof.
  exact (evaluation_total_on_learned_tree "name" "label" 1 5 ex_x tree_x test_x
           learn_tree_ex_x test_x_testable).
Defined.

(** ** [classify]: the exceptions *)

(** X17.  [classify] fails in two ways only, each at an attribute that the
    tree tests: with [KeyError] when the example lacks the attribute, and
    with [TypeError] when the example has a string for it. *)
Theorem classify_errors (node : TreeNode) (ex : example) (e : exn) :
  classify node ex = Raise e ->
  exists attr,
    tests attr node /\
    ((e = KeyError /\ getitem ex attr = Raise KeyError) \/
     (e = TypeError /\ exists s, getitem ex attr = Ok (VStr s))).
Proof.
  induction node as [a th lt IHlt ge IHge miss IHmiss | c' n tot p'];
    cbn [classify tests]; intros H; [| discriminate].
  destruct (getitem ex a) as [[f | s |] | e'] eqn:Ea; cbn [bind] in H.
  - destruct (Rltb f th);
      [destruct (IHlt H) as (attr & Ht & Hc) | destruct (IHge H) as (attr & Ht & Hc)];
      exists attr; auto.
  - injection H as <-; exists a; split; [auto | right; eauto].
  - destruct (IHmiss H) as (attr & Ht & Hc); exists attr; auto.
  - injection H as <-; exists a; split; [auto | left].
    assert (e' = KeyError) as ->; [| auto].
    unfold getitem in Ea; destruct (lookup a ex); [discriminate |].
    injection Ea as <-; reflexivity.
Qed.

Lemma classify_errors_witness :
  exists attr,
    tests attr tree_x /\
    ((TypeError = KeyError /\
      getitem (row "q" "x" (VStr "high") "red") attr = Raise KeyError) \/
     (TypeError = TypeError /\
      exists s, getitem (row "q" "x" (VStr "high") "red") attr = Ok (VStr s))).
Proof.
  exact (classify_errors tree_x (row "q" "x" (VStr "high") "red") TypeError
           eq_refl).
Defined.

(** ** The drawing of the tree *)

Section PrintingProperties.

Variables (fmt_value : value -> string) (fmt_int : Z -> string)
  (fmt_float fmt_2f : R -> string).

Local Abbreviation ascii := (_ascii_tree fmt_value fmt_int fmt_float fmt_2f).

Lemma drawn_leaves_pos (node : TreeNode) : (0 < drawn_leaves node)%nat.
Proof.
  unfold drawn_leaves; induction node as [a th lt IHlt ge IHge miss _ | c n tot p];
    cbn [branch_totals]; [rewrite length_app; lia | simpl; lia].
Qed.

Lemma ascii_tree_lengths (node : TreeNode) :
  (List.length (fst (fst (ascii node)))
   + List.length (snd (ascii node)) + 1
   = 4 * drawn_leaves node - 1)%nat.
Proof.
  unfold drawn_leaves.
  induction node as [a th lt IHlt ge IHge miss _ | c n tot p];
    cbn [_ascii_tree branch_totals]; [| reflexivity].
  pose proof (drawn_leaves_pos lt) as Plt.
  pose proof (drawn_leaves_pos ge) as Pge.
  unfold drawn_leaves in Plt, Pge.
  destruct (ascii ge) as [[gb gl] ga], (ascii lt) as [[lb ll] la].
  cbn [fst snd] in *.
  rewrite !length_app, !length_map; simpl List.length; lia.
Qed.

Lemma ascii_tree_node (a : string) (th : R) (lt ge miss : TreeNode) :
  snd (fst (ascii (DecisionNode a th lt ge miss))) = a /\
  (List.length (fst (fst (ascii (DecisionNode a th lt ge miss))))
   = 4 * drawn_leaves ge - 1)%nat /\
  (List.length (snd (ascii (DecisionNode a th lt ge miss)))
   = 4 * drawn_leaves lt - 1)%nat.
Proof.
  pose proof (ascii_tree_lengths ge) as Hge.
  pose proof (ascii_tree_lengths lt) as Hlt.
  cbn [_ascii_tree].
  destruct (ascii ge) as [[gb gl] ga], (ascii lt) as [[lb ll] la].
  cbn [fst snd] in *.
  rewrite !length_app, !length_map; simpl List.length.
  split; [reflexivity | split; lia].
Qed.

Lemma ascii_tree_drawn (node : TreeNode) : ascii (drawn node) = ascii node.
Proof.
  induction node as [a th lt IHlt ge IHge miss _ | c n tot p];
    cbn [_ascii_tree drawn]; [| reflexivity].
  rewrite IHlt, IHge; reflexivity.
Qed.

(** X18.  The drawing of a tree has [4 * k - 1] lines, where [k] is the
    number of leaves under the branches of the comparisons; the branches
    for missing values are not drawn: the lines do not depend on them; and
    the [>=] branch of a decision node is drawn first: the line after its
    [4 * k' - 1] lines holds the name of the tested attribute, and the [<]
    branch follows. *)
Theorem ascii_tree_shape (node : TreeNode) (a : string) (th : R)
  (lt ge miss : TreeNode) :
  (List.length (tree_lines fmt_value fmt_int fmt_float fmt_2f node)
   = 4 * drawn_leaves node - 1)%nat /\
  tree_lines fmt_value fmt_int fmt_float fmt_2f (drawn node)
  = tree_lines fmt_value fmt_int fmt_float fmt_2f node /\
  nth (4 * drawn_leaves ge - 1)
    (tree_lines fmt_value fmt_int fmt_float fmt_2f
       (DecisionNode a th lt ge miss)) "" = a /\
  (List.length (tree_lines fmt_value fmt_int fmt_float fmt_2f
                  (DecisionNode a th lt ge miss))
   = (4 * drawn_leaves ge - 1) + 1 + (4 * drawn_leaves lt - 1))%nat.
Proof.
  split; [| split].
  - pose proof (ascii_tree_lengths node) as H; unfold tree_lines.
    destruct (ascii node) as [[b m] af]; cbn [fst snd] in H.
    rewrite length_app; simpl List.length; lia.
  - unfold tree_lines; rewrite ascii_tree_drawn; reflexivity.
  - destruct (ascii_tree_node a th lt ge miss) as (Hm & Hb & Ha).
    unfold tree_lines.
    destruct (ascii (DecisionNode a th lt ge miss)) as [[b m] af].
    cbn [fst snd] in Hm, Hb, Ha; subst m.
    split.
    + rewrite <- Hb, app_nth2 by lia.
      rewrite Nat.sub_diag; reflexivity.
    + rewrite length_app; simpl List.length; lia.
Qed.

End PrintingProperties.
